(** * Telemetry ingestion worker: a shallow embedding and its properties

    The development follows the sources of the IoT backend:

    - [MQTTWorker] (services/mqttWorker.js): the broker session with its
      reconnect handler, the message handler, the payload validator and the
      numeric decoder;
    - the [Telemetry] and [Device] models (their schemas and [toAPIResponse]);
    - [getDeviceStatus], as written in the devices route and again in the
      client pages;
    - the handler of [GET /api/devices] (routes/devices.js) from the devices
      with their latest readings on: the filter on the status and the
      pagination, and the body it answers with;
    - the lists of live updates of the socket context
      (contexts/SocketContext.js), and what the devices page makes of them
      and of the answer it fetches (pages/DevicesPage.js).

    The host language is modelled in [Module JS]: numbers are IEEE-754
    doubles kept as exact dyadic values, strings are byte strings (the UTF-8
    form of the script's strings), values are what [JSON.parse] can produce
    plus [undefined] and Node buffers, and exceptions are explicit.

    What lies outside the sources is kept to its contract:

    - [JSON.parse] is a parameter of the message handler;
    - the two collections are lists of documents in insertion order.  The
      schemas act as Mongoose does: a document is cast path by path when it
      is made ([String], [Number]; a value that cannot be cast makes the
      [save] fail), [uid] and [name] of a device are trimmed, in a document
      and in the filter of a query alike, the index on [uid] is unique, and
      saving a document that was read writes the paths that changed.  A
      [save] or [findOne] that fails for another reason (a required path
      left empty, a lost database link) is an outcome the surroundings
      choose;
    - [new Date()] reads a clock that never goes back;
    - the MQTT client emits [reconnect] only while it is not connected and
      was not ended, and [connect] only while it is not connected: a
      connection under way when [end()] is called from a handler may still
      complete;
    - the calls of the message handler overlap, as the listener does not
      wait for them: a call runs up to its next [await], and the database
      carries out what the calls wait for in any order;
    - the events the socket client receives are handled one after the
      other;
    - a parameter of the query is a string when it is given. *)

From Stdlib Require Import ZArith List String Ascii Bool Lia.
From Stdlib Require Import DecimalString Decimal DecimalN.
Import ListNotations.
Local Open Scope string_scope.
Local Open Scope Z_scope.

(* ================================================================== *)
(** * The host language *)
(* ================================================================== *)

Module JS.

(** ** Numbers

    A JavaScript number is a double.  Every finite non-zero double is
    [±m·2^e] for exactly one odd [m], which is the form kept here, so that
    Leibniz equality on [number] is identity of doubles (all NaNs being one
    value, as they are for a script). *)

Inductive number : Type :=
| NaN
| Infinity (neg : bool)
| Zero (neg : bool)
| Finite (neg : bool) (m : positive) (e : Z).

Definition pos_zero : number := Zero false.

(** [strip m e] removes the trailing zero bits of [m], keeping [m·2^e]. *)
Fixpoint strip (m : positive) (e : Z) : positive * Z :=
  match m with
  | xO m' => strip m' (e + 1)
  | _ => (m, e)
  end.

(** The number [±m·2^e] for a natural [m], in canonical form. *)
Definition dyadic (neg : bool) (m : Z) (e : Z) : number :=
  match m with
  | Zpos p => let (p', e') := strip p e in Finite neg p' e'
  | _ => Zero neg
  end.

Definition of_Z (z : Z) : number := dyadic (z <? 0) (Z.abs z) 0.

Definition isNaN (x : number) : bool :=
  match x with NaN => true | _ => false end.

(** Binary64: 53 bits of precision, least exponent -1074, overflow at 2^1024. *)
Definition prec64 : Z := 53.
Definition emin64 : Z := -1074.
Definition emax64 : Z := 1024.

(** [round_half_even num den] is the integer nearest to [num/den], ties
    going to the even one. *)
Definition round_half_even (num den : Z) : Z :=
  let q := num / den in
  let r := num mod den in
  match 2 * r ?= den with
  | Lt => q
  | Gt => q + 1
  | Eq => if Z.even q then q else q + 1
  end.

(** [fl64 neg p q] is the double nearest to [±p/q] (round to nearest, ties to
    even), for [p >= 0] and [q > 0]. *)
Definition fl64 (neg : bool) (p q : Z) : number :=
  if p <=? 0 then Zero neg
  else
    let e0 := Z.log2 p - Z.log2 q - prec64 in
    let scaled (e : Z) := if 0 <=? e then (p, q * 2 ^ e) else (p * 2 ^ (- e), q) in
    let e1 := let (n, d) := scaled e0 in if 2 ^ prec64 <=? n / d then e0 + 1 else e0 in
    let e := Z.max e1 emin64 in
    let (n, d) := scaled e in
    let m := round_half_even n d in
    if 2 ^ (emax64 - emin64) <=? m * 2 ^ (e - emin64) then Infinity neg
    else dyadic neg m e.

(** [trunc x] is the integer part of [x] (toward zero); 0 when [x] is not
    finite.  It is what the typed-array stores and [>>>] start from. *)
Definition trunc (x : number) : Z :=
  match x with
  | Finite neg m e =>
      let a := if 0 <=? e then Z.pos m * 2 ^ e else Z.pos m / 2 ^ (- e) in
      if neg then - a else a
  | _ => 0
  end.

(** Comparison of two finite values through a common exponent. *)
Definition scaled_pair (x y : number) : Z * Z :=
  let parts (v : number) : Z * Z :=
    match v with
    | Finite neg m e => ((if neg then Z.neg m else Z.pos m), e)
    | _ => (0, 0)
    end in
  let (mx, ex) := parts x in
  let (my, ey) := parts y in
  let e := Z.min ex ey in
  (mx * 2 ^ (ex - e), my * 2 ^ (ey - e)).

(** [x < y] and [x > y] on numbers: false as soon as one side is NaN. *)
Definition lt (x y : number) : bool :=
  match x, y with
  | NaN, _ | _, NaN => false
  | Infinity nx, Infinity ny => nx && negb ny
  | Infinity nx, _ => nx
  | _, Infinity ny => negb ny
  | _, _ => let (a, b) := scaled_pair x y in a <? b
  end.

Definition gt (x y : number) : bool := lt y x.

(** [|x|] as a fraction, and whether [x < 0]. *)
Definition magnitude (x : number) : Z * Z :=
  match x with
  | Finite _ m e => if 0 <=? e then (Z.pos m * 2 ^ e, 1) else (Z.pos m, 2 ^ (- e))
  | _ => (0, 1)
  end.

Definition is_negative (x : number) : bool :=
  match x with
  | Finite neg _ _ => neg
  | _ => false
  end.

(** The double nearest to an integer: what the difference of two instants
    (integers, in milliseconds) comes to. *)
Definition of_int (z : Z) : number := fl64 (z <? 0) (Z.abs z) 1.

(** [x / y] *)
Definition div (x y : number) : number :=
  match x, y with
  | NaN, _ | _, NaN => NaN
  | Infinity _, Infinity _ => NaN
  | Zero _, Zero _ => NaN
  | Infinity a, Zero b | Infinity a, Finite b _ _ => Infinity (xorb a b)
  | Zero a, Infinity b | Finite a _ _, Infinity b => Zero (xorb a b)
  | Zero a, Finite b _ _ => Zero (xorb a b)
  | Finite a _ _, Zero b => Infinity (xorb a b)
  | Finite a _ _, Finite b _ _ =>
      let (nx, dx) := magnitude x in
      let (ny, dy) := magnitude y in
      fl64 (xorb a b) (nx * dy) (dx * ny)
  end.

(** ** Strings *)

Definition code (c : ascii) : Z := Z.of_N (N_of_ascii c).

Definition decimal_digit (c : ascii) : option Z :=
  let n := code c in
  if (48 <=? n) && (n <=? 57) then Some (n - 48) else None.

Definition hex_digit (c : ascii) : option Z :=
  let n := code c in
  if (48 <=? n) && (n <=? 57) then Some (n - 48)
  else if (97 <=? n) && (n <=? 102) then Some (n - 87)
  else if (65 <=? n) && (n <=? 70) then Some (n - 55)
  else None.

Definition octal_digit (c : ascii) : option Z :=
  let n := code c in
  if (48 <=? n) && (n <=? 55) then Some (n - 48) else None.

Definition binary_digit (c : ascii) : option Z :=
  let n := code c in
  if (48 <=? n) && (n <=? 49) then Some (n - 48) else None.

(** The longest run of digits at the head of [s]: its value on top of
    [acc], the number of digits read on top of [n], and what is left. *)
Fixpoint digits (digit : ascii -> option Z) (base : Z) (acc n : Z) (s : string)
  : Z * Z * string :=
  match s with
  | String c s' =>
      match digit c with
      | Some d => digits digit base (acc * base + d) (n + 1) s'
      | None => (acc, n, s)
      end
  | EmptyString => (acc, n, s)
  end.

Definition startsWith (s p : string) : bool := String.prefix p s.

(** The regular expression [/^[0-9a-fA-F]+$/]. *)
Fixpoint all_hex (s : string) : bool :=
  match s with
  | EmptyString => true
  | String c s' =>
      match hex_digit c with
      | Some _ => all_hex s'
      | None => false
      end
  end.

Definition hex_pattern (s : string) : bool :=
  match s with
  | EmptyString => false
  | _ => all_hex s
  end.

(** Leading white space and line terminators, as [parseInt], [parseFloat]
    and the string-to-number conversion skip them.  Outside ASCII these are
    U+00A0, U+1680, U+2000..U+200A, U+2028, U+2029, U+202F, U+205F, U+3000
    and U+FEFF, met here in their UTF-8 form. *)
Fixpoint skip_ws (s : string) : string :=
  match s with
  | String c r =>
      let n := code c in
      if ((9 <=? n) && (n <=? 13)) || (n =? 32) then skip_ws r
      else
        match r with
        | String c2 r2 =>
            let n2 := code c2 in
            if (n =? 194) && (n2 =? 160) then skip_ws r2
            else
              match r2 with
              | String c3 r3 =>
                  let n3 := code c3 in
                  if ((n =? 225) && (n2 =? 154) && (n3 =? 128))
                     || ((n =? 226) && (n2 =? 128)
                         && (((128 <=? n3) && (n3 <=? 138))
                             || (n3 =? 168) || (n3 =? 169) || (n3 =? 175)))
                     || ((n =? 226) && (n2 =? 129) && (n3 =? 159))
                     || ((n =? 227) && (n2 =? 128) && (n3 =? 128))
                     || ((n =? 239) && (n2 =? 187) && (n3 =? 191))
                  then skip_ws r3
                  else s
              | EmptyString => s
              end
        | EmptyString => s
        end
  | EmptyString => s
  end.

Definition take_sign (s : string) : bool * string :=
  match s with
  | String "-"%char r => (true, r)
  | String "+"%char r => (false, r)
  | _ => (false, s)
  end.

Definition drop_0x (s : string) : string :=
  match s with
  | String "0"%char (String "x"%char r) => r
  | String "0"%char (String "X"%char r) => r
  | _ => s
  end.

(** [parseInt(s, 16)]: white space, a sign, an optional [0x], then the
    longest run of hexadecimal digits; NaN when that run is empty. *)
Definition parseInt16 (s : string) : number :=
  let (neg, s1) := take_sign (skip_ws s) in
  let '(v, n, _) := digits hex_digit 16 0 0 (drop_0x s1) in
  if n =? 0 then NaN else fl64 neg v 1.

(** The longest prefix of [s] that is a [StrUnsignedDecimalLiteral]
    ([Infinity], digits with an optional fraction and exponent, or a
    fraction alone), as a number of sign [neg], with the rest of [s]; [None]
    when no prefix is one. *)
Definition StrUnsignedDecimalLiteral (neg : bool) (s : string)
  : option (number * string) :=
  if startsWith s "Infinity" then
    Some (Infinity neg, String.substring 8 (String.length s - 8) s)
  else
    let '(ip, ni, r1) := digits decimal_digit 10 0 0 s in
    let '(mant, nf, r2) :=
      match r1 with
      | String "."%char r => digits decimal_digit 10 ip 0 r
      | _ => (ip, 0, r1)
      end in
    if (ni =? 0) && (nf =? 0) then None
    else
      let (ex, r3) :=
        match r2 with
        | String c r =>
            if (code c =? 101) || (code c =? 69) then
              let (eneg, re) := take_sign r in
              let '(ev, ne, r') := digits decimal_digit 10 0 0 re in
              if ne =? 0 then (0, r2) else ((if eneg then - ev else ev), r')
            else (0, r2)
        | EmptyString => (0, r2)
        end in
      let e10 := ex - nf in
      Some ((if 0 <=? e10 then fl64 neg (mant * 10 ^ e10) 1
             else fl64 neg mant (10 ^ (- e10))), r3).

(** The same with an optional sign in front: a [StrDecimalLiteral]. *)
Definition StrDecimalLiteral (s : string) : option (number * string) :=
  let (neg, s1) := take_sign s in
  StrUnsignedDecimalLiteral neg s1.

(** [parseFloat] on a string. *)
Definition parseFloat_string (s : string) : number :=
  match StrDecimalLiteral (skip_ws s) with
  | Some (x, _) => x
  | None => NaN
  end.

Definition is_empty (s : string) : bool :=
  match s with EmptyString => true | _ => false end.

(** The string-to-number conversion ([Number(s)], and what a typed array
    applies to a string it is given): the whole string, white space
    trimmed, must be a numeric literal; the empty string is 0. *)
Definition radix_literal (digit : ascii -> option Z) (base : Z) (s : string) : number :=
  let '(v, n, r) := digits digit base 0 0 s in
  if (0 <? n) && is_empty (skip_ws r) then fl64 false v 1 else NaN.

Definition StringToNumber (s : string) : number :=
  let t := skip_ws s in
  match t with
  | EmptyString => pos_zero
  | String "0"%char (String "x"%char r) | String "0"%char (String "X"%char r) =>
      radix_literal hex_digit 16 r
  | String "0"%char (String "o"%char r) | String "0"%char (String "O"%char r) =>
      radix_literal octal_digit 8 r
  | String "0"%char (String "b"%char r) | String "0"%char (String "B"%char r) =>
      radix_literal binary_digit 2 r
  | _ =>
      match StrDecimalLiteral t with
      | Some (x, r) => if is_empty (skip_ws r) then x else NaN
      | None => NaN
      end
  end.

(** ** Number to string

    [Number.prototype.toString] picks the shortest decimal text that reads
    back as the same double.  Its digits are never needed here, only that
    property, so such a text stays symbolic: [NumberText x]. *)
Inductive text : Type :=
| Chars (s : string)
| NumberText (x : number).

(** What reading the text of [x] back gives: [x], the sign of zero lost. *)
Definition read_back (x : number) : number :=
  match x with
  | Zero _ => pos_zero
  | _ => x
  end.

Definition parseFloat_text (t : text) : number :=
  match t with
  | Chars s => parseFloat_string s
  | NumberText x => read_back x
  end.

Definition decimal_of_Z (n : Z) : string :=
  NilZero.string_of_uint (N.to_uint (Z.to_N n)).

Fixpoint zeros (k : nat) : string :=
  match k with
  | O => EmptyString
  | S k' => String "0"%char (zeros k')
  end.

(** The digits of [n] with a point before the last [f] of them, zeros
    added in front when [n] has no more than [f] digits, and a minus sign
    first when [neg]. *)
Definition fixed_digits (neg : bool) (n : Z) (f : nat) : string :=
  let m := decimal_of_Z n in
  let k := String.length m in
  let m' := if Nat.leb k f then String.append (zeros (f + 1 - k)) m else m in
  let k' := String.length m' in
  let body :=
    match f with
    | O => m'
    | _ => String.append (String.substring 0 (k' - f) m')
             (String "."%char (String.substring (k' - f) f m'))
    end in
  if neg then String "-"%char body else body.

(** [x.toFixed(f)]: for [|x| < 10^21], the integer [n] with [n / 10^f]
    nearest to [|x|] (the larger one on a tie), written with [f] digits
    after the point and a minus sign when [x < 0]; from [10^21] on, the
    text of [x] itself. *)
Definition toFixed (x : number) (f : nat) : text :=
  match x with
  | NaN => Chars "NaN"
  | Infinity neg => Chars (if neg then "-Infinity" else "Infinity")
  | _ =>
      let (num, den) := magnitude x in
      if 10 ^ 21 * den <=? num then NumberText x
      else
        Chars (fixed_digits (is_negative x)
                 ((2 * num * 10 ^ Z.of_nat f + den) / (2 * den)) f)
  end.

(** [===] on numbers that are not zero; all NaNs are one value here. *)
Definition number_eqb (x y : number) : bool :=
  match x, y with
  | NaN, NaN => true
  | Infinity a, Infinity b | Zero a, Zero b => Bool.eqb a b
  | Finite a m e, Finite b m' e' => Bool.eqb a b && Pos.eqb m m' && Z.eqb e e'
  | _, _ => false
  end.

(** The digits [Number.prototype.toString] writes for [p/q > 0]: the least
    number [k] of digits for which some [s] of [k] digits and some [n] make
    [s·10^(n-k)] read as the same double, and, of these, the [s] and [n] whose
    value is nearest to [p/q] (the even [s] on a tie).

    [decimal_exponent p q] is the [n] with [10^(n-1) <= p/q < 10^n]. *)
Fixpoint leading_zeros (fuel : nat) (p q j : Z) : Z :=
  match fuel with
  | O => j
  | S fuel' => if q <=? p * 10 then j else leading_zeros fuel' (p * 10) q (j + 1)
  end.

Definition decimal_exponent (p q : Z) : Z :=
  if q <=? p then Z.of_nat (String.length (decimal_of_Z (p / q)))
  else - leading_zeros 400 p q 0.

(** [s·10^d] as a fraction. *)
Definition scientific (s d : Z) : Z * Z :=
  if 0 <=? d then (s * 10 ^ d, 1) else (s, 10 ^ (- d)).

Definition reads_as_double (x : number) (s d : Z) : bool :=
  let (a, b) := scientific s d in number_eqb (fl64 false a b) x.

(** Whether [s·10^d] is nearer to [p/q] than [s'·10^d'], or as near with [s]
    even. *)
Definition nearer (p q : Z) (c c' : Z * Z) : bool :=
  let (a, b) := scientific (fst c) (snd c) in
  let (a', b') := scientific (fst c') (snd c') in
  let dist := Z.abs (a * q - p * b) * b' in
  let dist' := Z.abs (a' * q - p * b') * b in
  (dist <? dist') || ((dist =? dist') && Z.even (fst c)).

(** The candidates with [k] digits: for [n] one of [n0] and [n0 + 1], the two
    integers around [p/q / 10^(n-k)], when they have [k] digits and read
    as [x]; each comes with its [d = n - k]. *)
Definition candidates (x : number) (p q n0 k : Z) : list (Z * Z) :=
  List.filter
    (fun c => (10 ^ (k - 1) <=? fst c) && (fst c <? 10 ^ k)
              && reads_as_double x (fst c) (snd c))
    (List.flat_map
       (fun n =>
          let d := n - k in
          let low := if 0 <=? d then p / (q * 10 ^ d) else (p * 10 ^ (- d)) / q in
          [(low, d); (low + 1, d)])
       [n0; n0 + 1]).

Definition nearest (p q : Z) (cs : list (Z * Z)) : option (Z * Z) :=
  List.fold_left
    (fun best c =>
       match best with
       | None => Some c
       | Some b => if nearer p q b c then Some b else Some c
       end)
    cs None.

Fixpoint shortest_digits (fuel : nat) (x : number) (p q n0 k : Z) : Z * Z :=
  match fuel with
  | O => (0, 0)
  | S fuel' =>
      match nearest p q (candidates x p q n0 k) with
      | Some c => c
      | None => shortest_digits fuel' x p q n0 (k + 1)
      end
  end.

(** [Number.prototype.toString] (radix 10): the digits [s] found above, [k]
    of them, written with the point after the [n]-th, in exponent notation
    when [n] is above 21 or below -5. *)
Definition Number_toString (x : number) : string :=
  match x with
  | NaN => "NaN"
  | Infinity neg => if neg then "-Infinity" else "Infinity"
  | Zero _ => "0"
  | Finite neg m e =>
      let (p, q) := magnitude x in
      let (s, d) := shortest_digits 17 (Finite false m e) p q (decimal_exponent p q) 1 in
      let ds := decimal_of_Z s in
      let k := Z.of_nat (String.length ds) in
      let n := d + k in
      let body :=
        if (k <=? n) && (n <=? 21) then String.append ds (zeros (Z.to_nat (n - k)))
        else if (0 <? n) && (n <=? 21) then
          String.append (String.substring 0 (Z.to_nat n) ds)
            (String "."%char (String.substring (Z.to_nat n) (Z.to_nat (k - n)) ds))
        else if (-6 <? n) && (n <=? 0) then
          String.append "0." (String.append (zeros (Z.to_nat (- n))) ds)
        else
          let e := n - 1 in
          let mantissa :=
            if k =? 1 then ds
            else String.append (String.substring 0 1 ds)
                   (String "."%char (String.substring 1 (Z.to_nat (k - 1)) ds)) in
          String.append mantissa
            (String "e"%char
               (String (if e <? 0 then "-"%char else "+"%char) (decimal_of_Z (Z.abs e)))) in
      if neg then String "-"%char body else body
  end.

(** [s.trim()]: the white space and line terminators at both ends removed. *)
Fixpoint trimEnd (s : string) : string :=
  match s with
  | EmptyString => EmptyString
  | String c r => if is_empty (skip_ws s) then EmptyString else String c (trimEnd r)
  end.

Definition trim (s : string) : string := trimEnd (skip_ws s).

(** ** Exceptions *)

Inductive error : Type :=
| RangeError
| TypeError
| SyntaxError
| StoreError.

Inductive completion (A : Type) : Type :=
| Normal (a : A)
| Throw (e : error).

Arguments Normal {A} a.
Arguments Throw {A} e.

Definition bind {A B : Type} (c : completion A) (k : A -> completion B)
  : completion B :=
  match c with
  | Normal a => k a
  | Throw e => Throw e
  end.

(** [try c catch h] *)
Definition try_catch {A : Type} (c : completion A) (h : error -> completion A)
  : completion A :=
  match c with
  | Normal a => Normal a
  | Throw e => h e
  end.

Declare Scope js_scope.
Delimit Scope js_scope with js.
Notation "x <- c ;; k" := (bind c (fun x => k))
  (at level 61, c at next level, right associativity) : js_scope.

Fixpoint mapM {A B : Type} (f : A -> completion B) (l : list A)
  : completion (list B) :=
  match l with
  | [] => Normal []
  | a :: l' =>
      bind (f a) (fun b => bind (mapM f l') (fun bs => Normal (b :: bs)))
  end.

(** ** Values

    What [JSON.parse] builds (null, booleans, numbers, strings, arrays and
    plain objects with their own properties in order), [undefined] for a
    property that is not there, and Node buffers. *)

Definition byte : Type := ascii.

Definition byte_of_Z (z : Z) : byte := ascii_of_N (Z.to_N (z mod 256)).

#[local] Set Warnings "-register-all".
Inductive value : Type :=
| VUndefined
| VNull
| VBool (b : bool)
| VNumber (x : number)
| VString (s : string)
| VArray (elems : list value)
| VObject (props : list (string * value))
| VBuffer (bytes : list byte).

Inductive type_name : Type :=
| TyUndefined | TyObject | TyBoolean | TyNumber | TyString.

Definition typeof (v : value) : type_name :=
  match v with
  | VUndefined => TyUndefined
  | VNull | VArray _ | VObject _ | VBuffer _ => TyObject
  | VBool _ => TyBoolean
  | VNumber _ => TyNumber
  | VString _ => TyString
  end.

Definition type_name_eqb (a b : type_name) : bool :=
  match a, b with
  | TyUndefined, TyUndefined | TyObject, TyObject | TyBoolean, TyBoolean
  | TyNumber, TyNumber | TyString, TyString => true
  | _, _ => false
  end.

(** Truthiness, as [&&], [||], [!] and [if] test it. *)
Definition truthy (v : value) : bool :=
  match v with
  | VUndefined | VNull => false
  | VBool b => b
  | VNumber (NaN | Zero _) => false
  | VNumber _ => true
  | VString s => negb (is_empty s)
  | VArray _ | VObject _ | VBuffer _ => true
  end.

(** [a || b] *)
Definition or_else (a b : value) : value := if truthy a then a else b.

Fixpoint lookup (k : string) (props : list (string * value)) : option value :=
  match props with
  | [] => None
  | (k', v) :: rest => if String.eqb k k' then Some v else lookup k rest
  end.

(** [v.k] for the property names the sources read ([data], [temp], [hum],
    [pm2.5], [uid], [fw], [tts]): no prototype carries them, so only a
    plain object can have one.  The sources read a property only of values
    already known to be objects. *)
Definition get (v : value) (k : string) : value :=
  match v with
  | VObject props =>
      match lookup k props with
      | Some x => x
      | None => VUndefined
      end
  | _ => VUndefined
  end.

Definition isBuffer (v : value) : bool :=
  match v with VBuffer _ => true | _ => false end.

Definition isArray (v : value) : bool :=
  match v with VArray _ => true | _ => false end.

(** [v.length] of a buffer or an array. *)
Definition length_of (v : value) : Z :=
  match v with
  | VBuffer bs => Z.of_nat (List.length bs)
  | VArray l => Z.of_nat (List.length l)
  | _ => 0
  end.

(** ** Conversion of values to strings and numbers

    Turning an object into a primitive calls its [toString] (and
    [valueOf]).  A parsed object inherits both, unless it has an own property
    of that name: that one is data, not a function, and the conversion then
    throws a TypeError.  An array joins the strings of its elements, so it
    throws when one of them does. *)
Fixpoint stringifies (v : value) : bool :=
  match v with
  | VObject props =>
      match lookup "toString" props with
      | Some _ => false
      | None => true
      end
  | VArray elems => forallb stringifies elems
  | _ => true
  end.

Definition string_of_bytes (bs : list byte) : string := string_of_list_ascii bs.

(** The number a value converts to, once [stringifies] holds.  An array goes
    through its string: empty for no element, the element's own string for
    one (empty for null and undefined), and a string with a comma, hence
    NaN, for more. *)
Fixpoint to_number (v : value) : number :=
  match v with
  | VUndefined => NaN
  | VNull => pos_zero
  | VBool b => if b then of_Z 1 else pos_zero
  | VNumber x => x
  | VString s => StringToNumber s
  | VBuffer bs => StringToNumber (string_of_bytes bs)
  | VObject _ => NaN
  | VArray [] => pos_zero
  | VArray [e] =>
      match e with
      | VUndefined | VNull => pos_zero
      | VBool _ => NaN
      | VNumber x => read_back x
      | _ => to_number e
      end
  | VArray _ => NaN
  end.

Definition ToNumber (v : value) : completion number :=
  if stringifies v then Normal (to_number v) else Throw TypeError.

(** [parseFloat] reads the longest numeric prefix of its argument's string.
    For an array that string starts with the string of the first element,
    followed by a comma or by nothing. *)
Fixpoint parse_float (v : value) : number :=
  match v with
  | VNumber x => read_back x
  | VString s => parseFloat_string s
  | VBuffer bs => parseFloat_string (string_of_bytes bs)
  | VArray (e :: _) => parse_float e
  | _ => NaN
  end.

Definition parseFloat (v : value) : completion number :=
  if stringifies v then Normal (parse_float v) else Throw TypeError.

(** ** Buffers *)

(** [Buffer.from(array)]: each element converted to a number, truncated
    and taken modulo 256. *)
Definition Buffer_from (elems : list value) : completion (list byte) :=
  mapM (fun e => bind (ToNumber e) (fun x => Normal (byte_of_Z (trunc x)))) elems.

(** [buffer.writeUInt32LE(value, 0)] on a fresh 4-byte buffer: a value
    above [0xffffffff] or below 0 is refused with a RangeError (NaN passes
    both comparisons and is written as zeros). *)
Definition writeUInt32LE (v : number) : completion (list byte) :=
  if gt v (of_Z 4294967295) || lt v (of_Z 0) then Throw RangeError
  else
    let w := trunc v mod 2 ^ 32 in
    Normal [byte_of_Z w; byte_of_Z (Z.shiftr w 8);
            byte_of_Z (Z.shiftr w 16); byte_of_Z (Z.shiftr w 24)].

(** The single-precision value with bit pattern [w]: sign bit 31, exponent
    bits 30..23, fraction bits 22..0. *)
Definition float32_of_bits (w : Z) : number :=
  let sign := Z.testbit w 31 in
  let ex := Z.land (Z.shiftr w 23) 255 in
  let frac := Z.land w (2 ^ 23 - 1) in
  if ex =? 255 then (if frac =? 0 then Infinity sign else NaN)
  else if ex =? 0 then dyadic sign frac (-149)
  else dyadic sign (2 ^ 23 + frac) (ex - 150).

(** [buffer.readFloatLE(0)] *)
Definition readFloatLE (buf : list byte) : completion number :=
  match buf with
  | b0 :: b1 :: b2 :: b3 :: _ =>
      Normal (float32_of_bits
                (Z.lor (code b0)
                   (Z.lor (Z.shiftl (code b1) 8)
                      (Z.lor (Z.shiftl (code b2) 16) (Z.shiftl (code b3) 24)))))
  | _ => Throw RangeError
  end.

End JS.

Import JS.
Local Open Scope js_scope.

(* ================================================================== *)
(** * The models *)
(* ================================================================== *)

(** The three sensor fields of a reading. *)
Record sensor_data : Type := mkData {
  temperature : number;
  humidity : number;
  pm25 : number
}.

(** [parseFloat(x.toFixed(2))], the rounding applied when a reading is
    decoded and again wherever one is read. *)
Definition round2 (x : number) : number := parseFloat_text (toFixed x 2).

(** ** Schema types

    A document is built by casting each value it is given to the type its
    path has in the schema.  A value that cannot be cast is a CastError,
    with which [save()] rejects: [None] stands for it.  ([null] and
    [undefined] are not cast; the worker passes neither, every value it gives
    having a default after [||], and they are left with [None] here.) *)
Module Schema.

(** [type: String]: a string as it is, a number or a boolean by its
    [toString()], an object by its [_id] when that is a string; arrays and
    other objects are refused.  [null] and [undefined], which a schema
    leaves as no value, never get here: the worker puts a default in place
    of what is falsy. *)
Definition castString (v : value) : option string :=
  match v with
  | VString s => Some s
  | VNumber x => Some (Number_toString x)
  | VBool b => Some (if b then "true" else "false")
  | VBuffer bs => Some (string_of_bytes bs)
  | VObject props =>
      match lookup "_id" props with
      | Some (VString s) => if is_empty s then None else Some s
      | _ => None
      end
  | VArray _ | VNull | VUndefined => None
  end.

(** [type: Number]: a number as it is, a string or a boolean by [Number()];
    NaN, arrays and objects are refused.  The empty string, [null] and
    [undefined], which a schema leaves as no value, never get here
    either. *)
Definition castNumber (v : value) : option number :=
  let checked (x : number) := if isNaN x then None else Some x in
  match v with
  | VNumber x => checked x
  | VString s => if is_empty s then None else checked (StringToNumber s)
  | VBool b => Some (if b then of_Z 1 else pos_zero)
  | VBuffer bs => checked (StringToNumber (string_of_bytes bs))
  | VArray _ | VObject _ | VNull | VUndefined => None
  end.

End Schema.

Module Device.

(** A document of the [Device] collection (models/Device.js). *)
Record t : Type := mk {
  uid : string;
  name : string;
  firmware : string;
  isActive : bool;
  lastSeen : Z;
  location : string;
  deviceType : string
}.

(** The object the worker hands to [new Device(...)]. *)
Record fields : Type := mkFields {
  f_uid : string;
  f_name : string;
  f_firmware : value;
  f_lastSeen : Z;
  f_isActive : bool
}.

(** [new Device(fields)]: [uid] and [name] are trimmed ([trim: true]),
    [firmware] is cast to a string, and the paths left out take their
    defaults. *)
Definition create (f : fields) : option t :=
  match Schema.castString (f_firmware f) with
  | Some firmware =>
      Some {| uid := trim (f_uid f);
              name := trim (f_name f);
              firmware := firmware;
              isActive := f_isActive f;
              lastSeen := f_lastSeen f;
              location := "Unknown";
              deviceType := "sensor" |}
  | None => None
  end.

(** [Device.findOne({ uid })]: the value asked for is cast as that of a
    document is, hence trimmed; the answer is the first document with that
    [uid]. *)
Definition findOne (id : string) (coll : list t) : option t :=
  List.find (fun d => String.eqb (uid d) (trim id)) coll.

(** [device.save()] for a new document: the unique index on [uid] refuses it
    when a document has that [uid] already. *)
Definition insert (d : t) (coll : list t) : option (list t) :=
  if List.existsb (fun d' => String.eqb (uid d') (uid d)) coll then None
  else Some (coll ++ [d])%list.

(** [device.save()] for a document read from the collection writes the paths
    that were assigned a value other than the one they had, and no others. *)
Record changes : Type := mkChanges {
  set_firmware : option string;
  set_lastSeen : option Z;
  set_isActive : option bool
}.

Definition modified {A : Type} (eqb : A -> A -> bool) (old new : A) : option A :=
  if eqb old new then None else Some new.

Definition or_kept {A : Type} (change : option A) (kept : A) : A :=
  match change with
  | Some a => a
  | None => kept
  end.

Definition apply (ch : changes) (d : t) : t :=
  {| uid := uid d;
     name := name d;
     firmware := or_kept (set_firmware ch) (firmware d);
     isActive := or_kept (set_isActive ch) (isActive d);
     lastSeen := or_kept (set_lastSeen ch) (lastSeen d);
     location := location d;
     deviceType := deviceType d |}.

(** The changes written to the document read, which is known by its [uid]. *)
Fixpoint update (id : string) (ch : changes) (coll : list t) : list t :=
  match coll with
  | [] => []
  | d :: rest =>
      if String.eqb (uid d) id then apply ch d :: rest else d :: update id ch rest
  end.

(** What a [save()] asks of the database. *)
Inductive operation : Type :=
| Insert (d : t)
| Update (id : string) (ch : changes).

Definition perform (op : operation) (coll : list t) : list t :=
  match op with
  | Insert d =>
      match insert d coll with
      | Some coll' => coll'
      | None => coll
      end
  | Update id ch => update id ch coll
  end.

End Device.

Module Telemetry.

(** A document of the [Telemetry] collection (models/Telemetry.js).
    Instants are milliseconds since the epoch. *)
Record t : Type := mk {
  deviceId : string;
  uid : string;
  firmware : string;
  tts : number;
  data : sensor_data;
  timestamp : Z;
  receivedAt : Z;
  rawPayload : string
}.

(** The object the message handler hands to [new Telemetry(...)]. *)
Record fields : Type := mkFields {
  f_deviceId : string;
  f_uid : value;
  f_firmware : value;
  f_tts : value;
  f_data : sensor_data;
  f_timestamp : Z;
  f_receivedAt : Z;
  f_rawPayload : string
}.

(** [new Telemetry(fields)]: [uid] and [firmware] cast to strings, [tts] and
    the three sensor fields to numbers. *)
Definition create (f : fields) : option t :=
  match Schema.castString (f_uid f), Schema.castString (f_firmware f),
        Schema.castNumber (f_tts f),
        Schema.castNumber (VNumber (temperature (f_data f))),
        Schema.castNumber (VNumber (humidity (f_data f))),
        Schema.castNumber (VNumber (pm25 (f_data f))) with
  | Some uid, Some firmware, Some tts, Some t, Some h, Some p =>
      Some {| deviceId := f_deviceId f;
              uid := uid;
              firmware := firmware;
              tts := tts;
              data := {| temperature := t; humidity := h; pm25 := p |};
              timestamp := f_timestamp f;
              receivedAt := f_receivedAt f;
              rawPayload := f_rawPayload f |}
  | _, _, _, _, _, _ => None
  end.

(** What [toAPIResponse] returns (the document's key aside). *)
Record api_response : Type := mkResponse {
  r_deviceId : string;
  r_uid : string;
  r_firmware : string;
  r_tts : number;
  r_data : sensor_data;
  r_timestamp : Z;
  r_receivedAt : Z
}.

Definition toAPIResponse (this : t) : api_response :=
  {| r_deviceId := deviceId this;
     r_uid := uid this;
     r_firmware := firmware this;
     r_tts := tts this;
     r_data := {| temperature := round2 (temperature (data this));
                  humidity := round2 (humidity (data this));
                  pm25 := round2 (pm25 (data this)) |};
     r_timestamp := timestamp this;
     r_receivedAt := receivedAt this |}.

End Telemetry.

(* ================================================================== *)
(** * The worker (services/mqttWorker.js) *)
(* ================================================================== *)

Module MQTTWorker.

(** ** Payload validation and decoding *)

Definition validatePayload (payload : value) : bool :=
  truthy payload
  && type_name_eqb (typeof payload) TyObject
  && truthy (get payload "data")
  && type_name_eqb (typeof (get payload "data")) TyObject
  && negb (type_name_eqb (typeof (get (get payload "data") "temp")) TyUndefined)
  && negb (type_name_eqb (typeof (get (get payload "data") "hum")) TyUndefined)
  && negb (type_name_eqb (typeof (get (get payload "data") "pm2.5")) TyUndefined).

Definition bytes_of (v : value) : list byte :=
  match v with VBuffer bs => bs | _ => [] end.

Definition elems_of (v : value) : list value :=
  match v with VArray l => l | _ => [] end.

Definition littleEndianToFloat (value : value) : completion number :=
  match value with
  | VNumber x => Normal x
  | _ =>
      (* the part after the string case *)
      let bytes_or_zero : completion number :=
        if isBuffer value && (length_of value =? 4) then
          readFloatLE (bytes_of value)
        else if isArray value && (length_of value =? 4) then
          buffer <- Buffer_from (elems_of value) ;;
          readFloatLE buffer
        else
          match value with
          | VNumber x => Normal x
          | _ => Normal pos_zero
          end in
      match value with
      | VString s =>
          if startsWith s "0x" || hex_pattern s then
            let hexValue := if startsWith s "0x" then s else String.append "0x" s in
            let intValue := parseInt16 hexValue in
            buffer <- writeUInt32LE intValue ;;
            readFloatLE buffer
          else
            let numValue := parseFloat_string s in
            if negb (isNaN numValue) then Normal numValue else bytes_or_zero
      | _ => bytes_or_zero
      end
  end.

(** [x || 0] on a number *)
Definition or_zero (x : number) : number :=
  if truthy (VNumber x) then x else pos_zero.

Definition decodeLittleEndianData (data : value) : completion sensor_data :=
  try_catch
    (temperature <- littleEndianToFloat (get data "temp") ;;
     humidity <- littleEndianToFloat (get data "hum") ;;
     pm25 <- littleEndianToFloat (get data "pm2.5") ;;
     Normal {| temperature := round2 temperature;
               humidity := round2 humidity;
               pm25 := round2 pm25 |})
    (fun _ =>
     t <- parseFloat (get data "temp") ;;
     h <- parseFloat (get data "hum") ;;
     p <- parseFloat (get data "pm2.5") ;;
     Normal {| temperature := or_zero t;
               humidity := or_zero h;
               pm25 := or_zero p |}).

(** ** The stores and the message handler

    The collections are kept in insertion order.  [clock] is the last
    instant read with [new Date()]; a later read finds it advanced by some
    natural number of milliseconds. *)

Inductive emission : Type :=
| TelemetryNew (deviceId : string) (data : Telemetry.api_response)
| DeviceUpdate (deviceId : string) (lastSeen : Z).

Record world : Type := mkWorld {
  clock : Z;
  devices : list Device.t;
  readings : list Telemetry.t;
  emitted : list emission
}.

(** What the surroundings decide during one run of the handler: the time
    that passes before each [new Date()], and whether the two collections
    answer.  A [save] or [findOne] that fails (a validator of the schema that
    refuses the document, a lost database link) is an exception in the
    handler; a value the schema cannot cast makes [save] fail whatever the
    surroundings. *)
Record conditions : Type := mkConditions {
  lag_timestamp : N;
  lag_receivedAt : N;
  lag_lastSeen : N;
  lag_emit : N;
  telemetry_saves : bool;
  registry_answers : bool
}.

Definition with_clock (now : Z) (w : world) : world :=
  {| clock := now; devices := devices w; readings := readings w; emitted := emitted w |}.

Definition with_devices (coll : list Device.t) (w : world) : world :=
  {| clock := clock w; devices := coll; readings := readings w; emitted := emitted w |}.

(** The document [updateDevice] builds when [findOne] gave none, and the
    changes it makes to the one [findOne] gave; [None] when [firmware] cannot
    be cast. *)
Definition new_device (deviceId : string) (payload : value) (now : Z)
  : option Device.t :=
  Device.create
    {| Device.f_uid := deviceId;
       Device.f_name := String.append "Device " deviceId;
       Device.f_firmware := or_else (get payload "fw") (VString "unknown");
       Device.f_lastSeen := now;
       Device.f_isActive := true |}.

Definition device_changes (found : Device.t) (payload : value) (now : Z)
  : option Device.changes :=
  match Schema.castString
          (or_else (get payload "fw") (VString (Device.firmware found))) with
  | Some firmware =>
      Some {| Device.set_firmware :=
                Device.modified String.eqb (Device.firmware found) firmware;
              Device.set_lastSeen := Device.modified Z.eqb (Device.lastSeen found) now;
              Device.set_isActive := Device.modified Bool.eqb (Device.isActive found) true |}
  | None => None
  end.

(** What [device.save()] then asks of the database. *)
Definition device_save (found : option Device.t) (deviceId : string) (payload : value)
  (now : Z) : option Device.operation :=
  match found with
  | None => option_map Device.Insert (new_device deviceId payload now)
  | Some device =>
      option_map (Device.Update (Device.uid device)) (device_changes device payload now)
  end.

Definition updateDevice (c : conditions) (deviceId : string) (payload : value)
  (w : world) : world :=
  if registry_answers c then
    let device := Device.findOne deviceId (devices w) in
    let now := clock w + Z.of_N (lag_lastSeen c) in
    match device_save device deviceId payload now with
    | Some op => with_devices (Device.perform op (devices w)) (with_clock now w)
    | None => with_clock now w
    end
  else w.

(** [topic.split('/')] *)
Fixpoint split (sep : ascii) (s : string) : list string :=
  match s with
  | EmptyString => [EmptyString]
  | String c r =>
      if Ascii.eqb c sep then EmptyString :: split sep r
      else
        match split sep r with
        | h :: t => String c h :: t
        | [] => [String c EmptyString]
        end
  end.

Definition part (i : nat) (parts : list string) : string := nth i parts "".

(** The object [handleMessage] builds for [new Telemetry(...)]. *)
Definition telemetryData (deviceId : string) (payload : value)
  (decodedData : sensor_data) (timestamp receivedAt : Z) (message : string)
  : Telemetry.fields :=
  {| Telemetry.f_deviceId := deviceId;
     Telemetry.f_uid := or_else (get payload "uid") (VString deviceId);
     Telemetry.f_firmware := or_else (get payload "fw") (VString "unknown");
     Telemetry.f_tts := or_else (get payload "tts") (VNumber pos_zero);
     Telemetry.f_data := decodedData;
     Telemetry.f_timestamp := timestamp;
     Telemetry.f_receivedAt := receivedAt;
     Telemetry.f_rawPayload := message |}.

Section Handler.

(** [JSON.parse], [None] standing for its SyntaxError. *)
Variable JSON_parse : string -> option value.

(** [handleMessage(topic, message)] run from its first line to its last with
    nothing else happening meanwhile; [io] tells whether a socket server was
    handed to [start]. *)
Definition handleMessage (io : bool) (c : conditions) (topic message : string)
  (w : world) : world :=
  let topicParts := split "/" topic in
  if negb (Nat.eqb (List.length topicParts) 4)
     || negb (String.eqb (part 1 topicParts) "application")
     || negb (String.eqb (part 2 topicParts) "out")
  then w
  else
    let deviceId := part 3 topicParts in
    match JSON_parse message with
    | None => w
    | Some payload =>
        if negb (validatePayload payload) then w
        else
          match decodeLittleEndianData (get payload "data") with
          | Throw _ => w
          | Normal decodedData =>
              let t1 := clock w + Z.of_N (lag_timestamp c) in
              let t2 := t1 + Z.of_N (lag_receivedAt c) in
              match Telemetry.create
                      (telemetryData deviceId payload decodedData t1 t2 message) with
              | None => with_clock t2 w
              | Some telemetry =>
                  if telemetry_saves c then
                    let w1 :=
                      {| clock := t2;
                         devices := devices w;
                         readings := readings w ++ [telemetry];
                         emitted := emitted w |} in
                    let w2 := updateDevice c deviceId payload w1 in
                    if io then
                      let t3 := clock w2 + Z.of_N (lag_emit c) in
                      {| clock := t3;
                         devices := devices w2;
                         readings := readings w2;
                         emitted :=
                           emitted w2
                           ++ [TelemetryNew deviceId (Telemetry.toAPIResponse telemetry);
                               DeviceUpdate deviceId t3] |}
                    else w2
                  else with_clock t2 w
              end
          end
    end.

(** ** Calls of the handler that overlap

    The listener that [connect()] registers calls [handleMessage] for each
    message and waits for none of these calls: a call runs to its next
    [await] and is suspended there until the database has answered, while
    the calls made for other messages go on.  The database carries out the
    operations it was asked for one at a time, in an order of its own.

    A call is, at any time, at one of these stages. *)
Inductive stage : Type :=
| Saving                                   (* at [await telemetry.save()] *)
| Saved (ok : bool)                        (* the database has answered *)
| Finding                                  (* at [await Device.findOne(...)] *)
| Found (answer : option (option Device.t)) (* [None]: [findOne] failed *)
| Storing (op : option Device.operation)   (* at [await device.save()] *)
| Stored                                   (* the database has answered *)
| Updated                                  (* [updateDevice] has returned *)
| Done.

Record call : Type := mkCall {
  call_deviceId : string;
  call_payload : value;
  call_telemetry : option Telemetry.t;
  at_stage : stage
}.

Definition moved (k : call) (s : stage) : call :=
  {| call_deviceId := call_deviceId k;
     call_payload := call_payload k;
     call_telemetry := call_telemetry k;
     at_stage := s |}.

(** A message arrives: [handleMessage] from its first line to
    [telemetry.save()].  A message it returns on is a call that is done. *)
Definition arrive (c : conditions) (topic message : string) (w : world)
  : world * call :=
  let topicParts := split "/" topic in
  let returned := (w, mkCall (part 3 topicParts) VUndefined None Done) in
  if negb (Nat.eqb (List.length topicParts) 4)
     || negb (String.eqb (part 1 topicParts) "application")
     || negb (String.eqb (part 2 topicParts) "out")
  then returned
  else
    let deviceId := part 3 topicParts in
    match JSON_parse message with
    | None => returned
    | Some payload =>
        if negb (validatePayload payload) then returned
        else
          match decodeLittleEndianData (get payload "data") with
          | Throw _ => returned
          | Normal decodedData =>
              let t1 := clock w + Z.of_N (lag_timestamp c) in
              let t2 := t1 + Z.of_N (lag_receivedAt c) in
              (with_clock t2 w,
               mkCall deviceId payload
                 (Telemetry.create
                    (telemetryData deviceId payload decodedData t1 t2 message))
                 Saving)
          end
    end.

(** The next thing that happens to a call: the database carries out the
    operation the call waits for ([Saving], [Finding], [Storing]), or the
    call goes on to its next [await] or to its end (the other stages). *)
Definition advance (io : bool) (c : conditions) (k : call) (w : world)
  : world * call :=
  match at_stage k with
  | Saving =>
      match call_telemetry k with
      | Some telemetry =>
          if telemetry_saves c then
            ({| clock := clock w;
                devices := devices w;
                readings := readings w ++ [telemetry];
                emitted := emitted w |},
             moved k (Saved true))
          else (w, moved k (Saved false))
      | None => (w, moved k (Saved false))
      end
  | Saved true => (w, moved k Finding)
  | Saved false => (w, moved k Done)
  | Finding =>
      if registry_answers c
      then (w, moved k (Found (Some (Device.findOne (call_deviceId k) (devices w)))))
      else (w, moved k (Found None))
  | Found None => (w, moved k Updated)
  | Found (Some device) =>
      let now := clock w + Z.of_N (lag_lastSeen c) in
      (with_clock now w,
       moved k (Storing (device_save device (call_deviceId k) (call_payload k) now)))
  | Storing (Some op) =>
      if registry_answers c
      then (with_devices (Device.perform op (devices w)) w, moved k Stored)
      else (w, moved k Stored)
  | Storing None => (w, moved k Stored)
  | Stored => (w, moved k Updated)
  | Updated =>
      match call_telemetry k with
      | Some telemetry =>
          if io then
            let t3 := clock w + Z.of_N (lag_emit c) in
            ({| clock := t3;
                devices := devices w;
                readings := readings w;
                emitted :=
                  emitted w
                  ++ [TelemetryNew (call_deviceId k) (Telemetry.toAPIResponse telemetry);
                      DeviceUpdate (call_deviceId k) t3] |},
             moved k Done)
          else (w, moved k Done)
      | None => (w, moved k Done)
      end
  | Done => (w, k)
  end.

(** The worker with the calls made so far, in the order of their messages. *)
Record process : Type := mkProcess {
  state : world;
  calls : list call
}.

Inductive occurrence : Type :=
| Arrives (topic message : string)
| Advances (i : nat).

Fixpoint advance_nth (io : bool) (c : conditions) (i : nat) (ks : list call)
  (w : world) : world * list call :=
  match ks, i with
  | [], _ => (w, [])
  | k :: rest, O => let (w', k') := advance io c k w in (w', k' :: rest)
  | k :: rest, S i' =>
      let (w', rest') := advance_nth io c i' rest w in (w', k :: rest')
  end.

Definition occur (io : bool) (p : process) (o : conditions * occurrence) : process :=
  match snd o with
  | Arrives topic message =>
      let (w', k) := arrive (fst o) topic message (state p) in
      {| state := w'; calls := calls p ++ [k] |}
  | Advances i =>
      let (w', ks) := advance_nth io (fst o) i (calls p) (state p) in
      {| state := w'; calls := ks |}
  end.

(** An execution: what occurs, oldest first. *)
Definition execute (io : bool) (os : list (conditions * occurrence)) (p : process)
  : process :=
  List.fold_left (occur io) os p.

(** The occurrences of one call made as call number [i] and left alone until
    it is done. *)
Definition alone (c : conditions) (topic message : string) (i : nat)
  : list (conditions * occurrence) :=
  (c, Arrives topic message) :: List.repeat (c, Advances i) 7.

End Handler.

(** ** The broker session

    [Client] is the MQTT client object the worker holds.  Of the client
    library only this is assumed: [reconnect] is emitted by a client that is
    not connected and on which [end()] was not called; [connect] is emitted
    by a client that is not connected, also when [end()] was called on it
    meanwhile (the connection it was setting up still comes up before it is
    closed); [close] is emitted when the connection goes down. *)

Module Client.

Record t : Type := mk {
  connected : bool;
  ended : bool
}.

(** [mqtt.connect(brokerUrl, options)] *)
Definition create : t := {| connected := false; ended := false |}.

(** [client.end()] *)
Definition end_ (c : t) : t := {| connected := connected c; ended := true |}.

Inductive event : Type :=
| connect
| error
| close
| reconnect
| offline.

(** Whether the client can emit [ev]. *)
Definition emits (c : t) (ev : event) : bool :=
  match ev with
  | connect => negb (connected c)
  | reconnect => negb (ended c) && negb (connected c)
  | error | close | offline => true
  end.

(** The client's own state once it has emitted [ev]. *)
Definition after (c : t) (ev : event) : t :=
  match ev with
  | connect => {| connected := true; ended := ended c |}
  | close => {| connected := false; ended := ended c |}
  | _ => c
  end.

End Client.

Record worker : Type := mkWorker {
  client : option Client.t;
  io : bool;
  isConnected : bool;
  reconnectAttempts : Z;
  maxReconnectAttempts : Z
}.

Definition constructor : worker :=
  {| client := None;
     io := false;
     isConnected := false;
     reconnectAttempts := 0;
     maxReconnectAttempts := 10 |}.

Definition connect (this : worker) : worker :=
  {| client := Some Client.create;
     io := io this;
     isConnected := isConnected this;
     reconnectAttempts := reconnectAttempts this;
     maxReconnectAttempts := maxReconnectAttempts this |}.

(** [start(socketIo)], [mqttEnabled] being [MQTT_ENABLED !== 'false']. *)
Definition start (socketIo : bool) (mqttEnabled : bool) (this : worker) : worker :=
  let this' :=
    {| client := client this;
       io := socketIo;
       isConnected := isConnected this;
       reconnectAttempts := reconnectAttempts this;
       maxReconnectAttempts := maxReconnectAttempts this |} in
  if negb mqttEnabled then this' else connect this'.

(** The handlers registered in [connect()], named after their events. *)
Definition on_connect (this : worker) : worker :=
  {| client := client this;
     io := io this;
     isConnected := true;
     reconnectAttempts := 0;
     maxReconnectAttempts := maxReconnectAttempts this |}.

Definition set_disconnected (this : worker) : worker :=
  {| client := client this;
     io := io this;
     isConnected := false;
     reconnectAttempts := reconnectAttempts this;
     maxReconnectAttempts := maxReconnectAttempts this |}.

Definition on_error (this : worker) : worker := set_disconnected this.
Definition on_close (this : worker) : worker := set_disconnected this.
Definition on_offline (this : worker) : worker := set_disconnected this.

Definition on_reconnect (this : worker) : worker :=
  let attempts := reconnectAttempts this + 1 in
  {| client :=
       if maxReconnectAttempts this <=? attempts
       then option_map Client.end_ (client this)
       else client this;
     io := io this;
     isConnected := isConnected this;
     reconnectAttempts := attempts;
     maxReconnectAttempts := maxReconnectAttempts this |}.

Definition stop (this : worker) : worker :=
  match client this with
  | Some c =>
      {| client := Some (Client.end_ c);
         io := io this;
         isConnected := false;
         reconnectAttempts := reconnectAttempts this;
         maxReconnectAttempts := maxReconnectAttempts this |}
  | None => this
  end.

Module Status.
Record t : Type := mk {
  connected : bool;
  reconnectAttempts : Z
}.
End Status.

Definition getStatus (this : worker) : Status.t :=
  {| Status.connected := isConnected this;
     Status.reconnectAttempts := reconnectAttempts this |}.

Definition handler (ev : Client.event) : worker -> worker :=
  match ev with
  | Client.connect => on_connect
  | Client.error => on_error
  | Client.close => on_close
  | Client.reconnect => on_reconnect
  | Client.offline => on_offline
  end.

(** What can happen to a started worker: its client emits an event, which
    runs the handler, or the host calls [stop()]. *)
Inductive action : Type :=
| Emit (ev : Client.event)
| Stop.

Definition with_client (c : Client.t) (this : worker) : worker :=
  {| client := Some c;
     io := io this;
     isConnected := isConnected this;
     reconnectAttempts := reconnectAttempts this;
     maxReconnectAttempts := maxReconnectAttempts this |}.

Inductive step : worker -> action -> worker -> Prop :=
| step_emit this c ev :
    client this = Some c ->
    Client.emits c ev = true ->
    step this (Emit ev) (handler ev (with_client (Client.after c ev) this))
| step_stop this :
    step this Stop (stop this).

(** Executions: the actions taken, oldest first. *)
Inductive run : worker -> list action -> worker -> Prop :=
| run_nil this : run this [] this
| run_cons this a this' l this'' :
    step this a this' -> run this' l this'' -> run this (a :: l) this''.

(** The client was told to end. *)
Definition session_ended (this : worker) : bool :=
  match client this with
  | Some c => Client.ended c
  | None => false
  end.

End MQTTWorker.

(* ================================================================== *)
(** * Device status (routes/devices.js and the client pages) *)
(* ================================================================== *)

Inductive status : Type :=
| online
| warning
| offline.

(** What [getDeviceStatus] reads of a device: [lastSeen], when the device
    carries one, and the instant of its latest reading, when it has one.
    Instants are milliseconds since the epoch. *)
Record device_view : Type := mkView {
  lastSeen : option Z;
  latestReading : option Z
}.

Module DevicesRoute.

Definition getDeviceStatus (now : Z) (device : device_view) : status :=
  match latestReading device with
  | None => offline
  | Some timestamp =>
      let lastSeen :=
        match lastSeen device with
        | Some t => t
        | None => timestamp
        end in
      let minutesAgo := div (of_int (now - lastSeen)) (of_Z (1000 * 60)) in
      if JS.lt minutesAgo (of_Z 5) then online
      else if JS.lt minutesAgo (of_Z 30) then warning
      else offline
  end.

End DevicesRoute.

Module DevicesPage.

Definition getDeviceStatus (now : Z) (device : device_view) : status :=
  match latestReading device with
  | None => offline
  | Some timestamp =>
      let lastSeen :=
        match lastSeen device with
        | Some t => t
        | None => timestamp
        end in
      let minutesAgo := div (of_int (now - lastSeen)) (of_Z (1000 * 60)) in
      if JS.lt minutesAgo (of_Z 5) then online
      else if JS.lt minutesAgo (of_Z 30) then warning
      else offline
  end.

End DevicesPage.

(* ================================================================== *)
(** * Status names and arrays, for the route and the client *)
(* ================================================================== *)

(** The names of the statuses, as the route and the pages compare and show
    them. *)
Definition status_name (s : status) : string :=
  match s with
  | online => "online"
  | warning => "warning"
  | offline => "offline"
  end.

(** The array methods the route and the client code use. *)
Module JSArray.

(** [l.findIndex(f)]: the index of the first element that passes, -1 when
    none does. *)
Fixpoint findIndex_from {A : Type} (f : A -> bool) (i : Z) (l : list A) : Z :=
  match l with
  | [] => -1
  | a :: rest => if f a then i else findIndex_from f (i + 1) rest
  end.

Definition findIndex {A : Type} (f : A -> bool) (l : list A) : Z :=
  findIndex_from f 0 l.

(** [l[i] = v] for an index within the array. *)
Fixpoint assign {A : Type} (i : nat) (v : A) (l : list A) : list A :=
  match l, i with
  | [], _ => []
  | _ :: rest, O => v :: rest
  | a :: rest, S i' => a :: assign i' v rest
  end.

(** [l.slice(start, end)]: both bounds are made integers ([NaN] being 0), a
    negative one counts from the end, and both are kept within the array;
    [None] stands for an [end] left out. *)
Definition slice {A : Type} (start : number) (end_ : option number) (l : list A)
  : list A :=
  let len := Z.of_nat (List.length l) in
  let relative (x : number) : Z :=
    match x with
    | NaN => 0
    | Infinity true => 0
    | Infinity false => len
    | _ => let r := trunc x in if r <? 0 then Z.max (len + r) 0 else Z.min r len
    end in
  let k := relative start in
  let final :=
    match end_ with
    | None => len
    | Some e => relative e
    end in
  List.firstn (Z.to_nat (Z.max (final - k) 0)) (List.skipn (Z.to_nat k) l).

End JSArray.

(* ================================================================== *)
(** * The list of devices (routes/devices.js, [GET /api/devices]) *)
(* ================================================================== *)

(** The arithmetic of numbers the handler uses. *)
Module JSNumber.

(** [-x] *)
Definition neg (x : number) : number :=
  match x with
  | NaN => NaN
  | Infinity s => Infinity (negb s)
  | Zero s => Zero (negb s)
  | Finite s m e => Finite (negb s) m e
  end.

(** A finite number as a fraction with its sign. *)
Definition signed (x : number) : Z * Z :=
  let (n, d) := magnitude x in ((if is_negative x then - n else n), d).

(** [x + y]: the double nearest to the exact sum, which is [+0] when the sum
    of two non-zero numbers is zero. *)
Definition add (x y : number) : number :=
  match x, y with
  | NaN, _ | _, NaN => NaN
  | Infinity a, Infinity b => if Bool.eqb a b then Infinity a else NaN
  | Infinity a, _ => Infinity a
  | _, Infinity b => Infinity b
  | Zero a, Zero b => Zero (a && b)
  | Zero _, _ => y
  | _, Zero _ => x
  | Finite _ _ _, Finite _ _ _ =>
      let (nx, dx) := signed x in
      let (ny, dy) := signed y in
      let n := nx * dy + ny * dx in
      if n =? 0 then Zero false else fl64 (n <? 0) (Z.abs n) (dx * dy)
  end.

(** [x - y] *)
Definition sub (x y : number) : number := add x (neg y).

(** [x * y] *)
Definition mul (x y : number) : number :=
  match x, y with
  | NaN, _ | _, NaN => NaN
  | Infinity _, Zero _ | Zero _, Infinity _ => NaN
  | Infinity a, Infinity b | Infinity a, Finite b _ _ | Finite a _ _, Infinity b =>
      Infinity (xorb a b)
  | Zero a, Zero b | Zero a, Finite b _ _ | Finite a _ _, Zero b => Zero (xorb a b)
  | Finite a _ _, Finite b _ _ =>
      let (nx, dx) := magnitude x in
      let (ny, dy) := magnitude y in
      fl64 (xorb a b) (nx * ny) (dx * dy)
  end.

(** [Math.ceil(x)] *)
Definition ceil (x : number) : number :=
  match x with
  | Finite s m e =>
      if 0 <=? e then x
      else
        let q := Z.pos m / 2 ^ (- e) in
        if Z.pos m mod 2 ^ (- e) =? 0 then dyadic s q 0
        else if s then dyadic true q 0
        else dyadic false (q + 1) 0
  | _ => x
  end.

(** [parseInt(s)] with no radix: white space, a sign, then hexadecimal
    digits after [0x] or [0X] and decimal digits otherwise, as many as
    there are; NaN when there is none. *)
Definition parseInt (s : string) : number :=
  let (neg, s1) := take_sign (skip_ws s) in
  let '(v, n, _) :=
    match s1 with
    | String "0"%char (String "x"%char r) | String "0"%char (String "X"%char r) =>
        digits hex_digit 16 0 0 r
    | _ => digits decimal_digit 10 0 0 s1
    end in
  if n =? 0 then NaN else fl64 neg v 1.

End JSNumber.

Module DevicesList.

Import JSNumber.

(** A device as the handler lists it: its document and the API response of
    its latest reading, when it has one. *)
Record listed : Type := mkListed {
  doc : Device.t;
  reading : option Telemetry.api_response
}.

(** What [getDeviceStatus] reads of it; a document always has [lastSeen]. *)
Definition view_of (device : listed) : device_view :=
  {| lastSeen := Some (Device.lastSeen (doc device));
     latestReading := option_map Telemetry.r_timestamp (reading device) |}.

(** [devicesWithTelemetry.filter(device => getDeviceStatus(device) === status)];
    the call of [getDeviceStatus] for the element of index [i] reads the
    clock at [now_at i]. *)
Fixpoint filter_status (status : string) (now_at : nat -> Z) (i : nat)
  (devices : list listed) : list listed :=
  match devices with
  | [] => []
  | device :: rest =>
      let deviceStatus :=
        status_name (DevicesRoute.getDeviceStatus (now_at i) (view_of device)) in
      if String.eqb deviceStatus status
      then device :: filter_status status now_at (S i) rest
      else filter_status status now_at (S i) rest
  end.

Record pagination : Type := mkPagination {
  current : number;
  pages : number;
  total : number;
  limit : number
}.

(** The pagination of the filtered devices.  [page] and [limit] are the
    parameters of the query, strings when given; left out they are the
    numbers 1 and 50, whose texts are [1] and [50]. *)
Definition paginate {A : Type} (page limit : option string) (filteredDevices : list A)
  : list A * pagination :=
  let page_number := match page with Some s => StringToNumber s | None => of_Z 1 end in
  let page_text := match page with Some s => s | None => "1" end in
  let limit_number := match limit with Some s => StringToNumber s | None => of_Z 50 end in
  let limit_text := match limit with Some s => s | None => "50" end in
  let total := of_int (Z.of_nat (List.length filteredDevices)) in
  let totalPages := ceil (div total limit_number) in
  let startIndex := mul (sub page_number (of_Z 1)) limit_number in
  let endIndex := add startIndex (parseInt limit_text) in
  let paginatedDevices := JSArray.slice startIndex (Some endIndex) filteredDevices in
  (paginatedDevices,
   {| current := parseInt page_text;
      pages := totalPages;
      total := total;
      limit := parseInt limit_text |}).

(** The handler from the devices with their latest readings on: the filter
    on [status], when one other than [all] is asked for, then the
    pagination. *)
Definition respond (page limit status : option string) (now_at : nat -> Z)
  (devicesWithTelemetry : list listed) : list listed * pagination :=
  let filteredDevices :=
    match status with
    | Some s =>
        if negb (is_empty s) && negb (String.eqb s "all")
        then filter_status s now_at 0 devicesWithTelemetry
        else devicesWithTelemetry
    | None => devicesWithTelemetry
    end in
  paginate page limit filteredDevices.

(** A number as [res.json] writes it and the client reads it back: one
    that is not finite becomes [null], and zero loses its sign. *)
Definition json_number (x : number) : value :=
  match x with
  | NaN | Infinity _ => VNull
  | _ => VNumber (read_back x)
  end.

(** The body of the answer, as the client parses it; [devices] are the
    devices of the page, serialised. *)
Definition body (devices : list value) (p : pagination) : value :=
  VObject
    [("success", VBool true);
     ("data",
      VObject
        [("devices", VArray devices);
         ("pagination",
          VObject [("current", json_number (current p));
                   ("pages", json_number (pages p));
                   ("total", json_number (total p));
                   ("limit", json_number (limit p))])])].

End DevicesList.

(** ** The devices page and the list it fetches (pages/DevicesPage.js) *)

Module DevicesPageFetch.

(** The [pagination] state of the page. *)
Record pagination : Type := mkPagination {
  page : value;
  limit : value;
  total : value;
  totalPages : value
}.

(** [useState({ page: 1, limit: 10, total: 0, totalPages: 0 })] *)
Definition initial : pagination :=
  {| page := VNumber (of_Z 1);
     limit := VNumber (of_Z 10);
     total := VNumber (of_Z 0);
     totalPages := VNumber (of_Z 0) |}.

(** What [fetchDevices] makes of the pagination once [response], the body
    of the answer, is there. *)
Definition fetchDevices (response : value) (prev : pagination) : pagination :=
  if truthy (get response "success") then
    {| page := page prev;
       limit := limit prev;
       total := get (get response "data") "total";
       totalPages := get (get response "data") "totalPages" |}
  else prev.

(** [pagination.totalPages > 1], the condition under which the page shows
    its bar of page buttons. *)
Definition shows_page_buttons (p : pagination) : completion bool :=
  n <- ToNumber (totalPages p) ;;
  Normal (gt n (of_Z 1)).

End DevicesPageFetch.

(* ================================================================== *)
(** * The client's live updates (contexts/SocketContext.js) *)
(* ================================================================== *)

Module SocketContext.

(** An entry of [deviceUpdates]: what the server sent with [device:update]
    and the instant it arrived. *)
Record device_update : Type := mkDeviceUpdate {
  du_deviceId : string;
  du_lastSeen : option Z;
  du_timestamp : Z
}.

(** An entry of [telemetryUpdates]: what the server sent with
    [telemetry:new] and the instant it arrived. *)
Record telemetry_update : Type := mkTelemetryUpdate {
  tu_deviceId : string;
  tu_data : Telemetry.api_response;
  tu_timestamp : Z
}.

Record state : Type := mkState {
  deviceUpdates : list device_update;
  telemetryUpdates : list telemetry_update
}.

(** [useState([])], twice *)
Definition initial : state := {| deviceUpdates := []; telemetryUpdates := [] |}.

(** The handler of [device:update]; [now] is its [new Date()]. *)
Definition on_device_update (deviceId : string) (lastSeen : option Z) (now : Z)
  (prev : list device_update) : list device_update :=
  let entry :=
    {| du_deviceId := deviceId; du_lastSeen := lastSeen; du_timestamp := now |} in
  let existingIndex :=
    JSArray.findIndex (fun update => String.eqb (du_deviceId update) deviceId) prev in
  let updated :=
    if 0 <=? existingIndex then JSArray.assign (Z.to_nat existingIndex) entry prev
    else (prev ++ [entry])%list in
  JSArray.slice (of_Z (-50)) None updated.

(** The handler of [telemetry:new]. *)
Definition on_telemetry_new (deviceId : string) (data : Telemetry.api_response)
  (now : Z) (prev : list telemetry_update) : list telemetry_update :=
  let updated :=
    {| tu_deviceId := deviceId; tu_data := data; tu_timestamp := now |} :: prev in
  JSArray.slice (of_Z 0) (Some (of_Z 100)) updated.

(** An event of the worker arriving at instant [now]. *)
Definition receive (ev : MQTTWorker.emission) (now : Z) (st : state) : state :=
  match ev with
  | MQTTWorker.TelemetryNew deviceId data =>
      {| deviceUpdates := deviceUpdates st;
         telemetryUpdates := on_telemetry_new deviceId data now (telemetryUpdates st) |}
  | MQTTWorker.DeviceUpdate deviceId lastSeen =>
      {| deviceUpdates := on_device_update deviceId (Some lastSeen) now (deviceUpdates st);
         telemetryUpdates := telemetryUpdates st |}
  end.

(** Events arriving one after the other, each with its instant. *)
Fixpoint receive_all (evs : list (MQTTWorker.emission * Z)) (st : state) : state :=
  match evs with
  | [] => st
  | (ev, now) :: rest => receive_all rest (receive ev now st)
  end.

Definition clearUpdates (st : state) : state := initial.

Definition getLatestTelemetryForDevice (st : state) (deviceId : string)
  : option telemetry_update :=
  List.find (fun update => String.eqb (tu_deviceId update) deviceId)
            (telemetryUpdates st).

Definition getDeviceStatus (now : Z) (st : state) (deviceId : string) : string :=
  match List.find (fun update => String.eqb (du_deviceId update) deviceId)
                  (deviceUpdates st) with
  | None => "unknown"
  | Some deviceUpdate =>
      let seen :=
        match du_lastSeen deviceUpdate with
        | Some t => t
        | None => du_timestamp deviceUpdate
        end in
      let timeDiff := of_int (now - seen) in
      let minutesAgo := div timeDiff (of_Z (1000 * 60)) in
      if JS.lt minutesAgo (of_Z 5) then "online"
      else if JS.lt minutesAgo (of_Z 30) then "warning"
      else "offline"
  end.

End SocketContext.

(** ** The devices page and the live updates (pages/DevicesPage.js) *)

Module DevicesPageEffects.

(** A device as the page holds it: its [uid], and what [getDeviceStatus]
    reads of it. *)
Record device : Type := mkDevice {
  uid : string;
  view : device_view
}.

(** The effect run when [telemetryUpdates] changes. *)
Definition on_telemetryUpdates (telemetryUpdates : list SocketContext.telemetry_update)
  (prevDevices : list device) : list device :=
  if 0 <? Z.of_nat (List.length telemetryUpdates) then
    match List.nth_error telemetryUpdates (List.length telemetryUpdates - 1) with
    | Some latestUpdate =>
        List.map
          (fun device =>
             if String.eqb (uid device) (SocketContext.tu_deviceId latestUpdate) then
               {| uid := uid device;
                  view := {| lastSeen := Some (SocketContext.tu_timestamp latestUpdate);
                             latestReading :=
                               Some (SocketContext.tu_timestamp latestUpdate) |} |}
             else device)
          prevDevices
    | None => prevDevices
    end
  else prevDevices.

(** The effect run when [deviceUpdates] changes; an entry always has its
    [timestamp], which is what [lastSeen] becomes. *)
Definition on_deviceUpdates (deviceUpdates : list SocketContext.device_update)
  (prevDevices : list device) : list device :=
  if 0 <? Z.of_nat (List.length deviceUpdates) then
    match List.nth_error deviceUpdates (List.length deviceUpdates - 1) with
    | Some latestUpdate =>
        List.map
          (fun device =>
             if String.eqb (uid device) (SocketContext.du_deviceId latestUpdate) then
               {| uid := uid device;
                  view := {| lastSeen := Some (SocketContext.du_timestamp latestUpdate);
                             latestReading := latestReading (view device) |} |}
             else device)
          prevDevices
    | None => prevDevices
    end
  else prevDevices.

End DevicesPageEffects.

(* ================================================================== *)
(** * Notions used in the statements *)
(* ================================================================== *)


(** The status the thresholds assign to an age in milliseconds, [None]
    standing for a device without any reading: online below 5 minutes,
    warning from 5 minutes on and below 30, offline from 30 minutes on. *)
Definition status_of_age (age : option Z) : status :=
  match age with
  | None => offline
  | Some ms =>
      if ms <? 5 * 60 * 1000 then online
      else if ms <? 30 * 60 * 1000 then warning
      else offline
  end.

(** The age [getDeviceStatus] goes by: that of [lastSeen], or of the latest
    reading for a device without [lastSeen]; none without a reading. *)
Definition age_of (now : Z) (device : device_view) : option Z :=
  match latestReading device with
  | None => None
  | Some timestamp =>
      Some (now - match lastSeen device with Some t => t | None => timestamp end)
  end.

(** What holds of a started worker throughout: the ceiling is the
    constructor's, the counter is not negative, the flag is set only while
    the client is connected, and the ceiling is met only by an ended
    session, with the flag down. *)
Definition session_invariant (this : MQTTWorker.worker) : Prop :=
  MQTTWorker.maxReconnectAttempts this = 10
  /\ 0 <= MQTTWorker.reconnectAttempts this
  /\ exists c,
      MQTTWorker.client this = Some c
      /\ (MQTTWorker.isConnected this = true -> MQTTWorker.Client.connected c = true)
      /\ (MQTTWorker.maxReconnectAttempts this <= MQTTWorker.reconnectAttempts this ->
          MQTTWorker.Client.ended c = true /\ MQTTWorker.isConnected this = false).

(** Ten [reconnect] events in a row. *)
Definition ten_reconnects : list MQTTWorker.action :=
  List.repeat (MQTTWorker.Emit MQTTWorker.Client.reconnect) 10.

(** The worker after these, started without a socket server, and the same
    once the connection that was being set up at the tenth has come up. *)
Definition connected_after_all : MQTTWorker.worker :=
  {| MQTTWorker.client :=
       Some {| MQTTWorker.Client.connected := true; MQTTWorker.Client.ended := true |};
     MQTTWorker.io := false;
     MQTTWorker.isConnected := true;
     MQTTWorker.reconnectAttempts := 0;
     MQTTWorker.maxReconnectAttempts := 10 |}.

Definition given_up : MQTTWorker.worker :=
  {| MQTTWorker.client :=
       Some {| MQTTWorker.Client.connected := false; MQTTWorker.Client.ended := true |};
     MQTTWorker.io := false;
     MQTTWorker.isConnected := false;
     MQTTWorker.reconnectAttempts := 10;
     MQTTWorker.maxReconnectAttempts := 10 |}.

(** A topic of the subscribed form: four segments between slashes, the
    second [application], the third [out]. *)
Definition expected_topic (topic : string) : Prop :=
  exists first deviceId,
    MQTTWorker.split "/" topic = [first; "application"; "out"; deviceId].

(** The device identifier, the fourth segment of the topic. *)
Definition deviceId_of (topic : string) : string :=
  MQTTWorker.part 3 (MQTTWorker.split "/" topic).

(** A body of the required shape: an object whose [data] is an object
    holding [temp], [hum] and [pm2.5]. *)
Definition expected_payload (payload : value) : Prop :=
  exists props fields t h p,
    payload = VObject props
    /\ lookup "data" props = Some (VObject fields)
    /\ (lookup "temp" fields = Some t /\ t <> VUndefined)
    /\ (lookup "hum" fields = Some h /\ h <> VUndefined)
    /\ (lookup "pm2.5" fields = Some p /\ p <> VUndefined).

(** The schema can cast what the handler makes of a payload: its [uid] and
    [fw] (or their defaults) to strings, its [tts] and the decoded fields to
    numbers. *)
Definition schema_casts (deviceId : string) (payload : value) (data : sensor_data)
  : Prop :=
  Telemetry.create (MQTTWorker.telemetryData deviceId payload data 0 0 EmptyString)
  <> None.

(** A message the handler accepts: expected topic, a body that parses to
    [payload], of the required shape, decoded to [data], which the schema can
    cast, and a telemetry collection that takes the reading. *)
Definition accepted (JSON_parse : string -> option value)
  (c : MQTTWorker.conditions) (topic message : string)
  (payload : value) (data : sensor_data) : Prop :=
  expected_topic topic
  /\ JSON_parse message = Some payload
  /\ expected_payload payload
  /\ MQTTWorker.decodeLittleEndianData (get payload "data") = Normal data
  /\ schema_casts (deviceId_of topic) payload data
  /\ MQTTWorker.telemetry_saves c = true.



(** The registry is in order at instant [now]: no two devices share a
    [uid], and no device was seen later than [now]. *)
Definition registry_ok (now : Z) (coll : list Device.t) : Prop :=
  NoDup (List.map Device.uid coll)
  /\ Forall (fun d => Device.lastSeen d <= now) coll.

Definition world_ok (w : MQTTWorker.world) : Prop :=
  registry_ok (MQTTWorker.clock w) (MQTTWorker.devices w).

(** An operation on the registry that sets no [lastSeen] later than [now],
    and a call that waits for none but such a one. *)
Definition operation_by (now : Z) (op : Device.operation) : Prop :=
  match op with
  | Device.Insert d => Device.lastSeen d <= now
  | Device.Update _ ch =>
      match Device.set_lastSeen ch with
      | Some t => t <= now
      | None => True
      end
  end.

Definition pending_by (now : Z) (k : MQTTWorker.call) : Prop :=
  match MQTTWorker.at_stage k with
  | MQTTWorker.Storing (Some op) => operation_by now op
  | _ => True
  end.

(** A device identifier that is not empty and has no white space at either
    end. *)
Definition plain (id : string) : Prop :=
  id <> EmptyString /\ skip_ws id = id /\ trimEnd id = id.

(** The integer a string of hexadecimal digits denotes, read positionally. *)
Definition hex_digit_value (c : ascii) : Z :=
  match hex_digit c with
  | Some d => d
  | None => 0
  end.

Fixpoint hex_value (s : string) : Z :=
  match s with
  | EmptyString => 0
  | String c r => hex_digit_value c * 16 ^ Z.of_nat (String.length r) + hex_value r
  end.

(** The four bytes of a 32-bit pattern, least significant first. *)
Definition le_bytes (w : Z) : list byte :=
  [byte_of_Z w; byte_of_Z (w / 2 ^ 8); byte_of_Z (w / 2 ^ 16); byte_of_Z (w / 2 ^ 24)].

(** Bytes as an array of numbers. *)
Definition byte_array (bs : list byte) : value :=
  VArray (List.map (fun b => VNumber (of_Z (code b))) bs).

(** The double 25.125, the reading of the JSON number [25.125]. *)
Definition n25_125 : number := Finite false 201 (-3).

(** A [data] object whose [hum] is a string of nine hexadecimal digits. *)
Definition oversize_hum_data : value :=
  VObject [("temp", VNumber n25_125);
           ("hum", VString "123456789");
           ("pm2.5", VNumber (of_Z 1))].

(** A [data] object whose [hum] is an object with a [toString] entry, as
    the body [{ temp: '123456789', hum: { toString: 1 }, 'pm2.5': 1 }]
    parses. *)
Definition shadowed_hum_data : value :=
  VObject [("temp", VString "123456789");
           ("hum", VObject [("toString", VNumber (of_Z 1))]);
           ("pm2.5", VNumber (of_Z 1))].

(** A string in none of the encodings the decoder knows: no [0x] prefix,
    not made of hexadecimal digits, no decimal number at its head. *)
Definition unrecognised_string (s : string) : Prop :=
  startsWith s "0x" = false /\ hex_pattern s = false /\ parseFloat_string s = NaN.

Inductive unrecognised : value -> Prop :=
| unrecognised_null : unrecognised VNull
| unrecognised_bool b : unrecognised (VBool b)
| unrecognised_object props : unrecognised (VObject props)
| unrecognised_text s : unrecognised_string s -> unrecognised (VString s).

Definition all_zero : sensor_data :=
  {| temperature := pos_zero; humidity := pos_zero; pm25 := pos_zero |}.

(** A [data] object whose [temp] is a string of hexadecimal letters, beside
    a null and a boolean. *)
Definition hex_letters_data : value :=
  VObject [("temp", VString "deadbeef"); ("hum", VNull); ("pm2.5", VBool true)].

(** [p/(q·2^e)] as the fraction [fl64] rounds, and the exponent it picks
    before clamping. *)
Definition scaled (p q e : Z) : Z * Z :=
  if 0 <=? e then (p, q * 2 ^ e) else (p * 2 ^ (- e), q).

Definition exponent (p q : Z) : Z :=
  let e0 := Z.log2 p - Z.log2 q - prec64 in
  let (n, d) := scaled p q e0 in
  if 2 ^ prec64 <=? n / d then e0 + 1 else e0.

(** Numbers equal up to the sign of zero, as [===] and the JSON output see
    them (NaN being taken as equal to itself). *)
Definition same_number (x y : number) : Prop := read_back x = read_back y.

(** A string of decimal digits, and the integer it denotes on top of [acc]. *)
Fixpoint all_dec (s : string) : bool :=
  match s with
  | EmptyString => true
  | String c r =>
      match decimal_digit c with
      | Some _ => all_dec r
      | None => false
      end
  end.

Fixpoint dec_fold (acc : Z) (s : string) : Z :=
  match s with
  | EmptyString => acc
  | String c r =>
      match decimal_digit c with
      | Some d => dec_fold (acc * 10 + d) r
      | None => acc
      end
  end.

(** ** A sample run *)

(** A body as device [dev1] may send it: [temp] as a hexadecimal string,
    [hum] as a number (45.5), [pm2.5] as four bytes. *)
Definition sample_fields : value :=
  VObject [("temp", VString "41200000");
           ("hum", VNumber (Finite false 91 (-1)));
           ("pm2.5", VArray [VNumber (of_Z 0); VNumber (of_Z 0);
                             VNumber (of_Z 32); VNumber (of_Z 65)])].

Definition sample_payload : value :=
  VObject [("uid", VString "sensor-7"); ("fw", VString "1.2.0");
           ("data", sample_fields)].

(** The same body with a number for [uid]. *)
Definition numeric_uid_payload : value :=
  VObject [("uid", VNumber (of_Z 5)); ("data", sample_fields)].

(** The same body without [uid] and [fw]. *)
Definition anonymous_payload : value := VObject [("data", sample_fields)].

(** A body that lacks [hum]. *)
Definition partial_payload : value :=
  VObject [("data", VObject [("temp", VString "41200000");
                             ("pm2.5", VNumber (of_Z 3))])].

Definition sample_data : sensor_data :=
  {| temperature := of_Z 10; humidity := Finite false 91 (-1); pm25 := of_Z 10 |}.

Definition sample_topic : string := "/application/out/dev1".

Definition calm : MQTTWorker.conditions :=
  {| MQTTWorker.lag_timestamp := 2;
     MQTTWorker.lag_receivedAt := 0;
     MQTTWorker.lag_lastSeen := 5;
     MQTTWorker.lag_emit := 1;
     MQTTWorker.telemetry_saves := true;
     MQTTWorker.registry_answers := true |}.

Definition empty_world : MQTTWorker.world :=
  {| MQTTWorker.clock := 1000;
     MQTTWorker.devices := [];
     MQTTWorker.readings := [];
     MQTTWorker.emitted := [] |}.

(** Parsers that answer one payload, or a syntax error, whatever the text. *)
Definition parses_to (payload : value) : string -> option value :=
  fun _ => Some payload.

Definition parse_fails : string -> option value := fun _ => None.

(** The worker before any message. *)
Definition idle (w : MQTTWorker.world) : MQTTWorker.process :=
  {| MQTTWorker.state := w; MQTTWorker.calls := [] |}.

(** The world once the sample body was handled. *)
Definition seen_once : MQTTWorker.world :=
  MQTTWorker.handleMessage (parses_to sample_payload) true calm sample_topic
    "(the text of the sample body)" empty_world.

(** Two messages of device [dev1] arrive; the call for the first goes on to
    its [device.save()], then the call for the second does, and the database
    carries out what the second asked. *)
Definition two_calls_overlapping : list (MQTTWorker.conditions * MQTTWorker.occurrence) :=
  ([(calm, MQTTWorker.Arrives sample_topic "(first)");
    (calm, MQTTWorker.Arrives sample_topic "(second)")]
   ++ List.repeat (calm, MQTTWorker.Advances 0) 4
   ++ List.repeat (calm, MQTTWorker.Advances 1) 5)%list.

(** A reading is stored for the [uid]: one whose device identifier,
    trimmed, is that [uid]. *)
Definition reading_known (uid : string) (rs : list Telemetry.t) : Prop :=
  In uid (List.map (fun r => trim (Telemetry.deviceId r)) rs).

(** The two stamps of a reading lie between two instants, in order. *)
Definition stamped_between (from now : Z) (r : Telemetry.t) : Prop :=
  from <= Telemetry.timestamp r
  /\ Telemetry.timestamp r <= Telemetry.receivedAt r
  /\ Telemetry.receivedAt r <= now.

(** Two messages arrive, and the database takes the reading of the second
    before that of the first. *)
Definition saved_out_of_order : list (MQTTWorker.conditions * MQTTWorker.occurrence) :=
  [(calm, MQTTWorker.Arrives sample_topic "(first)");
   (calm, MQTTWorker.Arrives sample_topic "(second)");
   (calm, MQTTWorker.Advances 1);
   (calm, MQTTWorker.Advances 0)].

(** One call advanced [n] times in a row. *)
Fixpoint advance_times (io : bool) (n : nat) (c : MQTTWorker.conditions)
  (k : MQTTWorker.call) (w : MQTTWorker.world) : MQTTWorker.world * MQTTWorker.call :=
  match n with
  | O => (w, k)
  | S n' =>
      let (w', k') := MQTTWorker.advance io c k w in advance_times io n' c k' w'
  end.

(** A property [P] of the stores and a property [Q] of the calls under way
    hold of a worker. *)
Definition kept (P : MQTTWorker.world -> Prop)
  (Q : MQTTWorker.world -> MQTTWorker.call -> Prop) (p : MQTTWorker.process) : Prop :=
  P (MQTTWorker.state p) /\ Forall (Q (MQTTWorker.state p)) (MQTTWorker.calls p).

(** Since the stores were [w0], time has not gone back and readings were
    only added, each stamped since then. *)
Definition added_since (w0 w : MQTTWorker.world) : Prop :=
  MQTTWorker.clock w0 <= MQTTWorker.clock w
  /\ exists added,
       MQTTWorker.readings w = (MQTTWorker.readings w0 ++ added)%list
       /\ Forall (stamped_between (MQTTWorker.clock w0) (MQTTWorker.clock w)) added.

(** The reading a call has built, if any, is stamped since then. *)
Definition call_stamped (w0 w : MQTTWorker.world) (k : MQTTWorker.call) : Prop :=
  forall t, MQTTWorker.call_telemetry k = Some t ->
    stamped_between (MQTTWorker.clock w0) (MQTTWorker.clock w) t.

(** Every device of the registry has a stored reading. *)
Definition devices_have_readings (w : MQTTWorker.world) : Prop :=
  Forall (fun d => reading_known (Device.uid d) (MQTTWorker.readings w))
         (MQTTWorker.devices w).

(** A call has its reading stored from [telemetry.save()] on, and the
    document it may ask the registry to add has its identifier, trimmed, as
    [uid]. *)
Definition call_covered (w : MQTTWorker.world) (k : MQTTWorker.call) : Prop :=
  (forall t, MQTTWorker.call_telemetry k = Some t ->
             Telemetry.deviceId t = MQTTWorker.call_deviceId k)
  /\ match MQTTWorker.at_stage k with
     | MQTTWorker.Saving | MQTTWorker.Saved false | MQTTWorker.Done => True
     | MQTTWorker.Storing (Some (Device.Insert d)) =>
         reading_known (trim (MQTTWorker.call_deviceId k)) (MQTTWorker.readings w)
         /\ Device.uid d = trim (MQTTWorker.call_deviceId k)
     | _ => reading_known (trim (MQTTWorker.call_deviceId k)) (MQTTWorker.readings w)
     end.

(** What holds besides of a started worker: the attempts counted stay
    between 0 and the ceiling, and none is counted while the client is
    connected. *)
Definition attempts_invariant (this : MQTTWorker.worker) : Prop :=
  0 <= MQTTWorker.reconnectAttempts this <= 10
  /\ forall c, MQTTWorker.client this = Some c ->
               MQTTWorker.Client.connected c = true ->
               MQTTWorker.reconnectAttempts this = 0.

(** A string that does not go on with a hexadecimal digit. *)
Definition no_hex_head (s : string) : bool :=
  match s with
  | EmptyString => true
  | String c _ =>
      match hex_digit c with
      | Some _ => false
      | None => true
      end
  end.

(** A number that is not finite. *)
Definition not_finite (x : number) : Prop :=
  x = NaN \/ exists neg, x = Infinity neg.

(** The 32-bit pattern with the bytes [b0] (lowest) to [b3], each taken
    modulo 256. *)
Definition pattern_of_bytes (b0 b1 b2 b3 : Z) : Z :=
  b0 mod 256 + 2 ^ 8 * (b1 mod 256) + 2 ^ 16 * (b2 mod 256) + 2 ^ 24 * (b3 mod 256).

(** The string [s] is made of decimal digits, one at least, and writes the
    natural number [n] (leading zeros allowed). *)
Definition decimal_text (s : string) (n : Z) : Prop :=
  all_dec s = true /\ s <> EmptyString /\ dec_fold 0 s = n.

(** What a parameter of the query stands for: the number its digits write,
    or the default when it is left out. *)
Definition reads_as (param : option string) (default n : Z) : Prop :=
  match param with
  | Some s => decimal_text s n
  | None => n = default
  end.

Definition status_eqb (a b : status) : bool :=
  match a, b with
  | online, online | warning, warning | offline, offline => true
  | _, _ => false
  end.

(** The devices that have the status [st], each at the instant the clock
    is read for it: by the age of the [lastSeen] of its document when it has
    a reading, and [offline] when it has none. *)
Fixpoint devices_in_status (st : status) (now_at : nat -> Z) (i : nat)
  (devices : list DevicesList.listed) : list DevicesList.listed :=
  match devices with
  | [] => []
  | device :: rest =>
      let age :=
        match DevicesList.reading device with
        | Some _ => Some (now_at i - Device.lastSeen (DevicesList.doc device))
        | None => None
        end in
      if status_eqb (status_of_age age) st
      then device :: devices_in_status st now_at (S i) rest
      else devices_in_status st now_at (S i) rest
  end.

(** The [telemetry:new] events among [evs], stamped with their instants of
    arrival, oldest first. *)
Fixpoint telemetry_of (evs : list (MQTTWorker.emission * Z))
  : list SocketContext.telemetry_update :=
  match evs with
  | [] => []
  | (MQTTWorker.TelemetryNew deviceId data, now) :: rest =>
      {| SocketContext.tu_deviceId := deviceId;
         SocketContext.tu_data := data;
         SocketContext.tu_timestamp := now |} :: telemetry_of rest
  | _ :: rest => telemetry_of rest
  end.

(** What the page makes of a device when it applies a telemetry update that
    arrived at [arrival]. *)
Definition refreshed (arrival : Z) (d : DevicesPageEffects.device)
  : DevicesPageEffects.device :=
  {| DevicesPageEffects.uid := DevicesPageEffects.uid d;
     DevicesPageEffects.view :=
       {| lastSeen := Some arrival; latestReading := Some arrival |} |}.

(** The list of device updates is in order: one entry for a device, fifty
    entries at most. *)
Definition device_updates_ok (l : list SocketContext.device_update) : Prop :=
  NoDup (List.map SocketContext.du_deviceId l) /\ (List.length l <= 50)%nat.

(** The instant a device update counts from: the server's [lastSeen], or
    the arrival of the update when it has none. *)
Definition seen_at (u : SocketContext.device_update) : Z :=
  match SocketContext.du_lastSeen u with
  | Some t => t
  | None => SocketContext.du_timestamp u
  end.

(** A response of the API, to make events of. *)
Definition sample_response : Telemetry.api_response :=
  {| Telemetry.r_deviceId := "dev1";
     Telemetry.r_uid := "sensor-7";
     Telemetry.r_firmware := "1.2.0";
     Telemetry.r_tts := pos_zero;
     Telemetry.r_data := sample_data;
     Telemetry.r_timestamp := 1002;
     Telemetry.r_receivedAt := 1002 |}.

(* ================================================================== *)
(** * Properties *)
(* ================================================================== *)

(** ** The broker session *)

Section Session.
Import MQTTWorker.

Lemma started_invariant (socketIo : bool) :
  session_invariant (start socketIo true constructor).
Proof.
  split; [reflexivity|]. split; [cbn; lia|].
  exists Client.create. cbn. repeat split; try discriminate. lia.
Qed.

Lemma step_invariant (this this' : worker) (a : action) :
  session_invariant this -> step this a this' -> session_invariant this'.
Proof.
  intros [Hmax [Hpos [c [Hc [Hup Hceil]]]]] Hstep.
  destruct Hstep as [this c' ev Hc' Hemit | this].
  - rewrite Hc in Hc'. injection Hc' as <-.
    destruct c as [conn fin].
    destruct ev; cbn in *.
    + (* connect *)
      split; [assumption|]. split; [cbn; lia|]. eexists. split; [reflexivity|]. cbn.
      split; [reflexivity|]. lia.
    + (* error *)
      split; [assumption|]. split; [assumption|]. eexists. split; [reflexivity|]. cbn.
      split; [discriminate|]. intros H. split; [apply Hceil, H|reflexivity].
    + (* close *)
      split; [assumption|]. split; [assumption|]. eexists. split; [reflexivity|]. cbn.
      split; [discriminate|]. intros H. split; [apply Hceil, H|reflexivity].
    + (* reconnect *)
      apply andb_prop in Hemit as [Hfin Hconn].
      apply negb_true_iff in Hfin. apply negb_true_iff in Hconn. subst fin conn.
      split; [assumption|]. split; [cbn; lia|].
      assert (Hflag : isConnected this = false).
      { destruct (isConnected this); [specialize (Hup eq_refl); discriminate|reflexivity]. }
      unfold on_reconnect, with_client. cbn.
      destruct (Z.leb_spec (maxReconnectAttempts this) (reconnectAttempts this + 1)).
      * eexists. split; [reflexivity|]. cbn. split; [assumption|]. auto.
      * eexists. split; [reflexivity|]. cbn. split; [assumption|]. intros. lia.
    + (* offline *)
      split; [assumption|]. split; [assumption|]. eexists. split; [reflexivity|]. cbn.
      split; [discriminate|]. intros H. split; [apply Hceil, H|reflexivity].
  - unfold stop. rewrite Hc. split; [assumption|]. split; [assumption|].
    eexists. split; [reflexivity|]. cbn. split; [discriminate|]. auto.
Qed.

Lemma run_invariant (this this' : worker) (l : list action) :
  session_invariant this -> run this l this' -> session_invariant this'.
Proof.
  intros Hinv Hrun. induction Hrun as [|this a mid l this' Hstep _ IH]; [assumption|].
  apply IH. exact (step_invariant _ _ _ Hinv Hstep).
Qed.

(** The [reconnect] event at which the ceiling is met: the handler ends the
    session, and the worker is not connected. *)
Lemma step_gives_up (this this' : worker) :
  session_invariant this ->
  step this (Emit Client.reconnect) this' ->
  maxReconnectAttempts this' <= reconnectAttempts this' ->
  session_ended this' = true /\ Status.connected (getStatus this') = false.
Proof.
  intros [_ [_ [c [Hc [Hup _]]]]] Hstep Hceil.
  inversion Hstep as [this0 c' ev Hc' Hemit | ]; subst.
  rewrite Hc in Hc'. injection Hc' as <-.
  destruct c as [conn fin]. cbn in Hemit.
  apply andb_prop in Hemit as [_ Hconn]. apply negb_true_iff in Hconn. subst conn.
  unfold on_reconnect, with_client, session_ended in *. cbn in *.
  destruct (Z.leb_spec (maxReconnectAttempts this) (reconnectAttempts this + 1)); [|lia].
  split; [reflexivity|].
  destruct (isConnected this); [specialize (Hup eq_refl); discriminate|reflexivity].
Qed.

(** From an ended session on: no [reconnect] event, the session stays ended
    and the counter does not grow. *)
Lemma step_after_end (this this' : worker) (a : action) :
  session_invariant this -> session_ended this = true -> step this a this' ->
  a <> Emit Client.reconnect
  /\ session_ended this' = true
  /\ reconnectAttempts this' <= reconnectAttempts this.
Proof.
  intros [_ [Hpos [c [Hc _]]]] Hfin Hstep.
  unfold session_ended in Hfin. rewrite Hc in Hfin.
  destruct Hstep as [this c' ev Hc' Hemit | this].
  - rewrite Hc in Hc'. injection Hc' as <-.
    destruct c as [conn fin]. cbn in Hfin. subst fin.
    destruct ev; cbn in Hemit; try discriminate;
      (split; [discriminate|]); (split; [reflexivity|]); cbn; lia.
  - split; [discriminate|]. unfold stop, session_ended. rewrite Hc. cbn.
    split; [reflexivity|lia].
Qed.

Lemma step_reconnect_counts (this this' : worker) :
  step this (Emit Client.reconnect) this' ->
  reconnectAttempts this' = reconnectAttempts this + 1.
Proof.
  intros Hstep. inversion Hstep; subst. reflexivity.
Qed.

Lemma step_connect_resets (this this' : worker) :
  step this (Emit Client.connect) this' -> reconnectAttempts this' = 0.
Proof.
  intros Hstep. inversion Hstep; subst. reflexivity.
Qed.

Lemma ten_reconnects_run : run (start false true constructor) ten_reconnects given_up.
Proof.
  unfold ten_reconnects. cbn [List.repeat].
  repeat (eapply run_cons; [eapply step_emit; reflexivity|]; cbn).
  apply run_nil.
Defined.

Lemma run_app (this mid this' : worker) (l l' : list action) :
  run this l mid -> run mid l' this' -> run this (l ++ l') this'.
Proof.
  intros Hrun Hrun'. induction Hrun as [|this a next l mid Hstep _ IH]; [assumption|].
  cbn. eapply run_cons; [exact Hstep|]. apply IH, Hrun'.
Qed.

End Session.

(** C4, with the execution in which the code departs from it.  Ten
    [reconnect] events make the handler end the session; the connection that
    was being set up at the tenth then comes up, and the [connect] handler,
    which looks at nothing, sets the flag: the status query reports
    [connected = true] and no attempt, on an ended session.  The rest of the
    claim holds in every execution of a started worker: the ceiling is 10;
    every [reconnect] event adds one to the counter, and the one at which
    the counter meets the ceiling ends the session and leaves the status not
    connected, and so it is for as long as the counter stays there; from an
    ended session on no [reconnect] event occurs, the session stays ended
    and the counter does not grow; and a [connect] event sets the counter to
    zero. *)
Theorem reconnect_ceiling :
  MQTTWorker.run (MQTTWorker.start false true MQTTWorker.constructor)
    (ten_reconnects ++ [MQTTWorker.Emit MQTTWorker.Client.connect]) connected_after_all
  /\ MQTTWorker.session_ended connected_after_all = true
  /\ MQTTWorker.getStatus connected_after_all
     = {| MQTTWorker.Status.connected := true;
          MQTTWorker.Status.reconnectAttempts := 0 |}
  /\ forall (socketIo : bool) (l : list MQTTWorker.action) (this : MQTTWorker.worker),
      MQTTWorker.run (MQTTWorker.start socketIo true MQTTWorker.constructor) l this ->
      MQTTWorker.maxReconnectAttempts this = 10
      /\ (MQTTWorker.maxReconnectAttempts this <= MQTTWorker.reconnectAttempts this ->
          MQTTWorker.session_ended this = true
          /\ MQTTWorker.Status.connected (MQTTWorker.getStatus this) = false)
      /\ (forall a this',
            MQTTWorker.step this a this' ->
            (a = MQTTWorker.Emit MQTTWorker.Client.reconnect ->
             MQTTWorker.reconnectAttempts this' = MQTTWorker.reconnectAttempts this + 1
             /\ (MQTTWorker.maxReconnectAttempts this'
                 <= MQTTWorker.reconnectAttempts this' ->
                 MQTTWorker.session_ended this' = true
                 /\ MQTTWorker.Status.connected (MQTTWorker.getStatus this') = false))
            /\ (a = MQTTWorker.Emit MQTTWorker.Client.connect ->
                MQTTWorker.reconnectAttempts this' = 0)
            /\ (MQTTWorker.session_ended this = true ->
                a <> MQTTWorker.Emit MQTTWorker.Client.reconnect
                /\ MQTTWorker.session_ended this' = true
                /\ MQTTWorker.reconnectAttempts this'
                   <= MQTTWorker.reconnectAttempts this)).
Proof.
  split.
  { eapply run_app; [exact ten_reconnects_run|].
    eapply MQTTWorker.run_cons; [|apply MQTTWorker.run_nil].
    exact (MQTTWorker.step_emit given_up _ MQTTWorker.Client.connect eq_refl eq_refl). }
  split; [reflexivity|]. split; [reflexivity|].
  intros socketIo l this Hrun.
  pose proof (run_invariant _ _ _ (started_invariant socketIo) Hrun) as Hinv.
  split; [apply Hinv|]. split.
  - intros Hceil. destruct Hinv as [_ [_ [c [Hc [_ Hmet]]]]].
    unfold MQTTWorker.session_ended. rewrite Hc. exact (Hmet Hceil).
  - intros a this' Hstep. split; [|split].
    + intros ->. split; [exact (step_reconnect_counts _ _ Hstep)|].
      exact (step_gives_up _ _ Hinv Hstep).
    + intros ->. exact (step_connect_resets _ _ Hstep).
    + intros Hfin. exact (step_after_end _ _ _ Hinv Hfin Hstep).
Qed.

(** ** Topics *)






Lemma topic_guard (topic : string) :
  let topicParts := MQTTWorker.split "/" topic in
  negb (Nat.eqb (List.length topicParts) 4)
  || negb (String.eqb (MQTTWorker.part 1 topicParts) "application")
  || negb (String.eqb (MQTTWorker.part 2 topicParts) "out") = false
  <-> expected_topic topic.
Proof.
  cbv zeta. unfold expected_topic.
  destruct (MQTTWorker.split "/" topic) as [|a [|b [|c [|d [|e l]]]]] eqn:E; cbn;
    try (split; [discriminate | intros [x [y H]]; discriminate]).
  destruct (String.eqb_spec b "application") as [->|Hb]; cbn.
  - destruct (String.eqb_spec c "out") as [->|Hc]; cbn.
    + split; [eauto|reflexivity].
    + split; [discriminate|]. intros [x [y H]]. congruence.
  - split; [discriminate|]. intros [x [y H]]. congruence.
Qed.

(** ** Payload shape *)

Lemma typeof_undefined (v : value) :
  negb (type_name_eqb (typeof v) TyUndefined) = true <-> v <> VUndefined.
Proof.
  destruct v; cbn; split; try discriminate; try congruence; auto.
Qed.

Lemma get_present (fields : list (string * value)) (k : string) :
  get (VObject fields) k <> VUndefined
  <-> exists v, lookup k fields = Some v /\ v <> VUndefined.
Proof.
  cbn. destruct (lookup k fields) as [v|].
  - split; [eauto|]. intros [v' [[= <-] H]]. exact H.
  - split; [congruence|]. intros [v' [H _]]. discriminate.
Qed.

Lemma validatePayload_shape (payload : value) :
  MQTTWorker.validatePayload payload = true <-> expected_payload payload.
Proof.
  unfold MQTTWorker.validatePayload, expected_payload.
  rewrite !andb_true_iff, !typeof_undefined.
  split.
  - intros [[[[[[Ht Hty] Hd] Hdty] H1] H2] H3].
    destruct payload as [| |b|x|s|l|props|bs]; try discriminate.
    destruct (get (VObject props) "data") as [| |b|x|s|l|fields|bs] eqn:Ed;
      try discriminate; cbn in H1; try congruence.
    apply get_present in H1 as [t Ht']. apply get_present in H2 as [h Hh].
    apply get_present in H3 as [p Hp].
    exists props, fields, t, h, p. repeat split; try tauto.
    cbn in Ed. destruct (lookup "data" props); congruence.
  - intros [props [fields [t [h [p [-> [Hd [Ht [Hh Hp]]]]]]]]].
    assert (Ed : get (VObject props) "data" = VObject fields) by (cbn; rewrite Hd; reflexivity).
    rewrite Ed. repeat split; try reflexivity; apply get_present; eauto.
Qed.

(** ** The message handler *)

Section HandlerFacts.
Import MQTTWorker.
Variable JSON_parse : string -> option value.

(** What the schema makes of the fields the handler builds. *)
Lemma castNumber_number (x : number) :
  Schema.castNumber (VNumber x) = if isNaN x then None else Some x.
Proof. reflexivity. Qed.

Lemma schema_casts_create deviceId payload data :
  schema_casts deviceId payload data ->
  exists uid firmware tts,
    Schema.castString (or_else (get payload "uid") (VString deviceId)) = Some uid
    /\ Schema.castString (or_else (get payload "fw") (VString "unknown")) = Some firmware
    /\ Schema.castNumber (or_else (get payload "tts") (VNumber pos_zero)) = Some tts
    /\ forall t1 t2 message,
        Telemetry.create (telemetryData deviceId payload data t1 t2 message)
        = Some {| Telemetry.deviceId := deviceId;
                  Telemetry.uid := uid;
                  Telemetry.firmware := firmware;
                  Telemetry.tts := tts;
                  Telemetry.data := data;
                  Telemetry.timestamp := t1;
                  Telemetry.receivedAt := t2;
                  Telemetry.rawPayload := message |}.
Proof.
  unfold schema_casts, Telemetry.create, telemetryData.
  cbn [Telemetry.f_uid Telemetry.f_firmware Telemetry.f_tts Telemetry.f_data
       Telemetry.f_deviceId Telemetry.f_timestamp Telemetry.f_receivedAt
       Telemetry.f_rawPayload].
  rewrite !castNumber_number.
  destruct (Schema.castString (or_else (get payload "uid") (VString deviceId)))
    as [uid|]; [|congruence].
  destruct (Schema.castString (or_else (get payload "fw") (VString "unknown")))
    as [firmware|]; [|congruence].
  destruct (Schema.castNumber (or_else (get payload "tts") (VNumber pos_zero)))
    as [tts|]; [|congruence].
  destruct data as [t h p]. cbn [temperature humidity pm25].
  destruct (isNaN t); [congruence|]. destruct (isNaN h); [congruence|].
  destruct (isNaN p); [congruence|].
  intros _. exists uid, firmware, tts. repeat split; reflexivity.
Qed.

Lemma create_casts deviceId payload data t1 t2 message telemetry :
  Telemetry.create (telemetryData deviceId payload data t1 t2 message) = Some telemetry ->
  schema_casts deviceId payload data.
Proof.
  unfold schema_casts, Telemetry.create, telemetryData.
  cbn [Telemetry.f_uid Telemetry.f_firmware Telemetry.f_tts Telemetry.f_data].
  destruct (Schema.castString (or_else (get payload "uid") (VString deviceId)));
    [|discriminate].
  destruct (Schema.castString (or_else (get payload "fw") (VString "unknown")));
    [|discriminate].
  destruct (Schema.castNumber (or_else (get payload "tts") (VNumber pos_zero)));
    [|discriminate].
  destruct (Schema.castNumber (VNumber (temperature data))); [|discriminate].
  destruct (Schema.castNumber (VNumber (humidity data))); [|discriminate].
  destruct (Schema.castNumber (VNumber (pm25 data))); [|discriminate].
  discriminate.
Qed.

(** A document keeps the fields that need no cast. *)
Lemma create_fields (f : Telemetry.fields) (telemetry : Telemetry.t) :
  Telemetry.create f = Some telemetry ->
  Telemetry.deviceId telemetry = Telemetry.f_deviceId f
  /\ Telemetry.data telemetry = Telemetry.f_data f
  /\ Telemetry.timestamp telemetry = Telemetry.f_timestamp f
  /\ Telemetry.receivedAt telemetry = Telemetry.f_receivedAt f
  /\ Telemetry.rawPayload telemetry = Telemetry.f_rawPayload f
  /\ Schema.castString (Telemetry.f_uid f) = Some (Telemetry.uid telemetry)
  /\ Schema.castString (Telemetry.f_firmware f) = Some (Telemetry.firmware telemetry)
  /\ Schema.castNumber (Telemetry.f_tts f) = Some (Telemetry.tts telemetry).
Proof.
  unfold Telemetry.create. rewrite !castNumber_number.
  destruct (Schema.castString (Telemetry.f_uid f)); [|discriminate].
  destruct (Schema.castString (Telemetry.f_firmware f)); [|discriminate].
  destruct (Schema.castNumber (Telemetry.f_tts f)); [|discriminate].
  destruct (Telemetry.f_data f) as [t h p]. cbn [temperature humidity pm25].
  destruct (isNaN t); [discriminate|]. destruct (isNaN h); [discriminate|].
  destruct (isNaN p); [discriminate|].
  intros [= <-]. cbn. repeat split; reflexivity.
Qed.

Lemma updateDevice_readings c id payload w :
  readings (updateDevice c id payload w) = readings w.
Proof.
  unfold updateDevice. destruct (registry_answers c); [|reflexivity].
  destruct (device_save _ _ _ _); reflexivity.
Qed.

Lemma updateDevice_emitted c id payload w :
  emitted (updateDevice c id payload w) = emitted w.
Proof.
  unfold updateDevice. destruct (registry_answers c); [|reflexivity].
  destruct (device_save _ _ _ _); reflexivity.
Qed.

(** The reading built from an accepted message. *)
Lemma handleMessage_accepted io c topic message payload data w :
  accepted JSON_parse c topic message payload data ->
  let t1 := clock w + Z.of_N (lag_timestamp c) in
  let t2 := t1 + Z.of_N (lag_receivedAt c) in
  exists telemetry,
    Telemetry.create (telemetryData (deviceId_of topic) payload data t1 t2 message)
    = Some telemetry
    /\ let w1 :=
         {| clock := t2; devices := devices w;
            readings := readings w ++ [telemetry]; emitted := emitted w |} in
       let w2 := updateDevice c (deviceId_of topic) payload w1 in
       let w' := handleMessage JSON_parse io c topic message w in
       readings w' = (readings w ++ [telemetry])%list
       /\ devices w' = devices w2
       /\ emitted w'
          = (if io
             then (emitted w
                   ++ [TelemetryNew (deviceId_of topic) (Telemetry.toAPIResponse telemetry);
                       DeviceUpdate (deviceId_of topic)
                         (clock w2 + Z.of_N (lag_emit c))])%list
             else emitted w).
Proof.
  intros [Htopic [Hparse [Hshape [Hdec [Hcast Hsave]]]]]. cbv zeta.
  destruct (schema_casts_create _ _ _ Hcast) as [uid [fw [tts [_ [_ [_ Hcreate]]]]]].
  eexists. split; [apply Hcreate|].
  unfold handleMessage.
  apply topic_guard in Htopic. cbv zeta in Htopic. rewrite Htopic.
  rewrite Hparse. apply validatePayload_shape in Hshape. rewrite Hshape. cbn [negb].
  rewrite Hdec. fold (deviceId_of topic). rewrite Hcreate, Hsave.
  destruct io; cbn [readings devices emitted];
    rewrite ?updateDevice_readings, ?updateDevice_emitted; repeat split; reflexivity.
Qed.

(** Anything else leaves the collections and the emitted events as they were. *)
Lemma handleMessage_rejected io c topic message w :
  (forall payload data, ~ accepted JSON_parse c topic message payload data) ->
  let w' := handleMessage JSON_parse io c topic message w in
  readings w' = readings w /\ devices w' = devices w /\ emitted w' = emitted w.
Proof.
  intros Hno. cbv zeta. unfold handleMessage.
  pose proof (topic_guard topic) as Hg. cbv zeta in Hg.
  destruct (negb _ || _ || _) eqn:Eg; [auto|].
  destruct (JSON_parse message) as [payload|] eqn:Hparse; [|auto].
  destruct (validatePayload payload) eqn:Hshape; cbn [negb]; [|auto].
  destruct (decodeLittleEndianData (get payload "data")) as [data|e] eqn:Hdec; [|auto].
  fold (deviceId_of topic).
  destruct (Telemetry.create _) as [telemetry|] eqn:Hcreate; [|cbn; auto].
  destruct (telemetry_saves c) eqn:Hsave; [|cbn; auto].
  exfalso. apply (Hno payload data). unfold accepted.
  rewrite <- validatePayload_shape.
  split; [apply Hg; reflexivity|]. split; [exact Hparse|]. split; [exact Hshape|].
  split; [exact Hdec|].
  split; [exact (create_casts _ _ _ _ _ _ _ Hcreate)|exact Hsave].
Qed.

End HandlerFacts.

(** C6. Whatever the body, a message whose topic does not split into four
    segments with [application] second and [out] third leaves the world as it
    was: no reading stored, no device touched, nothing emitted. *)
Theorem invalid_topic_ignored (JSON_parse : string -> option value) (io : bool)
  (c : MQTTWorker.conditions) (topic message : string) (w : MQTTWorker.world) :
  ~ expected_topic topic ->
  MQTTWorker.handleMessage JSON_parse io c topic message w = w.
Proof.
  intros Hbad. unfold MQTTWorker.handleMessage.
  pose proof (topic_guard topic) as Hg. cbv zeta in Hg.
  destruct (negb _ || _ || _); [reflexivity|].
  exfalso. apply Hbad, Hg. reflexivity.
Qed.

(** C7. A message whose body does not parse, or parses to something that is
    not an object with a [data] object holding [temp], [hum] and [pm2.5],
    leaves the world as it was. *)
Theorem invalid_body_ignored (JSON_parse : string -> option value) (io : bool)
  (c : MQTTWorker.conditions) (topic message : string) (w : MQTTWorker.world) :
  (JSON_parse message = None
   \/ exists payload, JSON_parse message = Some payload /\ ~ expected_payload payload) ->
  MQTTWorker.handleMessage JSON_parse io c topic message w = w.
Proof.
  intros Hbad. unfold MQTTWorker.handleMessage.
  destruct (negb _ || _ || _); [reflexivity|].
  destruct Hbad as [-> | [payload [-> Hshape]]]; [reflexivity|].
  destruct (MQTTWorker.validatePayload payload) eqn:Hv; [|reflexivity].
  exfalso. apply Hshape, validatePayload_shape, Hv.
Qed.

(** C9, as amended.  The reading stored for an accepted message carries, as
    its [uid], what the schema's String type makes of the payload's [uid]
    when that is truthy: a string as it is, anything else as the string it is
    cast to; it carries the topic's device identifier when the payload's
    [uid] is not truthy; and its [deviceId] is the topic's device
    identifier. *)
Theorem stored_uid (JSON_parse : string -> option value) (io : bool)
  (c : MQTTWorker.conditions) (topic message : string) (payload : value)
  (data : sensor_data) (w : MQTTWorker.world) :
  accepted JSON_parse c topic message payload data ->
  exists reading,
    MQTTWorker.readings (MQTTWorker.handleMessage JSON_parse io c topic message w)
    = (MQTTWorker.readings w ++ [reading])%list
    /\ Schema.castString
         (if truthy (get payload "uid") then get payload "uid"
          else VString (deviceId_of topic))
       = Some (Telemetry.uid reading)
    /\ (forall s, get payload "uid" = VString s -> s <> EmptyString ->
                  Telemetry.uid reading = s)
    /\ (truthy (get payload "uid") = false -> Telemetry.uid reading = deviceId_of topic)
    /\ Telemetry.deviceId reading = deviceId_of topic
    /\ exists first, MQTTWorker.split "/" topic
                     = [first; "application"; "out"; deviceId_of topic].
Proof.
  intros Hacc.
  pose proof (handleMessage_accepted JSON_parse io c topic message payload data w Hacc)
    as H.
  cbv zeta in H. destruct H as [reading [Hcreate [Hr _]]].
  destruct Hacc as [[first [id Hsplit]] [_ [_ [_ [Hcast _]]]]].
  destruct (schema_casts_create _ _ _ Hcast) as [uid [fw [tts [Huid [_ [_ Hrecord]]]]]].
  rewrite Hrecord in Hcreate. injection Hcreate as <-.
  exists {| Telemetry.deviceId := deviceId_of topic; Telemetry.uid := uid;
            Telemetry.firmware := fw; Telemetry.tts := tts; Telemetry.data := data;
            Telemetry.timestamp := MQTTWorker.clock w + Z.of_N (MQTTWorker.lag_timestamp c);
            Telemetry.receivedAt :=
              MQTTWorker.clock w + Z.of_N (MQTTWorker.lag_timestamp c)
              + Z.of_N (MQTTWorker.lag_receivedAt c);
            Telemetry.rawPayload := message |}.
  split; [exact Hr|]. cbn [Telemetry.uid Telemetry.deviceId].
  unfold or_else in Huid.
  split; [exact Huid|]. split; [|split; [|split]].
  - intros s Hs Hne. rewrite Hs in Huid. cbn in Huid.
    destruct s; [contradiction|]. cbn in Huid. congruence.
  - intros Hfalsy. rewrite Hfalsy in Huid. cbn in Huid. congruence.
  - reflexivity.
  - exists first. unfold deviceId_of. rewrite Hsplit. reflexivity.
Qed.

(** ** The device registry *)

Lemma findOne_none (id : string) (coll : list Device.t) :
  Device.findOne id coll = None -> ~ In (trim id) (List.map Device.uid coll).
Proof.
  unfold Device.findOne. induction coll as [|d rest IH]; cbn; [tauto|].
  destruct (String.eqb_spec (Device.uid d) (trim id)) as [E|E]; [discriminate|].
  intros H [H'|H']; [contradiction|]. exact (IH H H').
Qed.

Lemma findOne_some (id : string) (coll : list Device.t) (d : Device.t) :
  Device.findOne id coll = Some d -> Device.uid d = trim id /\ In d coll.
Proof.
  unfold Device.findOne. intros H. apply find_some in H as [Hin Heq].
  apply String.eqb_eq in Heq. auto.
Qed.

Lemma findOne_app (id : string) (a b : list Device.t) :
  Device.findOne id (a ++ b)
  = match Device.findOne id a with
    | Some d => Some d
    | None => Device.findOne id b
    end.
Proof.
  unfold Device.findOne. induction a as [|d a IH]; [reflexivity|]. cbn.
  destruct (String.eqb (Device.uid d) (trim id)); [reflexivity|exact IH].
Qed.

(** The unique index lets a document in when [findOne] found none. *)
Lemma insert_unknown (d : Device.t) (coll : list Device.t) :
  ~ In (Device.uid d) (List.map Device.uid coll) ->
  Device.insert d coll = Some (coll ++ [d])%list.
Proof.
  intros Hnew. unfold Device.insert.
  destruct (List.existsb _ coll) eqn:E; [|reflexivity].
  apply List.existsb_exists in E as [d' [Hin Heq]]. apply String.eqb_eq in Heq.
  exfalso. apply Hnew. rewrite <- Heq. apply in_map, Hin.
Qed.

Lemma insert_some (d : Device.t) (coll coll' : list Device.t) :
  Device.insert d coll = Some coll' ->
  coll' = (coll ++ [d])%list /\ ~ In (Device.uid d) (List.map Device.uid coll).
Proof.
  unfold Device.insert. destruct (List.existsb _ coll) eqn:E; [discriminate|].
  intros [= <-]. split; [reflexivity|].
  intros Hin. apply in_map_iff in Hin as [d' [Heq Hin]].
  assert (H : List.existsb (fun d' => String.eqb (Device.uid d') (Device.uid d)) coll = true).
  { apply List.existsb_exists. exists d'. split; [exact Hin|]. apply String.eqb_eq, Heq. }
  congruence.
Qed.

Lemma update_uids (id : string) (ch : Device.changes) (coll : list Device.t) :
  List.map Device.uid (Device.update id ch coll) = List.map Device.uid coll.
Proof.
  induction coll as [|d rest IH]; [reflexivity|]. cbn.
  destruct (String.eqb (Device.uid d) id); cbn; [reflexivity|].
  rewrite IH. reflexivity.
Qed.

Lemma update_forall (P : Device.t -> Prop) (id : string) (ch : Device.changes)
  (coll : list Device.t) :
  Forall P coll -> (forall d, P d -> P (Device.apply ch d)) ->
  Forall P (Device.update id ch coll).
Proof.
  intros Hall Hch. induction Hall as [|d rest Hd Hrest IH]; cbn; [constructor|].
  destruct (String.eqb (Device.uid d) id); constructor; auto.
Qed.

Lemma findOne_update (id : string) (ch : Device.changes) (coll : list Device.t) :
  Device.findOne id (Device.update (trim id) ch coll)
  = option_map (Device.apply ch) (Device.findOne id coll).
Proof.
  unfold Device.findOne.
  induction coll as [|d rest IH]; [reflexivity|]. cbn.
  destruct (String.eqb (Device.uid d) (trim id)) eqn:E; cbn; rewrite E; [reflexivity|].
  exact IH.
Qed.

Lemma perform_uids (op : Device.operation) (coll : list Device.t) :
  NoDup (List.map Device.uid coll) ->
  NoDup (List.map Device.uid (Device.perform op coll)).
Proof.
  intros Hnd. destruct op as [d|id ch]; cbn.
  - destruct (Device.insert d coll) as [coll'|] eqn:E; [|assumption].
    apply insert_some in E as [-> Hnew].
    rewrite map_app. cbn.
    apply NoDup_app; [assumption|repeat constructor; tauto|].
    intros x Hin [<-|[]]. exact (Hnew Hin).
  - rewrite update_uids. assumption.
Qed.

(** A path assigned a value holds that value once the changes are written
    over the document that was read. *)
Lemma modified_kept {A : Type} (eqb : A -> A -> bool) (old new : A) :
  (eqb old new = true -> old = new) ->
  Device.or_kept (Device.modified eqb old new) old = new.
Proof.
  intros Heq. unfold Device.modified. destruct (eqb old new); [|reflexivity].
  cbn. auto.
Qed.

Lemma registry_ok_later (now later : Z) (coll : list Device.t) :
  now <= later -> registry_ok now coll -> registry_ok later coll.
Proof.
  intros Hle [Hnd Hall]. split; [assumption|].
  eapply Forall_impl; [|exact Hall]. cbn. intros. lia.
Qed.

Lemma device_save_by found id payload now op :
  MQTTWorker.device_save found id payload now = Some op -> operation_by now op.
Proof.
  unfold MQTTWorker.device_save. destruct found as [device|].
  - unfold MQTTWorker.device_changes.
    destruct (Schema.castString _) as [fw|]; [|discriminate].
    intros [= <-]. cbn. unfold Device.modified.
    destruct (Device.lastSeen device =? now); [exact I|lia].
  - unfold MQTTWorker.new_device, Device.create. cbn.
    destruct (Schema.castString _) as [fw|]; [|discriminate].
    intros [= <-]. cbn. lia.
Qed.

Lemma perform_ok (now : Z) (op : Device.operation) (coll : list Device.t) :
  operation_by now op -> registry_ok now coll -> registry_ok now (Device.perform op coll).
Proof.
  intros Hop [Hnd Hall]. split; [apply perform_uids, Hnd|].
  destruct op as [d|id ch]; cbn in *.
  - destruct (Device.insert d coll) as [coll'|] eqn:E; [|assumption].
    apply insert_some in E as [-> _].
    apply Forall_app. split; [assumption|]. repeat constructor. exact Hop.
  - apply update_forall; [assumption|].
    intros d Hd. cbn. destruct (Device.set_lastSeen ch); cbn; assumption.
Qed.

Section Registry.
Import MQTTWorker.

Lemma updateDevice_clock c id payload w : clock w <= clock (updateDevice c id payload w).
Proof.
  unfold updateDevice. destruct (registry_answers c); [|lia].
  destruct (device_save _ _ _ _); cbn; lia.
Qed.

Lemma updateDevice_ok c id payload w : world_ok w -> world_ok (updateDevice c id payload w).
Proof.
  unfold world_ok. intros Hok. unfold updateDevice.
  destruct (registry_answers c); [|assumption].
  set (now := clock w + Z.of_N (lag_lastSeen c)).
  assert (Hnow : clock w <= now) by (unfold now; lia).
  apply (registry_ok_later _ _ _ Hnow) in Hok.
  destruct (device_save _ _ _ _) as [op|] eqn:E; cbn; [|assumption].
  apply perform_ok; [|assumption]. exact (device_save_by _ _ _ _ _ E).
Qed.

Variable JSON_parse : string -> option value.

Lemma handleMessage_ok io c topic message w :
  world_ok w -> world_ok (handleMessage JSON_parse io c topic message w).
Proof.
  intros Hok. unfold handleMessage.
  destruct (negb _ || _ || _); [assumption|].
  destruct (JSON_parse message) as [payload|]; [|assumption].
  destruct (validatePayload payload); cbn [negb]; [|assumption].
  destruct (decodeLittleEndianData _) as [data|]; [|assumption].
  set (t2 := clock w + Z.of_N (lag_timestamp c) + Z.of_N (lag_receivedAt c)).
  assert (Ht2 : clock w <= t2) by (unfold t2; lia).
  destruct (Telemetry.create _) as [telemetry|];
    [|unfold world_ok in *; cbn; exact (registry_ok_later _ _ _ Ht2 Hok)].
  destruct (telemetry_saves c).
  - match goal with
    | |- context [updateDevice c ?id payload ?w1] =>
        assert (H1 : world_ok (updateDevice c id payload w1))
    end.
    { apply updateDevice_ok. unfold world_ok. cbn.
      exact (registry_ok_later _ _ _ Ht2 Hok). }
    destruct io; [|assumption].
    unfold world_ok in *. cbn.
    eapply registry_ok_later; [|exact H1]. lia.
  - unfold world_ok in *. cbn. exact (registry_ok_later _ _ _ Ht2 Hok).
Qed.

(** What [updateDevice] does to the registry when the registry answers and
    [fw] can be cast. *)
Lemma updateDevice_upsert c id payload w firmware :
  registry_answers c = true ->
  Schema.castString (or_else (get payload "fw") (VString "unknown")) = Some firmware ->
  let w' := updateDevice c id payload w in
  match Device.findOne id (devices w) with
  | None =>
      exists d,
        devices w' = (devices w ++ [d])%list
        /\ Device.uid d = trim id
        /\ Device.name d = trim (String.append "Device " id)
        /\ Device.firmware d = firmware
        /\ Device.isActive d = true
        /\ Device.lastSeen d = clock w'
  | Some old =>
      List.map Device.uid (devices w') = List.map Device.uid (devices w)
      /\ exists d,
          Device.findOne id (devices w') = Some d
          /\ Device.uid d = Device.uid old
          /\ Device.name d = Device.name old
          /\ Device.location d = Device.location old
          /\ Device.deviceType d = Device.deviceType old
          /\ Device.firmware d
             = (if truthy (get payload "fw") then firmware else Device.firmware old)
          /\ Device.isActive d = true
          /\ Device.lastSeen d = clock w'
          /\ (registry_ok (clock w) (devices w) ->
              Device.lastSeen old <= Device.lastSeen d)
  end.
Proof.
  intros Hreg Hfw. cbv zeta. unfold updateDevice. rewrite Hreg.
  destruct (Device.findOne id (devices w)) as [old|] eqn:Hfind.
  - cbn [device_save]. unfold device_changes.
    assert (Hcast : Schema.castString
                      (or_else (get payload "fw") (VString (Device.firmware old)))
                    = Some (if truthy (get payload "fw") then firmware
                            else Device.firmware old)).
    { unfold or_else in *. destruct (truthy (get payload "fw")); [exact Hfw|reflexivity]. }
    rewrite Hcast. cbn [option_map with_devices with_clock devices clock Device.perform].
    split; [apply update_uids|].
    pose proof (findOne_some _ _ _ Hfind) as [Huid Hin].
    rewrite Huid, findOne_update, Hfind. cbn [option_map].
    eexists. split; [reflexivity|]. cbn.
    rewrite !modified_kept.
    + repeat split; try reflexivity; try exact Huid.
      intros [_ Hall]. rewrite Forall_forall in Hall.
      specialize (Hall old Hin). cbn in Hall. lia.
    + apply Z.eqb_eq.
    + intros H. destruct (Device.isActive old); [reflexivity|discriminate].
    + apply String.eqb_eq.
  - cbn [device_save]. unfold new_device, Device.create. cbn [Device.f_firmware].
    rewrite Hfw. cbn [option_map with_devices with_clock devices clock Device.perform].
    rewrite insert_unknown by (cbn; exact (findOne_none _ _ Hfind)).
    eexists. split; [reflexivity|]. cbn. repeat split; reflexivity.
Qed.

End Registry.

(** ** Calls that overlap *)

Section Calls.
Import MQTTWorker.
Local Open Scope list_scope.
Variable JSON_parse : string -> option value.
Variable io : bool.

Lemma advance_nth_last c (ks : list call) (k : call) (w : world) :
  advance_nth io c (List.length ks) (ks ++ [k]) w
  = (fst (advance io c k w), ks ++ [snd (advance io c k w)]).
Proof.
  induction ks as [|k0 ks IH]; cbn.
  - destruct (advance io c k w); reflexivity.
  - rewrite IH. reflexivity.
Qed.

Lemma execute_advances c (n : nat) (ks : list call) (k : call) (w : world) :
  execute JSON_parse io (List.repeat (c, Advances (List.length ks)) n)
    {| state := w; calls := ks ++ [k] |}
  = {| state := fst (advance_times io n c k w);
       calls := ks ++ [snd (advance_times io n c k w)] |}.
Proof.
  revert k w. induction n as [|n IH]; intros k w; [reflexivity|].
  change (execute JSON_parse io (List.repeat (c, Advances (List.length ks)) (S n))
            {| state := w; calls := ks ++ [k] |})
    with (execute JSON_parse io (List.repeat (c, Advances (List.length ks)) n)
            (occur JSON_parse io {| state := w; calls := ks ++ [k] |}
               (c, Advances (List.length ks)))).
  unfold occur. cbn [fst snd state calls]. rewrite advance_nth_last.
  rewrite IH. cbn [advance_times]. destruct (advance io c k w); reflexivity.
Qed.

Lemma arrive_then_advance c topic message (w : world) :
  fst (advance_times io 7 c (snd (arrive JSON_parse c topic message w))
         (fst (arrive JSON_parse c topic message w)))
  = handleMessage JSON_parse io c topic message w
  /\ at_stage (snd (advance_times io 7 c (snd (arrive JSON_parse c topic message w))
                      (fst (arrive JSON_parse c topic message w))))
     = Done.
Proof.
  unfold arrive, handleMessage.
  destruct (negb _ || _ || _); [split; reflexivity|].
  destruct (JSON_parse message) as [payload|]; [|split; reflexivity].
  destruct (validatePayload payload); cbn [negb]; [|split; reflexivity].
  destruct (decodeLittleEndianData _) as [data|]; [|split; reflexivity].
  cbn [fst snd].
  destruct (Telemetry.create _) as [telemetry|]; [|split; reflexivity].
  unfold updateDevice.
  cbn [advance_times advance at_stage call_telemetry moved].
  destruct (telemetry_saves c); [|split; reflexivity].
  cbn [advance_times advance at_stage call_telemetry call_deviceId call_payload moved
       devices clock].
  destruct (registry_answers c) eqn:Hreg.
  - cbn [advance_times advance at_stage call_telemetry call_deviceId call_payload moved
         devices clock with_clock].
    destruct (device_save _ _ _ _) as [op|].
    + cbn [advance_times advance at_stage call_telemetry call_deviceId call_payload moved
           devices clock with_clock with_devices].
      rewrite Hreg.
      cbn [advance_times advance at_stage call_telemetry call_deviceId call_payload moved
           devices clock with_clock with_devices readings emitted].
      destruct io; split; reflexivity.
    + cbn [advance_times advance at_stage call_telemetry call_deviceId call_payload moved
           devices clock with_clock with_devices readings emitted].
      destruct io; split; reflexivity.
  - cbn [advance_times advance at_stage call_telemetry call_deviceId call_payload moved
         devices clock with_clock with_devices readings emitted].
    destruct io; split; reflexivity.
Qed.

(** What is kept through every execution, given what each occurrence
    keeps: [P] of the world and [Q] of each call. *)
Section Kept.
Variable P : world -> Prop.
Variable Q : world -> call -> Prop.

Hypothesis arrive_keeps : forall c topic message w,
  P w ->
  P (fst (arrive JSON_parse c topic message w))
  /\ Q (fst (arrive JSON_parse c topic message w))
       (snd (arrive JSON_parse c topic message w))
  /\ forall k, Q w k -> Q (fst (arrive JSON_parse c topic message w)) k.

Hypothesis advance_keeps : forall c k w,
  P w -> Q w k ->
  P (fst (advance io c k w))
  /\ Q (fst (advance io c k w)) (snd (advance io c k w))
  /\ forall k', Q w k' -> Q (fst (advance io c k w)) k'.

Lemma advance_nth_kept c (i : nat) (ks : list call) (w : world) :
  P w -> Forall (Q w) ks ->
  P (fst (advance_nth io c i ks w))
  /\ Forall (Q (fst (advance_nth io c i ks w))) (snd (advance_nth io c i ks w))
  /\ forall k, Q w k -> Q (fst (advance_nth io c i ks w)) k.
Proof.
  revert i. induction ks as [|k ks IH]; intros i HP HQ.
  - destruct i; cbn; auto.
  - inversion HQ as [|k0 ks0 Hk Hks]; subst. destruct i as [|i]; cbn.
    + destruct (advance_keeps c k w HP Hk) as [HP' [Hk' Hothers]].
      destruct (advance io c k w) as [w' k']. cbn in *.
      split; [assumption|]. split; [|assumption].
      constructor; [assumption|]. eapply Forall_impl; [|exact Hks]. exact Hothers.
    + destruct (IH i HP Hks) as [HP' [Hks' Hothers]].
      destruct (advance_nth io c i ks w) as [w' ks']. cbn in *.
      split; [assumption|]. split; [|assumption].
      constructor; [apply Hothers, Hk|assumption].
Qed.

Lemma occur_kept (p : process) (o : conditions * occurrence) :
  kept P Q p -> kept P Q (occur JSON_parse io p o).
Proof.
  intros [HP HQ]. destruct o as [c [topic message|i]]; unfold occur; cbn [fst snd].
  - destruct (arrive_keeps c topic message (state p) HP) as [HP' [Hk Hothers]].
    destruct (arrive JSON_parse c topic message (state p)) as [w' k]. cbn in *.
    split; [assumption|]. cbn. apply Forall_app. split.
    + eapply Forall_impl; [|exact HQ]. exact Hothers.
    + constructor; [assumption|constructor].
  - destruct (advance_nth_kept c i (calls p) (state p) HP HQ) as [HP' [HQ' _]].
    destruct (advance_nth io c i (calls p) (state p)) as [w' ks']. cbn in *.
    split; assumption.
Qed.

Lemma execute_kept (os : list (conditions * occurrence)) (p : process) :
  kept P Q p -> kept P Q (execute JSON_parse io os p).
Proof.
  revert p. induction os as [|o os IH]; intros p Hp; [assumption|].
  apply (IH (occur JSON_parse io p o)), occur_kept, Hp.
Qed.

End Kept.

(** The clock only moves forward. *)
Lemma arrive_clock c topic message w :
  clock w <= clock (fst (arrive JSON_parse c topic message w)).
Proof.
  unfold arrive.
  destruct (negb _ || _ || _); [cbn; lia|].
  destruct (JSON_parse message) as [payload|]; [|cbn; lia].
  destruct (validatePayload payload); cbn [negb]; [|cbn; lia].
  destruct (decodeLittleEndianData _) as [data|]; cbn; lia.
Qed.

Lemma arrive_stores c topic message w :
  devices (fst (arrive JSON_parse c topic message w)) = devices w
  /\ readings (fst (arrive JSON_parse c topic message w)) = readings w
  /\ emitted (fst (arrive JSON_parse c topic message w)) = emitted w.
Proof.
  unfold arrive.
  destruct (negb _ || _ || _); [cbn; auto|].
  destruct (JSON_parse message) as [payload|]; [|cbn; auto].
  destruct (validatePayload payload); cbn [negb]; [|cbn; auto].
  destruct (decodeLittleEndianData _) as [data|]; cbn; auto.
Qed.

Lemma arrive_stage c topic message w :
  at_stage (snd (arrive JSON_parse c topic message w)) = Saving
  \/ at_stage (snd (arrive JSON_parse c topic message w)) = Done.
Proof.
  unfold arrive.
  destruct (negb _ || _ || _); [cbn; auto|].
  destruct (JSON_parse message) as [payload|]; [|cbn; auto].
  destruct (validatePayload payload); cbn [negb]; [|cbn; auto].
  destruct (decodeLittleEndianData _) as [data|]; cbn; auto.
Qed.

Lemma advance_clock c k w : clock w <= clock (fst (advance io c k w)).
Proof.
  unfold advance.
  destruct (at_stage k) as [|[|]| |[found|]|[op|]| | |]; cbn; try lia.
  - destruct (call_telemetry k); [destruct (telemetry_saves c)|]; cbn; lia.
  - destruct (registry_answers c); cbn; lia.
  - destruct (registry_answers c); cbn; lia.
  - destruct (call_telemetry k); [destruct io|]; cbn; lia.
Qed.

Lemma pending_by_later (now later : Z) (k : call) :
  now <= later -> pending_by now k -> pending_by later k.
Proof.
  unfold pending_by. destruct (at_stage k) as [| | | |[[d|id ch]|]| | |]; auto.
  - cbn. lia.
  - cbn. destruct (Device.set_lastSeen ch); [lia|auto].
Qed.

(** Whatever the overlap, no two devices share a [uid] and none is seen
    later than the clock. *)
Lemma arrive_ok c topic message w :
  world_ok w ->
  world_ok (fst (arrive JSON_parse c topic message w))
  /\ pending_by (clock (fst (arrive JSON_parse c topic message w)))
       (snd (arrive JSON_parse c topic message w))
  /\ forall k, pending_by (clock w) k ->
               pending_by (clock (fst (arrive JSON_parse c topic message w))) k.
Proof.
  intros Hok. pose proof (arrive_clock c topic message w) as Hclock.
  destruct (arrive_stores c topic message w) as [Hd _].
  split; [|split].
  - unfold world_ok in *. rewrite Hd. exact (registry_ok_later _ _ _ Hclock Hok).
  - unfold pending_by.
    destruct (arrive_stage c topic message w) as [-> | ->]; exact I.
  - intros k Hk. exact (pending_by_later _ _ k Hclock Hk).
Qed.

Lemma advance_ok c k w :
  world_ok w -> pending_by (clock w) k ->
  world_ok (fst (advance io c k w))
  /\ pending_by (clock (fst (advance io c k w))) (snd (advance io c k w))
  /\ forall k', pending_by (clock w) k' ->
                pending_by (clock (fst (advance io c k w))) k'.
Proof.
  intros Hok Hk. pose proof (advance_clock c k w) as Hclock.
  split; [|split]; [| |intros k' Hk'; exact (pending_by_later _ _ k' Hclock Hk')].
  - unfold world_ok in *. revert Hclock Hk. unfold advance, pending_by.
    destruct (at_stage k) as [|[|]| |[found|]|[op|]| | |]; cbn; intros Hclock Hk;
      try assumption.
    + destruct (call_telemetry k); [destruct (telemetry_saves c)|]; cbn; assumption.
    + destruct (registry_answers c); cbn; assumption.
    + exact (registry_ok_later _ _ _ Hclock Hok).
    + destruct (registry_answers c); cbn; [|assumption].
      apply perform_ok; assumption.
    + destruct (call_telemetry k); [destruct io|]; cbn in *; try assumption.
      exact (registry_ok_later _ _ _ Hclock Hok).
  - unfold advance, pending_by.
    destruct (at_stage k) as [|[|]| |[found|]|[op|]| | |] eqn:Hs; cbn; try exact I.
    + destruct (call_telemetry k); [destruct (telemetry_saves c)|]; exact I.
    + destruct (registry_answers c); exact I.
    + destruct (device_save _ _ _ _) as [op|] eqn:E; [|exact I].
      exact (device_save_by _ _ _ _ _ E).
    + destruct (registry_answers c); exact I.
    + destruct (call_telemetry k); [destruct io|]; exact I.
    + rewrite Hs. exact I.
Qed.

Lemma execute_ok (os : list (conditions * occurrence)) (w : world) :
  world_ok w -> world_ok (state (execute JSON_parse io os (idle w))).
Proof.
  intros Hok.
  apply (execute_kept world_ok (fun w k => pending_by (clock w) k)
           arrive_ok advance_ok os (idle w)).
  split; [exact Hok|constructor].
Qed.

(** A message handled with nothing else going on is [handleMessage]. *)
Lemma alone_is_handleMessage c topic message (p : process) :
  exists k,
    at_stage k = Done
    /\ execute JSON_parse io (alone c topic message (List.length (calls p))) p
       = {| state := handleMessage JSON_parse io c topic message (state p);
            calls := calls p ++ [k] |}.
Proof.
  destruct (arrive_then_advance c topic message (state p)) as [Hw Hk].
  eexists. split; [exact Hk|].
  unfold alone.
  change (execute JSON_parse io
            ((c, Arrives topic message)
             :: List.repeat (c, Advances (List.length (calls p))) 7) p)
    with (execute JSON_parse io (List.repeat (c, Advances (List.length (calls p))) 7)
            (occur JSON_parse io p (c, Arrives topic message))).
  unfold occur. cbn [fst snd].
  destruct (arrive JSON_parse c topic message (state p)) as [w1 k1] eqn:E.
  rewrite execute_advances. cbn [fst snd] in Hw |- *. rewrite Hw. reflexivity.
Qed.

(** A message handled with nothing else going on, whatever the calls that
    are under way. *)
Lemma handled_alone c topic message (p : process) :
  state (execute JSON_parse io (alone c topic message (List.length (calls p))) p)
  = handleMessage JSON_parse io c topic message (state p).
Proof.
  destruct (alone_is_handleMessage c topic message p) as [k [_ ->]]. reflexivity.
Qed.

End Calls.

(** Trimming leaves a plain identifier, and the name made of it, as they
    are. *)
Lemma plain_trim (id : string) :
  plain id ->
  trim id = id /\ trim (String.append "Device " id) = String.append "Device " id.
Proof.
  intros [Hne [Hws Hend]]. unfold trim. split; [rewrite Hws; exact Hend|].
  destruct id as [|c1 r1]; [contradiction|].
  assert (H1 : skip_ws (String.append "Device " (String c1 r1))
               = String.append "Device " (String c1 r1)) by reflexivity.
  assert (H2 : trimEnd (String.append "Device " (String c1 r1))
               = String.append "Device" (trimEnd (String " " (String c1 r1))))
    by reflexivity.
  assert (H3 : trimEnd (String " " (String c1 r1))
               = if is_empty (skip_ws (String c1 r1)) then EmptyString
                 else String " " (trimEnd (String c1 r1))) by reflexivity.
  rewrite H1, H2, H3, Hws, Hend. reflexivity.
Qed.

(** C5, as amended.  Whatever was handled before and however the calls
    overlapped, no two devices share a [uid] (and none is seen later than
    the clock).  A further accepted message, handled with nothing else going
    on and with a registry that answers, adds one device when none has the
    topic's identifier, trimmed, as its [uid]: that is the new device's
    [uid], its name is [Device <identifier>], trimmed (hence [Device <uid>]
    for an identifier without white space at its ends), and it is active;
    otherwise the devices stay the same ones, and the one with that [uid]
    keeps its name, is active, and is seen no earlier than before. *)
Theorem one_device_per_uid (JSON_parse : string -> option value) (io : bool)
  (os : list (MQTTWorker.conditions * MQTTWorker.occurrence)) (w : MQTTWorker.world) :
  world_ok w ->
  let p := MQTTWorker.execute JSON_parse io os (idle w) in
  NoDup (List.map Device.uid (MQTTWorker.devices (MQTTWorker.state p)))
  /\ forall c topic message payload data,
      accepted JSON_parse c topic message payload data ->
      MQTTWorker.registry_answers c = true ->
      let id := deviceId_of topic in
      let p' :=
        MQTTWorker.execute JSON_parse io
          (MQTTWorker.alone c topic message (List.length (MQTTWorker.calls p))) p in
      NoDup (List.map Device.uid (MQTTWorker.devices (MQTTWorker.state p')))
      /\ match Device.findOne id (MQTTWorker.devices (MQTTWorker.state p)) with
         | None =>
             exists d,
               MQTTWorker.devices (MQTTWorker.state p')
               = (MQTTWorker.devices (MQTTWorker.state p) ++ [d])%list
               /\ Device.uid d = trim id
               /\ Device.name d = trim (String.append "Device " id)
               /\ (plain id -> Device.name d = String.append "Device " (Device.uid d))
               /\ Device.isActive d = true
         | Some old =>
             List.map Device.uid (MQTTWorker.devices (MQTTWorker.state p'))
             = List.map Device.uid (MQTTWorker.devices (MQTTWorker.state p))
             /\ exists d,
                 Device.findOne id (MQTTWorker.devices (MQTTWorker.state p')) = Some d
                 /\ Device.name d = Device.name old
                 /\ Device.isActive d = true
                 /\ Device.lastSeen old <= Device.lastSeen d
         end.
Proof.
  intros Hok. cbv zeta.
  pose proof (execute_ok JSON_parse io os w Hok) as Hok'.
  set (p := MQTTWorker.execute JSON_parse io os (idle w)) in *.
  split; [apply Hok'|].
  intros c topic message payload data Hacc Hreg.
  rewrite handled_alone. split.
  - apply (handleMessage_ok JSON_parse io c topic message _ Hok').
  - pose proof (handleMessage_accepted JSON_parse io c topic message payload data
                  (MQTTWorker.state p) Hacc) as H.
    cbv zeta in H. destruct H as [telemetry [_ [_ [-> _]]]].
    destruct Hacc as [_ [_ [_ [_ [Hcast _]]]]].
    destruct (schema_casts_create _ _ _ Hcast) as [uid [fw [tts [_ [Hfw _]]]]].
    match goal with
    | |- context [MQTTWorker.updateDevice c ?id payload ?w1] =>
        pose proof (updateDevice_upsert c id payload w1 fw) as H
    end.
    cbv zeta in H. cbn [MQTTWorker.devices MQTTWorker.clock] in H.
    assert (Hlater : registry_ok
                       (MQTTWorker.clock (MQTTWorker.state p)
                        + Z.of_N (MQTTWorker.lag_timestamp c)
                        + Z.of_N (MQTTWorker.lag_receivedAt c))
                       (MQTTWorker.devices (MQTTWorker.state p))).
    { eapply registry_ok_later; [|exact Hok']. lia. }
    specialize (H Hreg Hfw).
    destruct (Device.findOne (deviceId_of topic) (MQTTWorker.devices (MQTTWorker.state p)))
      as [old|].
    + destruct H as [Huids [d [Hfind [_ [Hname [_ [_ [_ [Hact [_ Hseen]]]]]]]]]].
      split; [exact Huids|]. exists d. auto.
    + destruct H as [d [Hd [Huid [Hname [_ [Hact _]]]]]].
      exists d. split; [exact Hd|]. split; [exact Huid|]. split; [exact Hname|].
      split; [|exact Hact].
      intros Hplain. destruct (plain_trim _ Hplain) as [Hid Hdevice].
      rewrite Hname, Huid, Hid, Hdevice. reflexivity.
Qed.

(** ** Numbers *)

Lemma strip_spec (p : positive) (e : Z) :
  let (p', e') := strip p e in
  e <= e' /\ Z.pos p = Z.pos p' * 2 ^ (e' - e).
Proof.
  revert e. induction p as [p IH|p IH|]; intros e; cbn [strip].
  - split; [lia|]. rewrite Z.sub_diag. lia.
  - specialize (IH (e + 1)). destruct (strip p (e + 1)) as [p' e'].
    destruct IH as [Hle Hp]. split; [lia|].
    replace (e' - e) with (Z.succ (e' - (e + 1))) by lia.
    rewrite Z.pow_succ_r by lia. lia.
  - split; [lia|]. rewrite Z.sub_diag. lia.
Qed.

(** Trailing zero bits can be moved between mantissa and exponent. *)
Lemma dyadic_shift (neg : bool) (m e k : Z) :
  0 < m -> 0 <= k -> dyadic neg (m * 2 ^ k) (e - k) = dyadic neg m e.
Proof.
  intros Hm Hk. revert e. pattern k. apply natlike_ind; [| |exact Hk].
  - intros e. rewrite Z.mul_1_r, Z.sub_0_r. reflexivity.
  - intros j Hj IH e. rewrite Z.pow_succ_r by lia.
    rewrite <- (IH e).
    assert (Hpos : 0 < m * 2 ^ j) by (apply Z.mul_pos_pos; [assumption|apply Z.pow_pos_nonneg; lia]).
    replace (m * (2 * 2 ^ j)) with (2 * (m * 2 ^ j)) by ring.
    destruct (m * 2 ^ j) as [|p|p]; try lia.
    change (2 * Z.pos p) with (Z.pos (xO p)).
    unfold dyadic. cbn [strip].
    replace (e - Z.succ j + 1) with (e - j) by lia. reflexivity.
Qed.

Lemma round_half_even_one (n : Z) : round_half_even n 1 = n.
Proof.
  unfold round_half_even. rewrite Z.div_1_r, Z.mod_1_r. reflexivity.
Qed.

Lemma of_Z_nonneg (v : Z) : 0 <= v -> of_Z v = dyadic false v 0.
Proof.
  intros Hv. unfold of_Z. rewrite Z.abs_eq by assumption.
  destruct (Z.ltb_spec v 0); [lia|reflexivity].
Qed.

(** An integer below 2^53 is a double. *)
Lemma fl64_integer (v : Z) : 0 <= v < 2 ^ 53 -> fl64 false v 1 = of_Z v.
Proof.
  intros [Hlo Hhi]. rewrite of_Z_nonneg by assumption.
  unfold fl64, prec64, emin64, emax64.
  destruct (Z.leb_spec v 0) as [H0|Hpos].
  { replace v with 0 by lia. reflexivity. }
  change (Z.log2 1) with 0.
  set (a := Z.log2 v).
  assert (Ha : 0 <= a) by apply Z.log2_nonneg.
  assert (Hspec : 2 ^ a <= v < 2 ^ Z.succ a) by (apply Z.log2_spec; assumption).
  assert (Ha53 : a < 53) by (apply Z.log2_lt_pow2; assumption).
  destruct (Z.leb_spec 0 (a - 0 - 53)) as [Hbad|_]; [lia|].
  rewrite Z.div_1_r.
  replace (- (a - 0 - 53)) with (53 - a) by lia.
  assert (Hbig : 2 ^ 53 <= v * 2 ^ (53 - a)).
  { replace (2 ^ 53) with (2 ^ a * 2 ^ (53 - a))
      by (rewrite <- Z.pow_add_r by lia; f_equal; lia).
    apply Z.mul_le_mono_nonneg_r; [apply Z.pow_nonneg; lia|lia]. }
  destruct (Z.leb_spec (2 ^ 53) (v * 2 ^ (53 - a))) as [_|Hbad]; [|lia].
  rewrite Z.max_l by lia.
  assert (Hscaled :
    (if 0 <=? a - 0 - 53 + 1 then (v, 1 * 2 ^ (a - 0 - 53 + 1))
     else (v * 2 ^ (- (a - 0 - 53 + 1)), 1)) = (v * 2 ^ (52 - a), 1)).
  { destruct (Z.leb_spec 0 (a - 0 - 53 + 1)) as [Hz|Hz].
    - assert (E : a = 52) by lia. rewrite E.
      change (2 ^ (52 - 0 - 53 + 1)) with 1. change (2 ^ (52 - 52)) with 1.
      rewrite !Z.mul_1_r. reflexivity.
    - do 3 f_equal. lia. }
  rewrite Hscaled. rewrite round_half_even_one.
  assert (Hfit : v * 2 ^ (52 - a) * 2 ^ (a - 0 - 53 + 1 - -1074) < 2 ^ (1024 - -1074)).
  { rewrite <- Z.mul_assoc, <- Z.pow_add_r by lia.
    replace (52 - a + (a - 0 - 53 + 1 - -1074)) with 1074 by lia.
    change (1024 - -1074) with (53 + (1074 + 971)).
    rewrite (Z.pow_add_r 2 53) by lia. rewrite (Z.pow_add_r 2 1074) by lia.
    assert (0 < 2 ^ 1074) by (apply Z.pow_pos_nonneg; lia).
    assert (1 <= 2 ^ 971) by (apply (Z.pow_le_mono_r 2 0 971); lia).
    nia. }
  destruct (Z.leb_spec (2 ^ (1024 - -1074)) (v * 2 ^ (52 - a) * 2 ^ (a - 0 - 53 + 1 - -1074)))
    as [Hbad|_]; [lia|].
  replace (a - 0 - 53 + 1) with (0 - (52 - a)) by lia.
  apply dyadic_shift; lia.
Qed.

(** The parts of a natural number seen as a double: mantissa and exponent. *)
Lemma of_Z_parts (v : Z) :
  0 <= v ->
  (v = 0 /\ of_Z v = Zero false)
  \/ exists p e, of_Z v = Finite false p e /\ 0 <= e /\ v = Z.pos p * 2 ^ e.
Proof.
  intros Hv. rewrite of_Z_nonneg by assumption.
  destruct v as [|q|q]; [left; auto| |lia].
  right. unfold dyadic. pose proof (strip_spec q 0) as Hs.
  destruct (strip q 0) as [p e]. destruct Hs as [He Hq].
  exists p, e. rewrite Z.sub_0_r in Hq. auto.
Qed.

Lemma trunc_of_Z (v : Z) : 0 <= v -> trunc (of_Z v) = v.
Proof.
  intros Hv. destruct (of_Z_parts v Hv) as [[-> ->] | [p [e [-> [He ->]]]]];
    [reflexivity|].
  cbn. destruct (Z.leb_spec 0 e); [reflexivity|lia].
Qed.

Lemma lt_of_Z (a b : Z) : 0 <= a -> 0 <= b -> JS.lt (of_Z a) (of_Z b) = (a <? b).
Proof.
  intros Ha Hb.
  destruct (of_Z_parts a Ha) as [[-> ->] | [p [e [-> [He ->]]]]];
    destruct (of_Z_parts b Hb) as [[-> ->] | [q [f [-> [Hf ->]]]]];
    unfold JS.lt, scaled_pair; cbv beta iota zeta.
  - reflexivity.
  - rewrite Z.mul_0_l. symmetry.
    assert (0 < 2 ^ (f - Z.min 0 f)) by (apply Z.pow_pos_nonneg; lia).
    assert (0 < 2 ^ f) by (apply Z.pow_pos_nonneg; lia).
    destruct (Z.ltb_spec 0 (Z.pos q * 2 ^ f)), (Z.ltb_spec 0 (Z.pos q * 2 ^ (f - Z.min 0 f)));
      try reflexivity; nia.
  - rewrite Z.mul_0_l.
    assert (0 < 2 ^ (e - Z.min e 0)) by (apply Z.pow_pos_nonneg; lia).
    assert (0 < 2 ^ e) by (apply Z.pow_pos_nonneg; lia).
    destruct (Z.ltb_spec (Z.pos p * 2 ^ e) 0), (Z.ltb_spec (Z.pos p * 2 ^ (e - Z.min e 0)) 0);
      try reflexivity; nia.
  - set (g := Z.min e f).
    assert (Hg : 0 < 2 ^ g) by (apply Z.pow_pos_nonneg; unfold g; lia).
    assert (E1 : 2 ^ e = 2 ^ (e - g) * 2 ^ g)
      by (rewrite <- Z.pow_add_r by (unfold g; lia); f_equal; lia).
    assert (E2 : 2 ^ f = 2 ^ (f - g) * 2 ^ g)
      by (rewrite <- Z.pow_add_r by (unfold g; lia); f_equal; lia).
    rewrite E1, E2.
    destruct (Z.ltb_spec (Z.pos p * 2 ^ (e - g)) (Z.pos q * 2 ^ (f - g))),
             (Z.ltb_spec (Z.pos p * (2 ^ (e - g) * 2 ^ g)) (Z.pos q * (2 ^ (f - g) * 2 ^ g)));
      try reflexivity; nia.
Qed.

(** ** Bytes *)

Lemma code_range (b : byte) : 0 <= code b < 256.
Proof.
  unfold code. pose proof (N_ascii_bounded b). lia.
Qed.

Lemma code_byte_of_Z (z : Z) : code (byte_of_Z z) = z mod 256.
Proof.
  unfold code, byte_of_Z.
  pose proof (Z.mod_pos_bound z 256 eq_refl) as Hb.
  rewrite N_ascii_embedding by lia. lia.
Qed.

Lemma byte_of_code (b : byte) : byte_of_Z (code b) = b.
Proof.
  unfold byte_of_Z. rewrite Z.mod_small by apply code_range.
  unfold code. rewrite N2Z.id. apply ascii_N_embedding.
Qed.

(** Four bytes, least significant first, put together again. *)
Lemma combine_bytes (w : Z) :
  0 <= w < 2 ^ 32 ->
  Z.lor (w mod 256)
    (Z.lor (Z.shiftl (Z.shiftr w 8 mod 256) 8)
       (Z.lor (Z.shiftl (Z.shiftr w 16 mod 256) 16)
          (Z.shiftl (Z.shiftr w 24 mod 256) 24))) = w.
Proof.
  intros Hw. apply Z.bits_inj'. intros n Hn.
  change 256 with (2 ^ 8).
  rewrite !Z.lor_spec.
  destruct (Z.ltb_spec n 8) as [H8|H8].
  { rewrite Z.mod_pow2_bits_low by lia.
    rewrite !Z.shiftl_spec_low by lia. rewrite !orb_false_r. reflexivity. }
  rewrite Z.mod_pow2_bits_high by lia. cbn [orb].
  rewrite (Z.shiftl_spec _ 8) by lia.
  destruct (Z.ltb_spec n 16) as [H16|H16].
  { rewrite Z.mod_pow2_bits_low by lia. rewrite Z.shiftr_spec by lia.
    rewrite !Z.shiftl_spec_low by lia. rewrite !orb_false_r. f_equal. lia. }
  rewrite (Z.mod_pow2_bits_high _ 8 (n - 8)) by lia. cbn [orb].
  rewrite (Z.shiftl_spec _ 16) by lia.
  destruct (Z.ltb_spec n 24) as [H24|H24].
  { rewrite Z.mod_pow2_bits_low by lia. rewrite Z.shiftr_spec by lia.
    rewrite !Z.shiftl_spec_low by lia. rewrite !orb_false_r. f_equal. lia. }
  rewrite (Z.mod_pow2_bits_high _ 8 (n - 16)) by lia. cbn [orb].
  rewrite (Z.shiftl_spec _ 24) by lia.
  destruct (Z.ltb_spec n 32) as [H32|H32].
  { rewrite Z.mod_pow2_bits_low by lia. rewrite Z.shiftr_spec by lia. f_equal. lia. }
  rewrite Z.mod_pow2_bits_high by lia.
  symmetry. apply Z.bits_above_log2; [lia|].
  destruct (Z.eq_dec w 0) as [->|Hnz]; [cbn; lia|].
  apply Z.log2_lt_pow2; [lia|].
  apply Z.lt_le_trans with (2 ^ 32); [lia|]. apply Z.pow_le_mono_r; lia.
Qed.

(** ** Hexadecimal strings *)

Lemma hex_digit_range (c : ascii) (d : Z) : hex_digit c = Some d -> 0 <= d < 16.
Proof.
  unfold hex_digit. pose proof (code_range c) as Hc.
  repeat match goal with
         | |- context [if ?b then _ else _] => destruct b eqn:?
         end; intros [= <-]; lia.
Qed.

Lemma hex_value_range (s : string) :
  all_hex s = true -> 0 <= hex_value s < 16 ^ Z.of_nat (String.length s).
Proof.
  induction s as [|c r IH]; cbn [all_hex hex_value String.length]; [cbn; lia|].
  unfold hex_digit_value.
  destruct (hex_digit c) as [d|] eqn:Hd; [|discriminate].
  intros Hr. specialize (IH Hr). apply hex_digit_range in Hd.
  rewrite Nat2Z.inj_succ, Z.pow_succ_r by lia. nia.
Qed.

Lemma digits_all_hex (s : string) (acc n : Z) :
  all_hex s = true ->
  digits hex_digit 16 acc n s
  = (acc * 16 ^ Z.of_nat (String.length s) + hex_value s,
     n + Z.of_nat (String.length s), EmptyString).
Proof.
  revert acc n. induction s as [|c r IH]; intros acc n; cbn [all_hex digits hex_value String.length].
  - intros _. cbn. do 2 f_equal; lia.
  - unfold hex_digit_value. destruct (hex_digit c) as [d|]; [|discriminate].
    intros Hr. rewrite (IH _ _ Hr).
    rewrite Nat2Z.inj_succ, Z.pow_succ_r by lia.
    do 2 f_equal; ring.
Qed.

Lemma hex_pattern_all_hex (s : string) : hex_pattern s = true -> all_hex s = true.
Proof. destruct s; [discriminate|auto]. Qed.

Lemma hex_pattern_length (s : string) : hex_pattern s = true -> (0 < String.length s)%nat.
Proof. destruct s; [discriminate|cbn; lia]. Qed.

(** A string of hexadecimal digits does not start with [0x]. *)
Lemma hex_pattern_no_prefix (s : string) :
  hex_pattern s = true -> startsWith s "0x" = false.
Proof.
  intros H. apply hex_pattern_all_hex in H. unfold startsWith.
  destruct s as [|c [|c2 r]]; cbn [String.prefix].
  - reflexivity.
  - destruct (ascii_dec "0" c); reflexivity.
  - destruct (ascii_dec "0" c); [|reflexivity].
    destruct (ascii_dec "x" c2) as [<-|]; [|reflexivity].
    cbn [all_hex] in H. destruct (hex_digit c); discriminate.
Qed.

Lemma startsWith_0x (s : string) :
  startsWith (String "0" (String "x" s)) "0x" = true.
Proof.
  unfold startsWith. cbn [String.prefix].
  destruct (ascii_dec "0" "0"); [|congruence].
  destruct (ascii_dec "x" "x"); [destruct s; reflexivity|congruence].
Qed.

Lemma skip_ws_0x (s : string) :
  skip_ws (String "0" (String "x" s)) = String "0" (String "x" s).
Proof. destruct s; reflexivity. Qed.

Lemma parseInt16_0x (s : string) :
  hex_pattern s = true ->
  parseInt16 (String "0" (String "x" s)) = fl64 false (hex_value s) 1.
Proof.
  intros H. unfold parseInt16. rewrite skip_ws_0x.
  cbn [take_sign drop_0x].
  rewrite digits_all_hex by (apply hex_pattern_all_hex; assumption).
  apply hex_pattern_length in H.
  destruct (Z.eqb_spec (0 + Z.of_nat (String.length s)) 0); [lia|].
  reflexivity.
Qed.

(** ** The decoder on 32-bit patterns *)

Lemma writeUInt32LE_of_Z (w : Z) :
  0 <= w < 2 ^ 32 ->
  writeUInt32LE (of_Z w)
  = Normal [byte_of_Z w; byte_of_Z (Z.shiftr w 8);
            byte_of_Z (Z.shiftr w 16); byte_of_Z (Z.shiftr w 24)].
Proof.
  intros Hw. unfold writeUInt32LE, gt.
  rewrite !lt_of_Z by lia.
  destruct (Z.ltb_spec 4294967295 w); [lia|].
  destruct (Z.ltb_spec w 0); [lia|]. cbn [orb].
  rewrite trunc_of_Z by lia. rewrite Z.mod_small by lia. reflexivity.
Qed.

Lemma le_bytes_shift (w : Z) :
  le_bytes w = [byte_of_Z w; byte_of_Z (Z.shiftr w 8);
                byte_of_Z (Z.shiftr w 16); byte_of_Z (Z.shiftr w 24)].
Proof. unfold le_bytes. rewrite !Z.shiftr_div_pow2 by lia. reflexivity. Qed.

Lemma readFloatLE_le_bytes (w : Z) :
  0 <= w < 2 ^ 32 -> readFloatLE (le_bytes w) = Normal (float32_of_bits w).
Proof.
  intros Hw. rewrite le_bytes_shift. unfold readFloatLE.
  rewrite !code_byte_of_Z. rewrite combine_bytes by assumption. reflexivity.
Qed.

Lemma Buffer_from_bytes (bs : list byte) :
  Buffer_from (List.map (fun b => VNumber (of_Z (code b))) bs) = Normal bs.
Proof.
  unfold Buffer_from. induction bs as [|b rest IH]; [reflexivity|].
  cbn [List.map mapM]. rewrite IH. unfold ToNumber. cbn.
  rewrite trunc_of_Z by apply code_range. rewrite byte_of_code. reflexivity.
Qed.

Section Decoder.
Import MQTTWorker.

Lemma decode_hex (s : string) :
  hex_pattern s = true -> hex_value s < 2 ^ 32 ->
  littleEndianToFloat (VString s) = Normal (float32_of_bits (hex_value s)).
Proof.
  intros Hs Hv.
  pose proof (hex_value_range s (hex_pattern_all_hex s Hs)) as [Hlo _].
  unfold littleEndianToFloat.
  rewrite (hex_pattern_no_prefix s Hs), Hs. cbn [orb].
  change (String.append "0x" s) with (String "0" (String "x" s)).
  rewrite parseInt16_0x by assumption.
  rewrite fl64_integer by (split; [assumption|]; apply Z.lt_le_trans with (2 ^ 32); [assumption|];
                           apply Z.pow_le_mono_r; lia).
  rewrite writeUInt32LE_of_Z by lia. cbn [bind].
  rewrite <- le_bytes_shift. apply readFloatLE_le_bytes. lia.
Qed.

Lemma decode_0x_hex (s : string) :
  hex_pattern s = true -> hex_value s < 2 ^ 32 ->
  littleEndianToFloat (VString (String "0" (String "x" s)))
  = Normal (float32_of_bits (hex_value s)).
Proof.
  intros Hs Hv.
  pose proof (hex_value_range s (hex_pattern_all_hex s Hs)) as [Hlo _].
  unfold littleEndianToFloat.
  rewrite startsWith_0x. cbn [orb].
  rewrite parseInt16_0x by assumption.
  rewrite fl64_integer by (split; [assumption|]; apply Z.lt_le_trans with (2 ^ 32); [assumption|];
                           apply Z.pow_le_mono_r; lia).
  rewrite writeUInt32LE_of_Z by lia. cbn [bind].
  rewrite <- le_bytes_shift. apply readFloatLE_le_bytes. lia.
Qed.

Lemma decode_buffer (w : Z) :
  0 <= w < 2 ^ 32 ->
  littleEndianToFloat (VBuffer (le_bytes w)) = Normal (float32_of_bits w).
Proof.
  intros Hw. unfold littleEndianToFloat. cbn [isBuffer length_of bytes_of].
  change (Z.of_nat (List.length (le_bytes w)) =? 4) with true. cbn [andb].
  apply readFloatLE_le_bytes. assumption.
Qed.

Lemma decode_byte_array (w : Z) :
  0 <= w < 2 ^ 32 ->
  littleEndianToFloat (byte_array (le_bytes w)) = Normal (float32_of_bits w).
Proof.
  intros Hw. unfold littleEndianToFloat, byte_array.
  cbn [isBuffer isArray length_of elems_of andb].
  rewrite length_map.
  change (Z.of_nat (List.length (le_bytes w)) =? 4) with true. cbn [andb].
  rewrite Buffer_from_bytes. cbn [bind].
  apply readFloatLE_le_bytes. assumption.
Qed.

End Decoder.

(** C1, as amended. A string of hexadecimal digits whose value [w] fits in
    32 bits decodes, with or without the [0x] prefix, to the single-precision
    float with bit pattern [w], and so do the buffer and the array holding
    the four bytes of [w] least significant first; the buffer and the array
    of any 32-bit pattern decode to its float. *)
Theorem hex_pattern_decoding (s : string) :
  hex_pattern s = true -> hex_value s < 2 ^ 32 ->
  let w := hex_value s in
  MQTTWorker.littleEndianToFloat (VString s) = Normal (float32_of_bits w)
  /\ MQTTWorker.littleEndianToFloat (VString (String.append "0x" s))
     = Normal (float32_of_bits w)
  /\ MQTTWorker.littleEndianToFloat (VBuffer (le_bytes w)) = Normal (float32_of_bits w)
  /\ MQTTWorker.littleEndianToFloat (byte_array (le_bytes w)) = Normal (float32_of_bits w)
  /\ (forall p, 0 <= p < 2 ^ 32 ->
      MQTTWorker.littleEndianToFloat (VBuffer (le_bytes p)) = Normal (float32_of_bits p)
      /\ MQTTWorker.littleEndianToFloat (byte_array (le_bytes p))
         = Normal (float32_of_bits p)).
Proof.
  intros Hs Hv w.
  assert (Hw : 0 <= w < 2 ^ 32).
  { split; [|assumption]. apply hex_value_range, hex_pattern_all_hex, Hs. }
  split; [apply decode_hex; assumption|].
  split; [apply decode_0x_hex; assumption|].
  split; [apply decode_buffer; assumption|].
  split; [apply decode_byte_array; assumption|].
  intros p Hp. split; [apply decode_buffer | apply decode_byte_array]; assumption.
Qed.

(** The pattern [41200000]: in all four shapes it decodes to 10. *)
Lemma hex_pattern_decoding_witness :
  MQTTWorker.littleEndianToFloat (VString "41200000") = Normal (of_Z 10)
  /\ MQTTWorker.littleEndianToFloat (VString "0x41200000") = Normal (of_Z 10)
  /\ MQTTWorker.littleEndianToFloat
       (VBuffer [byte_of_Z 0; byte_of_Z 0; byte_of_Z 32; byte_of_Z 65])
     = Normal (of_Z 10)
  /\ MQTTWorker.littleEndianToFloat
       (VArray [VNumber (of_Z 0); VNumber (of_Z 0); VNumber (of_Z 32); VNumber (of_Z 65)])
     = Normal (of_Z 10).
Proof.
  pose proof (hex_pattern_decoding "41200000" eq_refl eq_refl) as H.
  cbv zeta in H. destruct H as [H1 [H2 [H3 [H4 _]]]].
  split; [exact H1|]. split; [exact H2|]. split; [exact H3|exact H4].
Defined.

(** C1, as first stated, fails on nine digits: the pattern does not fit in
    32 bits and [writeUInt32LE] refuses it. *)
Lemma oversize_hex_pattern_raises :
  hex_pattern "123456789" = true
  /\ MQTTWorker.littleEndianToFloat (VString "123456789") = Throw RangeError.
Proof. split; vm_compute; reflexivity. Qed.

(** ** Rounding to the nearest double *)

Lemma fl64_unfold (neg : bool) (p q : Z) :
  0 < p ->
  fl64 neg p q
  = let e := Z.max (exponent p q) emin64 in
    let (n, d) := scaled p q e in
    let m := round_half_even n d in
    if 2 ^ (emax64 - emin64) <=? m * 2 ^ (e - emin64) then Infinity neg
    else dyadic neg m e.
Proof.
  intros Hp. unfold fl64, exponent, scaled.
  destruct (Z.leb_spec p 0); [lia|]. reflexivity.
Qed.

(** The integer nearest to a fraction, when there is no tie. *)
Lemma round_half_even_near (n d m : Z) :
  0 < d -> Z.abs (2 * (n - m * d)) < d -> round_half_even n d = m.
Proof.
  intros Hd Hnear. unfold round_half_even.
  pose proof (Z.div_mod n d ltac:(lia)) as Hdm.
  pose proof (Z.mod_pos_bound n d Hd) as Hr.
  set (qt := n / d) in *. set (r := n mod d) in *.
  destruct (Z.compare_spec (2 * r) d) as [E|L|G].
  - exfalso. assert (qt = m \/ qt < m \/ m < qt) as [->|[?|?]] by lia; nia.
  - assert (qt = m); [|assumption].
    assert (qt = m \/ qt < m \/ m < qt) as [?|[?|?]] by lia; [assumption|nia|nia].
  - assert (qt + 1 = m); [|assumption].
    assert (qt + 1 = m \/ qt + 1 < m \/ m < qt + 1) as [?|[?|?]] by lia; [assumption|nia|nia].
Qed.

Lemma round_half_even_exact (d m : Z) : 0 < d -> round_half_even (m * d) d = m.
Proof.
  intros Hd. apply round_half_even_near; [assumption|].
  replace (m * d - m * d) with 0 by ring. cbn. assumption.
Qed.

(** It is never more than half a unit away. *)
Lemma round_half_even_bound (n d : Z) :
  0 < d -> Z.abs (2 * (n - round_half_even n d * d)) <= d.
Proof.
  intros Hd. unfold round_half_even.
  pose proof (Z.div_mod n d ltac:(lia)) as Hdm.
  pose proof (Z.mod_pos_bound n d Hd) as Hr.
  set (qt := n / d) in *. set (r := n mod d) in *.
  destruct (Z.compare_spec (2 * r) d) as [E|L|G]; [destruct (Z.even qt)| |]; nia.
Qed.

Lemma scaled_pos (p q e : Z) :
  0 < p -> 0 < q -> let (n, d) := scaled p q e in 0 < n /\ 0 < d.
Proof.
  intros Hp Hq. unfold scaled.
  destruct (Z.leb_spec 0 e).
  - split; [assumption|]. apply Z.mul_pos_pos; [assumption|apply Z.pow_pos_nonneg; lia].
  - split; [|assumption]. apply Z.mul_pos_pos; [assumption|apply Z.pow_pos_nonneg; lia].
Qed.

(** Comparing the scaled fraction with a power of two, all powers brought
    to a common non-negative exponent. *)
Lemma scaled_le_iff (p q e t S : Z) :
  0 < p -> 0 < q -> 0 <= t -> 0 <= S -> 0 <= S + e ->
  let (n, d) := scaled p q e in
  2 ^ t * d <= n <-> 2 ^ (t + e + S) * q <= p * 2 ^ S.
Proof.
  intros Hp Hq Ht HS HSe. unfold scaled.
  destruct (Z.leb_spec 0 e) as [He|He].
  - replace (t + e + S) with (t + e + S) by lia.
    rewrite (Z.pow_add_r 2 (t + e) S), (Z.pow_add_r 2 t e) by lia.
    assert (0 < 2 ^ S) by (apply Z.pow_pos_nonneg; lia).
    assert (0 < 2 ^ t) by (apply Z.pow_pos_nonneg; lia).
    assert (0 < 2 ^ e) by (apply Z.pow_pos_nonneg; lia).
    split; intros; nia.
  - replace (2 ^ S) with (2 ^ (- e) * 2 ^ (S + e))
      by (rewrite <- Z.pow_add_r by lia; f_equal; lia).
    replace (t + e + S) with (t + (S + e)) by lia.
    rewrite (Z.pow_add_r 2 t (S + e)) by lia.
    assert (0 < 2 ^ (S + e)) by (apply Z.pow_pos_nonneg; lia).
    assert (0 < 2 ^ t) by (apply Z.pow_pos_nonneg; lia).
    assert (0 < 2 ^ (- e)) by (apply Z.pow_pos_nonneg; lia).
    split; intros; nia.
Qed.

(** The exponent [fl64] picks puts the fraction between 2^52 and 2^53. *)
Lemma exponent_spec (p q : Z) :
  0 < p -> 0 < q ->
  let (n, d) := scaled p q (exponent p q) in
  2 ^ 52 * d <= n < 2 ^ 53 * d.
Proof.
  intros Hp Hq. unfold exponent, prec64.
  set (a := Z.log2 p). set (b := Z.log2 q). set (e0 := a - b - 53).
  assert (Ha : 0 <= a) by apply Z.log2_nonneg.
  assert (Hb : 0 <= b) by apply Z.log2_nonneg.
  pose proof (Z.log2_spec p Hp) as Hpa. pose proof (Z.log2_spec q Hq) as Hqb.
  fold a in Hpa. fold b in Hqb.
  set (S := Z.abs e0 + 1).
  assert (HS : 0 <= S) by (unfold S; lia).
  assert (HS0 : 0 <= S + e0) by (unfold S; lia).
  assert (HS1 : 0 <= S + (e0 + 1)) by (unfold S; lia).
  assert (P2S : 0 < 2 ^ S) by (apply Z.pow_pos_nonneg; lia).
  (* the bounds that the logarithms give *)
  assert (Hlow : 2 ^ (52 + e0 + S) * q < p * 2 ^ S).
  { apply Z.lt_le_trans with (2 ^ (52 + e0 + S) * 2 ^ Z.succ b).
    - apply Z.mul_lt_mono_pos_l; [apply Z.pow_pos_nonneg; lia|lia].
    - rewrite <- Z.pow_add_r by lia.
      replace (52 + e0 + S + Z.succ b) with (a + S) by (unfold e0; lia).
      rewrite Z.pow_add_r by lia. apply Z.mul_le_mono_nonneg_r; lia. }
  assert (Hhigh : p * 2 ^ S < 2 ^ (54 + e0 + S) * q).
  { apply Z.lt_le_trans with (2 ^ Z.succ a * 2 ^ S).
    - apply Z.mul_lt_mono_pos_r; lia.
    - rewrite <- Z.pow_add_r by lia.
      replace (Z.succ a + S) with (54 + e0 + S + b) by (unfold e0; lia).
      rewrite Z.pow_add_r by lia.
      apply Z.mul_le_mono_nonneg_l; [apply Z.pow_nonneg; lia|lia]. }
  pose proof (scaled_pos p q e0 Hp Hq) as Hpos0.
  pose proof (scaled_le_iff p q e0 53 S Hp Hq ltac:(lia) HS HS0) as H53.
  pose proof (scaled_le_iff p q e0 52 S Hp Hq ltac:(lia) HS HS0) as H52.
  destruct (scaled p q e0) as [n0 d0] eqn:E0. destruct Hpos0 as [Hn0 Hd0].
  assert (Hcond : 2 ^ 53 <= n0 / d0 <-> 2 ^ 53 * d0 <= n0).
  { split; intros H.
    - pose proof (Z.mul_div_le n0 d0 Hd0). nia.
    - apply Z.div_le_lower_bound; lia. }
  destruct (Z.leb_spec (2 ^ 53) (n0 / d0)) as [Hc|Hc].
  - apply Hcond, H53 in Hc.
    pose proof (scaled_le_iff p q (e0 + 1) 52 S Hp Hq ltac:(lia) HS HS1) as G52.
    pose proof (scaled_le_iff p q (e0 + 1) 53 S Hp Hq ltac:(lia) HS HS1) as G53.
    destruct (scaled p q (e0 + 1)) as [n d].
    split.
    + apply G52. replace (52 + (e0 + 1) + S) with (53 + e0 + S) by lia. exact Hc.
    + apply Z.nle_gt. intros H. apply G53 in H.
      replace (53 + (e0 + 1) + S) with (54 + e0 + S) in H by lia. lia.
  - rewrite E0. split.
    + apply H52. lia.
    + apply Z.nle_gt. intros H. apply Hcond in H. lia.
Qed.

Lemma exponent_unique (p q e : Z) :
  0 < p -> 0 < q ->
  (let (n, d) := scaled p q e in 2 ^ 52 * d <= n < 2 ^ 53 * d) ->
  exponent p q = e.
Proof.
  intros Hp Hq He.
  pose proof (exponent_spec p q Hp Hq) as Hx.
  set (x := exponent p q) in *.
  set (S := Z.abs e + Z.abs x + 1).
  assert (HS : 0 <= S) by (unfold S; lia).
  pose proof (scaled_le_iff p q e 52 S Hp Hq ltac:(lia) HS ltac:(unfold S; lia)) as E52.
  pose proof (scaled_le_iff p q e 53 S Hp Hq ltac:(lia) HS ltac:(unfold S; lia)) as E53.
  pose proof (scaled_le_iff p q x 52 S Hp Hq ltac:(lia) HS ltac:(unfold S; lia)) as X52.
  pose proof (scaled_le_iff p q x 53 S Hp Hq ltac:(lia) HS ltac:(unfold S; lia)) as X53.
  destruct (scaled p q e) as [n d]. destruct (scaled p q x) as [n' d'].
  destruct He as [He1 He2]. destruct Hx as [Hx1 Hx2].
  apply E52 in He1. apply X52 in Hx1.
  assert (He3 : ~ 2 ^ (53 + e + S) * q <= p * 2 ^ S) by (intros H; apply E53 in H; lia).
  assert (Hx3 : ~ 2 ^ (53 + x + S) * q <= p * 2 ^ S) by (intros H; apply X53 in H; lia).
  destruct (Z.lt_trichotomy x e) as [Hlt|[Heq|Hgt]]; [|assumption|].
  - exfalso. apply Hx3.
    apply Z.le_trans with (2 ^ (52 + e + S) * q); [|assumption].
    apply Z.mul_le_mono_nonneg_r; [lia|]. apply Z.pow_le_mono_r; unfold S; lia.
  - exfalso. apply He3.
    apply Z.le_trans with (2 ^ (52 + x + S) * q); [|assumption].
    apply Z.mul_le_mono_nonneg_r; [lia|]. apply Z.pow_le_mono_r; unfold S; lia.
Qed.

(** [fl64] from its exponent and mantissa. *)
Lemma fl64_intro (neg : bool) (p q m e : Z) :
  0 < p -> 0 < q -> emin64 <= e ->
  (let (n, d) := scaled p q e in
   2 ^ 52 * d <= n < 2 ^ 53 * d /\ round_half_even n d = m) ->
  m * 2 ^ (e - emin64) < 2 ^ (emax64 - emin64) ->
  fl64 neg p q = dyadic neg m e.
Proof.
  intros Hp Hq He Hm Hfit. rewrite fl64_unfold by assumption.
  assert (Hx : exponent p q = e).
  { apply exponent_unique; try assumption. destruct (scaled p q e). tauto. }
  rewrite Hx. rewrite Z.max_l by assumption. cbv zeta.
  destruct (scaled p q e) as [n d]. destruct Hm as [_ ->].
  destruct (Z.leb_spec (2 ^ (emax64 - emin64)) (m * 2 ^ (e - emin64))); [lia|reflexivity].
Qed.

(** ** Decimal strings *)

Lemma digits_dec (a rest : string) (acc cnt : Z) :
  all_dec a = true ->
  digits decimal_digit 10 acc cnt (String.append a rest)
  = digits decimal_digit 10 (dec_fold acc a) (cnt + Z.of_nat (String.length a)) rest.
Proof.
  revert acc cnt. induction a as [|c r IH]; intros acc cnt; cbn [all_dec String.append dec_fold String.length].
  - intros _. rewrite Z.add_0_r. reflexivity.
  - cbn [digits]. destruct (decimal_digit c); [|discriminate].
    intros Hr. rewrite IH by assumption.
    replace (cnt + Z.of_nat (S (String.length r)))
      with (cnt + 1 + Z.of_nat (String.length r)) by lia.
    reflexivity.
Qed.

Lemma dec_fold_app (a b : string) (acc : Z) :
  all_dec a = true -> dec_fold acc (String.append a b) = dec_fold (dec_fold acc a) b.
Proof.
  revert acc. induction a as [|c r IH]; intros acc; cbn [all_dec String.append dec_fold].
  - reflexivity.
  - destruct (decimal_digit c); [|discriminate]. apply IH.
Qed.

Lemma all_dec_app (a b : string) :
  all_dec (String.append a b) = all_dec a && all_dec b.
Proof.
  induction a as [|c r IH]; cbn [all_dec String.append andb]; [reflexivity|].
  destruct (decimal_digit c); [apply IH|reflexivity].
Qed.

Lemma length_app (a b : string) :
  String.length (String.append a b) = (String.length a + String.length b)%nat.
Proof. induction a; cbn; [reflexivity|]. rewrite IHa. reflexivity. Qed.

Lemma zeros_spec (k : nat) :
  all_dec (zeros k) = true /\ dec_fold 0 (zeros k) = 0 /\ String.length (zeros k) = k.
Proof.
  induction k as [|k [IH1 [IH2 IH3]]]; cbn; [auto|].
  rewrite IH3. auto.
Qed.

(** The decimal text of a natural number reads back as that number. *)
Lemma uint_acc (d : Decimal.uint) (acc : positive) :
  all_dec (NilEmpty.string_of_uint d) = true
  /\ dec_fold (Z.pos acc) (NilEmpty.string_of_uint d) = Z.pos (Pos.of_uint_acc d acc).
Proof.
  revert acc. induction d; intros acc; cbn [NilEmpty.string_of_uint Pos.of_uint_acc];
    try (split; reflexivity);
    cbn [all_dec dec_fold];
    match goal with
    | |- context [decimal_digit ?c] =>
        let v := eval vm_compute in (decimal_digit c) in
        change (decimal_digit c) with v; cbv beta iota
    end;
    (split; [apply (IHd 1%positive)|]);
    match goal with
    | |- dec_fold ?a _ = Z.pos (Pos.of_uint_acc _ ?b) =>
        replace a with (Z.pos b) by lia; apply IHd
    end.
Qed.

Lemma uint_text (d : Decimal.uint) :
  all_dec (NilEmpty.string_of_uint d) = true
  /\ dec_fold 0 (NilEmpty.string_of_uint d) = Z.of_N (Pos.of_uint d).
Proof.
  induction d; cbn [NilEmpty.string_of_uint Pos.of_uint];
    try (split; reflexivity);
    cbn [all_dec dec_fold];
    match goal with
    | |- context [decimal_digit ?c] =>
        let v := eval vm_compute in (decimal_digit c) in
        change (decimal_digit c) with v; cbv beta iota
    end;
    try exact IHd;
    (split; [apply (uint_acc d 1%positive)|]);
    match goal with
    | |- dec_fold ?a _ = Z.of_N (N.pos (Pos.of_uint_acc _ ?b)) =>
        change a with (Z.pos b); apply uint_acc
    end.
Qed.

Lemma decimal_of_Z_spec (n : Z) :
  0 <= n ->
  all_dec (decimal_of_Z n) = true
  /\ dec_fold 0 (decimal_of_Z n) = n
  /\ (0 < String.length (decimal_of_Z n))%nat.
Proof.
  intros Hn. unfold decimal_of_Z, NilZero.string_of_uint.
  pose proof (DecimalN.Unsigned.of_to (Z.to_N n)) as Hrt. unfold N.of_uint in Hrt.
  destruct (N.to_uint (Z.to_N n)) as [|d|d|d|d|d|d|d|d|d|d] eqn:E;
    try (destruct (uint_text (N.to_uint (Z.to_N n))) as [H1 H2];
         rewrite E in H1, H2; rewrite Hrt in H2; rewrite Z2N.id in H2 by assumption;
         split; [exact H1|]; split; [exact H2|]; cbn; lia).
Qed.

Lemma substring_all (s : string) : String.substring 0 (String.length s) s = s.
Proof. induction s as [|c r IH]; cbn; [reflexivity|]. rewrite IH. reflexivity. Qed.

(** A string is its first [i] bytes followed by the others. *)
Lemma substring_split (s : string) (i : nat) :
  (i <= String.length s)%nat ->
  String.append (String.substring 0 i s) (String.substring i (String.length s - i) s) = s.
Proof.
  revert i. induction s as [|c r IH]; intros i Hi.
  - destruct i; cbn in *; [reflexivity|lia].
  - destruct i as [|i].
    + cbn [String.substring String.append]. rewrite Nat.sub_0_r.
      change (String.substring 0 (String.length (String c r)) (String c r) = String c r).
      apply substring_all.
    + cbn [String.substring String.append String.length Nat.sub].
      rewrite IH by (cbn in Hi; lia). reflexivity.
Qed.

Lemma substring_length (s : string) (i : nat) :
  (i <= String.length s)%nat -> String.length (String.substring 0 i s) = i.
Proof.
  revert i. induction s as [|c r IH]; intros i Hi.
  - destruct i; cbn in *; [reflexivity|lia].
  - destruct i as [|i]; cbn [String.substring String.length]; [reflexivity|].
    rewrite IH by (cbn in Hi; lia). reflexivity.
Qed.

Lemma digit_code (c : ascii) (d : Z) : decimal_digit c = Some d -> 48 <= code c <= 57.
Proof.
  unfold decimal_digit.
  destruct (Z.leb_spec 48 (code c)), (Z.leb_spec (code c) 57); cbn; try discriminate. lia.
Qed.

(** No white space to skip before a sign or a digit. *)
Lemma skip_ws_plain (c : ascii) (r : string) :
  43 <= code c <= 57 -> skip_ws (String c r) = String c r.
Proof.
  intros Hc.
  assert (E1 : (9 <=? code c) && (code c <=? 13) = false)
    by (destruct (Z.leb_spec 9 (code c)), (Z.leb_spec (code c) 13); cbn; try reflexivity; lia).
  assert (E2 : (code c =? 32) = false) by (apply Z.eqb_neq; lia).
  assert (E3 : (code c =? 194) = false) by (apply Z.eqb_neq; lia).
  assert (E4 : (code c =? 225) = false) by (apply Z.eqb_neq; lia).
  assert (E5 : (code c =? 226) = false) by (apply Z.eqb_neq; lia).
  assert (E6 : (code c =? 227) = false) by (apply Z.eqb_neq; lia).
  assert (E7 : (code c =? 239) = false) by (apply Z.eqb_neq; lia).
  destruct r as [|c2 [|c3 r3]]; cbn [skip_ws]; cbv zeta;
    rewrite ?E1, ?E2, ?E3, ?E4, ?E5, ?E6, ?E7; reflexivity.
Qed.

Lemma take_sign_digit (c : ascii) (r : string) (d : Z) :
  decimal_digit c = Some d -> take_sign (String c r) = (false, String c r).
Proof.
  destruct c as [[] [] [] [] [] [] [] []]; intros H; try discriminate H; reflexivity.
Qed.

Lemma no_infinity_digit (c : ascii) (r : string) (d : Z) :
  decimal_digit c = Some d -> startsWith (String c r) "Infinity" = false.
Proof.
  intros H. unfold startsWith. cbn [String.prefix].
  destruct (ascii_dec "I" c) as [<-|]; [discriminate H|reflexivity].
Qed.

Lemma append_empty (s : string) : String.append s EmptyString = s.
Proof. induction s; cbn; [reflexivity|f_equal; assumption]. Qed.

Lemma unsigned_point_literal (neg : bool) (a b : string) :
  all_dec a = true -> all_dec b = true -> a <> EmptyString ->
  StrUnsignedDecimalLiteral neg (String.append a (String "."%char b))
  = Some (fl64 neg (dec_fold 0 (String.append a b)) (10 ^ Z.of_nat (String.length b)),
          EmptyString).
Proof.
  intros Ha Hb Hne.
  destruct a as [|c r]; [contradiction|].
  pose proof Ha as Hall. cbn [all_dec] in Ha.
  destruct (decimal_digit c) as [d|] eqn:Hd; [|discriminate].
  unfold StrUnsignedDecimalLiteral.
  cbn [String.append]. rewrite (no_infinity_digit c _ d Hd).
  change (String c (String.append r (String "."%char b)))
    with (String.append (String c r) (String "."%char b)).
  rewrite (digits_dec (String c r) (String "."%char b) 0 0 Hall).
  cbn [digits]. change (decimal_digit ".") with (@None Z). cbv beta iota.
  rewrite <- (append_empty b) at 1.
  rewrite (digits_dec b EmptyString _ 0 Hb). cbn [digits].
  rewrite <- dec_fold_app by exact Hall.
  cbn [String.length].
  destruct (Z.eqb_spec (0 + Z.of_nat (S (String.length r))) 0); [lia|]. cbn [andb].
  rewrite Z.add_0_l.
  destruct (Z.leb_spec 0 (0 - Z.of_nat (String.length b))) as [Hz|Hz].
  - assert (Hl : String.length b = 0%nat) by lia. rewrite Hl.
    cbn. rewrite Z.mul_1_r. reflexivity.
  - replace (- (0 - Z.of_nat (String.length b))) with (Z.of_nat (String.length b)) by lia.
    reflexivity.
Qed.

(** The literal [a.b], with or without a minus sign, read by [parseFloat]:
    the integer written [ab] over ten to the number of digits of [b]. *)
Lemma parse_point_literal (neg : bool) (a b : string) :
  all_dec a = true -> all_dec b = true -> a <> EmptyString ->
  parseFloat_string
    (if neg then String "-"%char (String.append a (String "."%char b))
     else String.append a (String "."%char b))
  = fl64 neg (dec_fold 0 (String.append a b)) (10 ^ Z.of_nat (String.length b)).
Proof.
  intros Ha Hb Hne.
  pose proof (unsigned_point_literal neg a b Ha Hb Hne) as Hlit.
  unfold parseFloat_string, StrDecimalLiteral. destruct neg.
  - rewrite skip_ws_plain by (cbn; lia). cbn [take_sign]. rewrite Hlit. reflexivity.
  - destruct a as [|c r]; [contradiction|].
    cbn [all_dec] in Ha. destruct (decimal_digit c) as [d|] eqn:Hd; [|discriminate].
    cbn [String.append] in *.
    rewrite skip_ws_plain by (pose proof (digit_code c d Hd); lia).
    rewrite (take_sign_digit c _ d Hd). rewrite Hlit. reflexivity.
Qed.

(** What [toFixed(2)] writes for [n] hundredths reads back as the double
    nearest to [n/100]. *)
Lemma parse_fixed_digits (neg : bool) (n : Z) :
  0 <= n -> parseFloat_string (fixed_digits neg n 2) = fl64 neg n 100.
Proof.
  intros Hn. unfold fixed_digits.
  destruct (decimal_of_Z_spec n Hn) as [Hall [Hval Hlen]].
  set (m := decimal_of_Z n) in *.
  set (m' := if Nat.leb (String.length m) 2
             then String.append (zeros (2 + 1 - String.length m)) m else m).
  assert (Hm' : all_dec m' = true /\ dec_fold 0 m' = n /\ (3 <= String.length m')%nat).
  { unfold m'. destruct (Nat.leb_spec (String.length m) 2) as [Hk|Hk].
    - destruct (zeros_spec (2 + 1 - String.length m)) as [Z1 [Z2 Z3]].
      rewrite all_dec_app, Z1, Hall. rewrite dec_fold_app by exact Z1.
      rewrite Z2, length_app, Z3. repeat split; [assumption|lia].
    - repeat split; [assumption|assumption|lia]. }
  destruct Hm' as [Hall' [Hval' Hlen']].
  cbv zeta. fold m'.
  set (k' := String.length m') in *.
  pose proof (substring_split m' (k' - 2) ltac:(unfold k'; lia)) as Hsplit.
  fold k' in Hsplit. replace (k' - (k' - 2))%nat with 2%nat in Hsplit by lia.
  set (a := String.substring 0 (k' - 2) m') in *.
  set (b := String.substring (k' - 2) 2 m') in *.
  assert (Hla : String.length a = (k' - 2)%nat)
    by (apply substring_length; unfold k'; lia).
  assert (Hlb : String.length b = 2%nat).
  { pose proof (length_app a b) as H. rewrite Hsplit in H. fold k' in H. lia. }
  assert (Hab : all_dec a = true /\ all_dec b = true).
  { rewrite <- Hsplit, all_dec_app in Hall'. apply andb_prop in Hall'. exact Hall'. }
  destruct Hab as [Hda Hdb].
  rewrite parse_point_literal; try assumption.
  - rewrite Hsplit, Hval', Hlb. reflexivity.
  - intros E. rewrite E in Hla. cbn in Hla. lia.
Qed.

(** [toFixed] looks at the value only, not at how it is written. *)
Lemma magnitude_dyadic (neg : bool) (M E : Z) :
  0 < M ->
  let (num, den) := magnitude (dyadic neg M E) in
  is_negative (dyadic neg M E) = neg
  /\ 0 < den
  /\ exists c, 0 < c
       /\ (if 0 <=? E then (M * 2 ^ E, 1) else (M, 2 ^ (- E))) = (num * c, den * c).
Proof.
  intros HM. destruct M as [|P|P]; try lia. unfold dyadic.
  pose proof (strip_spec P E) as Hs. destruct (strip P E) as [m e].
  destruct Hs as [Hle Hm]. cbn [magnitude is_negative].
  assert (Hpw : 0 < 2 ^ (e - E)) by (apply Z.pow_pos_nonneg; lia).
  destruct (Z.leb_spec 0 e) as [He|He]; destruct (Z.leb_spec 0 E) as [HE|HE]; try lia.
  - split; [reflexivity|]. split; [lia|]. exists 1. split; [lia|].
    rewrite !Z.mul_1_r. f_equal. rewrite Hm.
    replace (2 ^ e) with (2 ^ (e - E) * 2 ^ E)
      by (rewrite <- Z.pow_add_r by lia; f_equal; lia).
    ring.
  - split; [reflexivity|]. split; [lia|]. exists (2 ^ (- E)).
    split; [apply Z.pow_pos_nonneg; lia|].
    rewrite Z.mul_1_l. f_equal. rewrite Hm.
    replace (2 ^ (e - E)) with (2 ^ e * 2 ^ (- E))
      by (rewrite <- Z.pow_add_r by lia; f_equal; lia).
    ring.
  - split; [reflexivity|]. split; [apply Z.pow_pos_nonneg; lia|]. exists (2 ^ (e - E)).
    split; [assumption|]. f_equal; [exact Hm|].
    rewrite <- Z.pow_add_r by lia. f_equal. lia.
Qed.

(** ** Rounding to two places *)

Lemma read_back_dyadic (neg : bool) (M E : Z) :
  0 < M -> read_back (dyadic neg M E) = dyadic neg M E.
Proof.
  intros HM. destruct M as [|P|P]; try lia. unfold dyadic.
  destruct (strip P E). reflexivity.
Qed.

(** [round2] of the number [±M·2^E]: the number itself from [10^21] on,
    else the double nearest to its hundredths, rounded half up, over 100. *)
Lemma round2_dyadic (neg : bool) (M E : Z) :
  0 < M ->
  let (N, D) := if 0 <=? E then (M * 2 ^ E, 1) else (M, 2 ^ (- E)) in
  round2 (dyadic neg M E)
  = if 10 ^ 21 * D <=? N then dyadic neg M E
    else fl64 neg ((200 * N + D) / (2 * D)) 100.
Proof.
  intros HM.
  pose proof (magnitude_dyadic neg M E HM) as Hmag.
  pose proof (read_back_dyadic neg M E HM) as Hrb.
  unfold round2, toFixed.
  assert (Hfin : exists m e, dyadic neg M E = Finite neg m e).
  { destruct M as [|P|P]; try lia. unfold dyadic. destruct (strip P E). eauto. }
  destruct Hfin as [m [e Hy]]. rewrite Hy in *.
  destruct (magnitude (Finite neg m e)) as [num den].
  destruct Hmag as [Hneg [Hden [c [Hc Hnd]]]].
  assert (HN : 0 < fst (if 0 <=? E then (M * 2 ^ E, 1) else (M, 2 ^ (- E)))).
  { destruct (Z.leb_spec 0 E); cbn; [|assumption].
    apply Z.mul_pos_pos; [assumption|apply Z.pow_pos_nonneg; lia]. }
  destruct (if 0 <=? E then (M * 2 ^ E, 1) else (M, 2 ^ (- E))) as [N D].
  injection Hnd as -> ->. cbn [fst] in HN.
  assert (Htest : (10 ^ 21 * (den * c) <=? num * c) = (10 ^ 21 * den <=? num)).
  { destruct (Z.leb_spec (10 ^ 21 * (den * c)) (num * c)),
             (Z.leb_spec (10 ^ 21 * den) num); try reflexivity; nia. }
  rewrite Htest.
  destruct (10 ^ 21 * den <=? num).
  - cbn [parseFloat_text]. exact Hrb.
  - cbn [parseFloat_text]. rewrite Hneg.
    change (10 ^ Z.of_nat 2) with 100.
    assert (Hnum : 0 <= num) by nia.
    rewrite parse_fixed_digits.
    + f_equal.
      replace (200 * (num * c) + den * c) with (c * (2 * num * 100 + den)) by ring.
      replace (2 * (den * c)) with (c * (2 * den)) by ring.
      rewrite Z.div_mul_cancel_l by lia. reflexivity.
    + apply Z.div_pos; lia.
Qed.

(** The double nearest to [n/100], taken apart. *)
Lemma fl64_parts (neg : bool) (n : Z) :
  1 <= n ->
  fl64 neg n 100 = Infinity neg
  \/ exists M e,
       fl64 neg n 100 = dyadic neg M e
       /\ emin64 <= e
       /\ 2 ^ 52 <= M <= 2 ^ 53
       /\ M * 2 ^ (e - emin64) < 2 ^ (emax64 - emin64)
       /\ (let (N, D) := scaled n 100 e in
           0 < D /\ 2 ^ 52 * D <= N < 2 ^ 53 * D /\ Z.abs (2 * (N - M * D)) <= D).
Proof.
  intros Hn. rewrite fl64_unfold by lia.
  pose proof (exponent_spec n 100 ltac:(lia) ltac:(lia)) as Hspec.
  set (e := exponent n 100) in *.
  assert (He : emin64 <= e).
  { unfold emin64. destruct (Z.le_gt_cases (-1074) e) as [|Hlt]; [assumption|exfalso].
    unfold scaled in Hspec. destruct (Z.leb_spec 0 e); [lia|].
    assert (2 ^ 60 <= 2 ^ (- e)) by (apply Z.pow_le_mono_r; lia).
    assert (2 ^ 53 * 100 < 2 ^ 60) by (vm_compute; reflexivity).
    nia. }
  rewrite Z.max_l by assumption. cbv zeta.
  pose proof (scaled_pos n 100 e ltac:(lia) ltac:(lia)) as Hpos.
  destruct (scaled n 100 e) as [N D] eqn:Esc. destruct Hpos as [HN HD].
  pose proof (round_half_even_bound N D HD) as Hb.
  set (M := round_half_even N D) in *.
  destruct (Z.leb_spec (2 ^ (emax64 - emin64)) (M * 2 ^ (e - emin64))); [left; reflexivity|].
  right. exists M, e. split; [reflexivity|]. split; [assumption|].
  split; [|split; [assumption|]].
  - assert (P52 : 0 < 2 ^ 52) by (vm_compute; reflexivity).
    assert (E53 : 2 ^ 53 = 2 * 2 ^ 52) by (vm_compute; reflexivity).
    split.
    + destruct (Z.le_gt_cases (2 ^ 52) M); [assumption|exfalso].
      assert (M <= 2 ^ 52 - 1) by lia. nia.
    + destruct (Z.le_gt_cases M (2 ^ 53)); [assumption|exfalso].
      assert (2 ^ 53 + 1 <= M) by lia. nia.
  - rewrite Esc. auto.
Qed.

(** Below 2^46 the hundredths of the nearest double are [n] again. *)
Lemma reround_small (neg : bool) (n M e : Z) :
  1 <= n -> 0 < M -> e <= -7 ->
  fl64 neg n 100 = dyadic neg M e ->
  (let (N, D) := scaled n 100 e in Z.abs (2 * (N - M * D)) <= D) ->
  round2 (dyadic neg M e) = dyadic neg M e.
Proof.
  intros Hn HM He Hy Hnear.
  pose proof (round2_dyadic neg M e HM) as Hr.
  unfold scaled in Hnear.
  destruct (Z.leb_spec 0 e); [lia|].
  rewrite Hr. destruct (10 ^ 21 * 2 ^ (- e) <=? M); [reflexivity|].
  rewrite <- Hy. f_equal.
  set (K := 2 ^ (- e)) in *.
  assert (HK : 128 <= K) by (apply (Z.pow_le_mono_r 2 7 (- e)); lia).
  symmetry. apply Z.div_unique with (r := 200 * M + K - 2 * K * n); lia.
Qed.

(** From 2^46 on, the hundredths rounded half up lead back to the double. *)
Lemma reround_large (neg : bool) (M e : Z) :
  2 ^ 52 <= M < 2 ^ 53 -> -6 <= e ->
  M * 2 ^ (e - emin64) < 2 ^ (emax64 - emin64) ->
  round2 (dyadic neg M e) = dyadic neg M e.
Proof.
  intros HM He Hfit.
  assert (P52 : 0 < 2 ^ 52) by (vm_compute; reflexivity).
  assert (E53 : 2 ^ 53 = 2 * 2 ^ 52) by (vm_compute; reflexivity).
  pose proof (round2_dyadic neg M e ltac:(lia)) as Hr.
  destruct (Z.leb_spec 0 e) as [Hpos|Hneg].
  - rewrite Hr. destruct (10 ^ 21 * 1 <=? M * 2 ^ e); [reflexivity|].
    assert (Hp : 0 < 2 ^ e) by (apply Z.pow_pos_nonneg; lia).
    assert (Hn' : (200 * (M * 2 ^ e) + 1) / (2 * 1) = M * (100 * 2 ^ e)).
    { symmetry. apply Z.div_unique with (r := 1); lia. }
    rewrite Hn'.
    assert (H0 : 0 < M * (100 * 2 ^ e)) by (apply Z.mul_pos_pos; lia).
    apply fl64_intro; [exact H0|lia|unfold emin64; lia| |exact Hfit].
    unfold scaled. destruct (Z.leb_spec 0 e); [|lia].
    split; [|apply round_half_even_exact; lia].
    split.
    + apply Z.mul_le_mono_nonneg_r; lia.
    + apply Z.mul_lt_mono_pos_r; lia.
  - rewrite Hr. destruct (10 ^ 21 * 2 ^ (- e) <=? M); [reflexivity|].
    set (K := 2 ^ (- e)) in *.
    assert (HK : 2 <= K <= 64).
    { split; [apply (Z.pow_le_mono_r 2 1 (- e)); lia|apply (Z.pow_le_mono_r 2 (- e) 6); lia]. }
    set (n' := (200 * M + K) / (2 * K)).
    pose proof (Z.div_mod (200 * M + K) (2 * K) ltac:(lia)) as Hdm.
    pose proof (Z.mod_pos_bound (200 * M + K) (2 * K) ltac:(lia)) as Hrem.
    fold n' in Hdm. set (r := (200 * M + K) mod (2 * K)) in *.
    assert (Hexact : M = 2 ^ 52 -> n' * K = 100 * 2 ^ 52).
    { intros ->.
      assert (EK : 2 ^ 52 = K * 2 ^ (52 + e))
        by (unfold K; rewrite <- Z.pow_add_r by lia; f_equal; lia).
      assert (0 < 2 ^ (52 + e)) by (apply Z.pow_pos_nonneg; lia).
      set (T := 2 ^ (52 + e)) in *.
      assert (n' = 100 * T) by nia. nia. }
    assert (H0 : 0 < n').
    { assert (0 < n' \/ n' <= 0) as [|] by lia; [assumption|nia]. }
    apply fl64_intro; [exact H0|lia|unfold emin64; lia| |exact Hfit].
    unfold scaled. destruct (Z.leb_spec 0 e); [lia|]. fold K.
    split.
    + destruct (Z.eq_dec M (2 ^ 52)) as [EM|NM]; [specialize (Hexact EM); nia|nia].
    + apply round_half_even_near; [lia|].
      apply Z.abs_lt. split; nia.
Qed.

Lemma normalise (neg : bool) (M e : Z) :
  2 ^ 52 <= M <= 2 ^ 53 -> emin64 <= e ->
  exists M0 e0,
    dyadic neg M e = dyadic neg M0 e0
    /\ 2 ^ 52 <= M0 < 2 ^ 53
    /\ e <= e0
    /\ M0 * 2 ^ (e0 - emin64) = M * 2 ^ (e - emin64).
Proof.
  intros HM He.
  destruct (Z.eq_dec M (2 ^ 53)) as [->|NM].
  - exists (2 ^ 52), (e + 1). split; [|split; [|split]].
    + change (2 ^ 53) with (2 ^ 52 * 2 ^ 1).
      replace e with (e + 1 - 1) at 1 by lia.
      apply dyadic_shift; [vm_compute; reflexivity|lia].
    + split; [lia|vm_compute; reflexivity].
    + lia.
    + replace (e + 1 - emin64) with (Z.succ (e - emin64)) by lia.
      rewrite Z.pow_succ_r by lia. change (2 ^ 53) with (2 ^ 52 * 2). ring.
  - exists M, e. repeat split; lia.
Qed.

(** Rounding to two places what was read from two-place digits changes
    nothing. *)
Lemma reround (neg : bool) (n : Z) :
  1 <= n -> round2 (fl64 neg n 100) = fl64 neg n 100.
Proof.
  intros Hn.
  destruct (fl64_parts neg n Hn) as [-> | [M [e [Hy [He [HM [Hfit Hsc]]]]]]];
    [destruct neg; vm_compute; reflexivity|].
  rewrite Hy.
  assert (P52 : 0 < 2 ^ 52) by (vm_compute; reflexivity).
  destruct (Z.le_gt_cases e (-7)) as [Hsmall|Hlarge].
  - apply (reround_small neg n M e); try assumption; try lia.
    destruct (scaled n 100 e). tauto.
  - destruct (normalise neg M e HM He) as [M0 [e0 [Hd [HM0 [Hle Hval]]]]].
    rewrite Hd. apply reround_large; try assumption; try lia.
Qed.

(** Rounding to two places is idempotent, up to the sign of zero. *)
Lemma round2_idempotent (x : number) : same_number (round2 (round2 x)) (round2 x).
Proof.
  unfold same_number.
  destruct x as [|neg|neg|neg m e].
  - reflexivity.
  - destruct neg; vm_compute; reflexivity.
  - destruct neg; vm_compute; reflexivity.
  - assert (Hx : round2 (Finite neg m e) = Finite neg m e
                 \/ exists n, 0 <= n /\ round2 (Finite neg m e) = fl64 neg n 100).
    { unfold round2, toFixed.
      assert (Hmag : let (num, den) := magnitude (Finite neg m e) in 0 < num /\ 0 < den).
      { cbn [magnitude]. destruct (Z.leb_spec 0 e).
        - split; [|lia]. apply Z.mul_pos_pos; [lia|apply Z.pow_pos_nonneg; lia].
        - split; [lia|apply Z.pow_pos_nonneg; lia]. }
      destruct (magnitude (Finite neg m e)) as [num den]. destruct Hmag as [Hnum Hden].
      destruct (10 ^ 21 * den <=? num); [left; reflexivity|right].
      cbn [parseFloat_text is_negative].
      exists ((2 * num * 10 ^ Z.of_nat 2 + den) / (2 * den)).
      assert (Hn : 0 <= (2 * num * 10 ^ Z.of_nat 2 + den) / (2 * den)).
      { apply Z.div_pos; [|lia]. change (10 ^ Z.of_nat 2) with 100. lia. }
      split; [exact Hn|]. apply parse_fixed_digits. exact Hn. }
    destruct Hx as [Hx | [n [Hn ->]]].
    + rewrite Hx, Hx. reflexivity.
    + destruct (Z.eq_dec n 0) as [->|Hnz].
      * destruct neg; vm_compute; reflexivity.
      * rewrite reround by lia. reflexivity.
Qed.

(** ** Device status *)

Lemma round_half_even_scale (n d c : Z) :
  0 < d -> 0 < c -> round_half_even (n * c) (d * c) = round_half_even n d.
Proof.
  intros Hd Hc. unfold round_half_even.
  rewrite Z.div_mul_cancel_r by lia.
  rewrite Zmult_mod_distr_r.
  replace (2 * (n mod d * c)) with (2 * (n mod d) * c) by ring.
  assert (E : (2 * (n mod d) * c ?= d * c) = (2 * (n mod d) ?= d)).
  { destruct (Z.compare_spec (2 * (n mod d)) d) as [H|H|H].
    - rewrite H. apply Z.compare_refl.
    - apply Z.compare_lt_iff. nia.
    - apply Z.compare_gt_iff. nia. }
  rewrite E. reflexivity.
Qed.

Lemma scaled_scale (p q e c : Z) :
  scaled (p * c) (q * c) e
  = let (n, d) := scaled p q e in (n * c, d * c).
Proof.
  unfold scaled. destruct (0 <=? e); f_equal; ring.
Qed.

(** [fl64] looks at the fraction only, not at how it is written. *)
Lemma fl64_scale (neg : bool) (p q c : Z) :
  0 < p -> 0 < q -> 0 < c -> fl64 neg (p * c) (q * c) = fl64 neg p q.
Proof.
  intros Hp Hq Hc.
  assert (Hpc : 0 < p * c) by (apply Z.mul_pos_pos; assumption).
  assert (Hqc : 0 < q * c) by (apply Z.mul_pos_pos; assumption).
  rewrite !fl64_unfold by assumption.
  assert (Hx : exponent (p * c) (q * c) = exponent p q).
  { apply exponent_unique; try assumption.
    pose proof (exponent_spec p q Hp Hq) as Hs.
    rewrite scaled_scale. destruct (scaled p q (exponent p q)) as [n d]. nia. }
  rewrite Hx. cbv zeta. rewrite scaled_scale.
  pose proof (scaled_pos p q (Z.max (exponent p q) emin64) Hp Hq) as Hpos.
  destruct (scaled p q (Z.max (exponent p q) emin64)) as [n d].
  rewrite round_half_even_scale by tauto. reflexivity.
Qed.

(** A fraction that is not tiny gets an exponent that is not low. *)
Lemma exponent_lower (p q k : Z) :
  0 < p -> 0 < q -> 0 <= k -> q <= p * 2 ^ k -> - k - 53 <= exponent p q.
Proof.
  intros Hp Hq Hk Hle.
  pose proof (exponent_spec p q Hp Hq) as Hs.
  set (e := exponent p q) in *.
  destruct (Z.le_gt_cases (- k - 53) e) as [|Hlt]; [assumption|exfalso].
  unfold scaled in Hs. destruct (Z.leb_spec 0 e); [lia|].
  assert (H2 : 2 ^ (53 + k + 1) <= 2 ^ (- e)) by (apply Z.pow_le_mono_r; lia).
  rewrite Z.pow_add_r, Z.pow_add_r in H2 by lia.
  assert (0 < 2 ^ k) by (apply Z.pow_pos_nonneg; lia).
  assert (0 < 2 ^ 53) by (vm_compute; reflexivity).
  nia.
Qed.

(** The double nearest to a fraction out of the subnormal range, taken
    apart. *)
Lemma fl64_normal (neg : bool) (p q : Z) :
  0 < p -> 0 < q -> emin64 <= exponent p q ->
  exists M,
    2 ^ 52 <= M <= 2 ^ 53
    /\ (let (N, D) := scaled p q (exponent p q) in
        0 < D /\ 2 ^ 52 * D <= N < 2 ^ 53 * D /\ Z.abs (2 * (N - M * D)) <= D)
    /\ fl64 neg p q
       = if 2 ^ (emax64 - emin64) <=? M * 2 ^ (exponent p q - emin64)
         then Infinity neg else dyadic neg M (exponent p q).
Proof.
  intros Hp Hq He. rewrite fl64_unfold by assumption.
  pose proof (exponent_spec p q Hp Hq) as Hspec.
  rewrite Z.max_l by assumption. cbv zeta.
  pose proof (scaled_pos p q (exponent p q) Hp Hq) as Hpos.
  destruct (scaled p q (exponent p q)) as [N D]. destruct Hpos as [HN HD].
  pose proof (round_half_even_bound N D HD) as Hb.
  set (M := round_half_even N D) in *.
  exists M. split; [|split; [auto|reflexivity]].
  assert (P52 : 0 < 2 ^ 52) by (vm_compute; reflexivity).
  assert (E53 : 2 ^ 53 = 2 * 2 ^ 52) by (vm_compute; reflexivity).
  split.
  - destruct (Z.le_gt_cases (2 ^ 52) M); [assumption|exfalso].
    assert (M <= 2 ^ 52 - 1) by lia. nia.
  - destruct (Z.le_gt_cases M (2 ^ 53)); [assumption|exfalso].
    assert (2 ^ 53 + 1 <= M) by lia. nia.
Qed.

(** The sign given to [fl64] is the sign of what it returns. *)
Lemma fl64_sign (neg : bool) (p q : Z) :
  fl64 neg p q = Infinity neg \/ fl64 neg p q = Zero neg
  \/ exists m e, fl64 neg p q = Finite neg m e.
Proof.
  unfold fl64. destruct (p <=? 0); [auto|]. cbv zeta.
  match goal with |- context [Z.max ?a ?b] => set (e := Z.max a b) end.
  destruct (if 0 <=? e then (p, q * 2 ^ e) else (p * 2 ^ (- e), q)) as [n d].
  set (r := round_half_even n d).
  destruct (2 ^ (emax64 - emin64) <=? r * 2 ^ (e - emin64)); [auto|].
  right. unfold dyadic. destruct r as [|m|m]; [left; reflexivity| |left; reflexivity].
  destruct (strip m e) as [m' e']. right. exists m', e'. reflexivity.
Qed.

(** [<] between a positive dyadic and a positive integer, both brought to
    a common exponent. *)
Lemma lt_dyadic (M e B S : Z) :
  0 < M -> 0 < B -> 0 <= S -> 0 <= S + e ->
  JS.lt (dyadic false M e) (of_Z B) = (M * 2 ^ (e + S) <? B * 2 ^ S).
Proof.
  intros HM HB HS HSe.
  destruct (of_Z_parts B ltac:(lia)) as [[-> _] | [b [f [-> [Hf ->]]]]]; [lia|].
  destruct M as [|P|P]; try lia. unfold dyadic.
  pose proof (strip_spec P e) as Hs. destruct (strip P e) as [m e'].
  destruct Hs as [Hle ->].
  unfold JS.lt, scaled_pair. cbv beta iota zeta.
  set (k := Z.min e' f).
  assert (Hk : 0 <= k + S) by (unfold k; lia).
  assert (P1 : 0 < 2 ^ (k + S)) by (apply Z.pow_pos_nonneg; lia).
  assert (E1 : Z.pos m * 2 ^ (e' - e) * 2 ^ (e + S)
               = Z.pos m * 2 ^ (e' - k) * 2 ^ (k + S)).
  { rewrite <- !Z.mul_assoc, <- !Z.pow_add_r by (unfold k; lia).
    do 2 f_equal. lia. }
  assert (E2 : Z.pos b * 2 ^ f * 2 ^ S = Z.pos b * 2 ^ (f - k) * 2 ^ (k + S)).
  { rewrite <- !Z.mul_assoc, <- !Z.pow_add_r by (unfold k; lia).
    do 2 f_equal. lia. }
  rewrite E1, E2.
  destruct (Z.ltb_spec (Z.pos m * 2 ^ (e' - k)) (Z.pos b * 2 ^ (f - k)));
    destruct (Z.ltb_spec (Z.pos m * 2 ^ (e' - k) * 2 ^ (k + S))
                         (Z.pos b * 2 ^ (f - k) * 2 ^ (k + S)));
    try reflexivity; nia.
Qed.

Lemma lt_infinity (B : Z) : 0 <= B -> JS.lt (Infinity false) (of_Z B) = false.
Proof.
  intros HB.
  destruct (of_Z_parts B HB) as [[_ ->] | [b [f [-> _]]]]; reflexivity.
Qed.

(** A negative number, or a zero, is below every positive integer. *)
Lemma lt_negative (x : number) (B : Z) :
  0 < B ->
  x = Infinity true \/ (exists s, x = Zero s) \/ (exists m e, x = Finite true m e) ->
  JS.lt x (of_Z B) = true.
Proof.
  intros HB Hx.
  destruct (of_Z_parts B ltac:(lia)) as [[-> _] | [b [f [-> _]]]]; [lia|].
  destruct Hx as [->|[[s ->]|[m [e ->]]]]; [reflexivity| |].
  - unfold JS.lt, scaled_pair. cbv beta iota zeta. rewrite Z.mul_0_l.
    apply Z.ltb_lt. apply Z.mul_pos_pos; [lia|apply Z.pow_pos_nonneg; lia].
  - unfold JS.lt, scaled_pair. cbv beta iota zeta.
    apply Z.ltb_lt.
    assert (0 < 2 ^ (e - Z.min e f)) by (apply Z.pow_pos_nonneg; lia).
    assert (0 < 2 ^ (f - Z.min e f)) by (apply Z.pow_pos_nonneg; lia).
    nia.
Qed.

(** A fraction that is at least the integer [B] is not rounded below it. *)
Lemma fl64_not_lt (p q B : Z) :
  0 < q -> 0 < B <= 2 ^ 53 -> B * q <= p ->
  JS.lt (fl64 false p q) (of_Z B) = false.
Proof.
  intros Hq [HB HB53] Hle.
  assert (Hp : 0 < p) by nia.
  assert (He : emin64 <= exponent p q).
  { pose proof (exponent_lower p q 0 Hp Hq ltac:(lia) ltac:(nia)). unfold emin64. lia. }
  destruct (fl64_normal false p q Hp Hq He) as [M [[HM _] [Hsc ->]]].
  set (e := exponent p q) in *.
  destruct (_ <=? _); [apply lt_infinity; lia|].
  assert (P52 : 0 < 2 ^ 52) by (vm_compute; reflexivity).
  assert (E53 : 2 ^ 53 = 2 * 2 ^ 52) by (vm_compute; reflexivity).
  rewrite (lt_dyadic M e B (Z.max 0 (- e))) by lia.
  apply Z.ltb_ge. unfold scaled in Hsc.
  destruct (Z.leb_spec 0 e) as [H0|H0].
  - rewrite Z.max_l by lia. rewrite Z.add_0_r, Z.mul_1_r.
    destruct Hsc as [HD [_ Hnear]].
    assert (Hc : e = 0 \/ 1 <= e) by lia. destruct Hc as [->|H1].
    + rewrite Z.mul_1_r in *.
      destruct (Z.le_gt_cases B M); [assumption|exfalso]. nia.
    + assert (2 ^ 1 <= 2 ^ e) by (apply Z.pow_le_mono_r; lia).
      change (2 ^ 1) with 2 in *. nia.
  - rewrite Z.max_r by lia. replace (e + - e) with 0 by lia. rewrite Z.mul_1_r.
    assert (0 < 2 ^ (- e)) by (apply Z.pow_pos_nonneg; lia).
    destruct Hsc as [HD [_ Hnear]].
    destruct (Z.le_gt_cases (B * 2 ^ (- e)) M); [assumption|exfalso]. nia.
Qed.

(** A fraction of integers below 2^53 that is under the integer [B] is
    rounded to a double under [B]. *)
Lemma fl64_lt (p q B : Z) :
  0 < p < 2 ^ 53 -> 0 < q -> 0 < B <= 2 ^ 53 -> p < B * q ->
  emin64 <= exponent p q ->
  JS.lt (fl64 false p q) (of_Z B) = true.
Proof.
  intros [Hp Hp53] Hq [HB HB53] Hlt He.
  destruct (fl64_normal false p q Hp Hq He) as [M [[HM HM53] [Hsc ->]]].
  set (e := exponent p q) in *.
  assert (P52 : 0 < 2 ^ 52) by (vm_compute; reflexivity).
  assert (E53 : 2 ^ 53 = 2 * 2 ^ 52) by (vm_compute; reflexivity).
  unfold scaled in Hsc.
  assert (He0 : e <= 0).
  { destruct (Z.le_gt_cases e 0); [assumption|exfalso].
    destruct (Z.leb_spec 0 e); [|lia].
    assert (2 ^ 1 <= 2 ^ e) by (apply Z.pow_le_mono_r; lia).
    change (2 ^ 1) with 2 in *. nia. }
  assert (Hfit : M * 2 ^ (e - emin64) < 2 ^ (emax64 - emin64)).
  { apply Z.le_lt_trans with (2 ^ 53 * 2 ^ (0 - emin64)).
    - apply Z.mul_le_mono_nonneg; [lia|lia|apply Z.pow_nonneg; lia|].
      apply Z.pow_le_mono_r; unfold emin64 in *; lia.
    - vm_compute. reflexivity. }
  destruct (Z.leb_spec (2 ^ (emax64 - emin64)) (M * 2 ^ (e - emin64))); [lia|].
  rewrite (lt_dyadic M e B (- e)) by lia.
  replace (e + - e) with 0 by lia. rewrite Z.mul_1_r.
  apply Z.ltb_lt.
  assert (HT : 0 < 2 ^ (- e)) by (apply Z.pow_pos_nonneg; lia).
  set (T := 2 ^ (- e)) in *.
  assert (Hsc' : 2 ^ 52 * q <= p * T /\ Z.abs (2 * (p * T - M * q)) <= q).
  { destruct (Z.leb_spec 0 e).
    - assert (e = 0) by lia. subst T. replace (- e) with 0 by lia.
      replace e with 0 in Hsc by lia. rewrite !Z.mul_1_r in *. tauto.
    - tauto. }
  destruct Hsc' as [Hlow Hnear].
  destruct (Z.lt_ge_cases M (B * T)) as [|Hge]; [assumption|exfalso].
  assert (H1 : (p + 1) * T <= B * q * T) by nia.
  assert (H2 : B * T * q <= M * q) by nia.
  assert (H3 : q < 2 * T) by nia.
  nia.
Qed.

(** Minutes from milliseconds: the quotient of the division by 60000, as a
    double, is below the integer [B] exactly when the milliseconds are below
    [B] minutes. *)
Lemma minutes_lt (ms B : Z) :
  0 < B <= 30 ->
  JS.lt (div (of_int ms) (of_Z (1000 * 60))) (of_Z B) = (ms <? B * 60000).
Proof.
  intros HB.
  assert (B53 : B <= 2 ^ 53).
  { apply Z.le_trans with 30; [lia|]. vm_compute. discriminate. }
  change (of_Z (1000 * 60)) with (Finite false 1875 5).
  destruct (Z.lt_trichotomy ms 0) as [Hneg|[->|Hpos]].
  - (* the age is negative *)
    destruct (Z.ltb_spec ms (B * 60000)); [|lia].
    apply lt_negative; [lia|].
    unfold of_int. destruct (Z.ltb_spec ms 0); [|lia].
    destruct (fl64_sign true (Z.abs ms) 1) as [->|[->|[m [e ->]]]].
    + left. reflexivity.
    + right. left. exists true. reflexivity.
    + unfold div. cbv zeta.
      destruct (magnitude (Finite true m e)) as [nx dx].
      destruct (magnitude (Finite false 1875 5)) as [ny dy].
      change (xorb true false) with true.
      destruct (fl64_sign true (nx * dy) (dx * ny)) as [->|[->|[m' [e' ->]]]];
        [left; reflexivity|right; left; exists true; reflexivity|].
      right. right. exists m', e'. reflexivity.
  - destruct (Z.ltb_spec 0 (B * 60000)); [|lia].
    apply lt_negative; [lia|]. right. left. exists false. reflexivity.
  - destruct (Z.lt_ge_cases ms (2 ^ 53)) as [Hsmall|Hbig].
    + (* the age is a double *)
      unfold of_int. destruct (Z.ltb_spec ms 0); [lia|].
      rewrite Z.abs_eq by lia. rewrite fl64_integer by lia.
      rewrite of_Z_nonneg by lia.
      pose proof (magnitude_dyadic false ms 0 Hpos) as Hm.
      assert (Hd : exists m e, dyadic false ms 0 = Finite false m e).
      { unfold dyadic. destruct ms as [|P|P]; try lia.
        destruct (strip P 0) as [m e]. exists m, e. reflexivity. }
      destruct Hd as [m [e Hd]]. rewrite Hd in *.
      unfold div. destruct (magnitude (Finite false m e)) as [nx dx].
      destruct Hm as [_ [Hdx [c [Hc Hpair]]]].
      change (0 <=? 0) with true in Hpair. cbv iota in Hpair.
      change (2 ^ 0) with 1 in Hpair. rewrite Z.mul_1_r in Hpair.
      injection Hpair as Hn Hone.
      assert (c = 1 /\ dx = 1) as [-> ->] by nia.
      rewrite Z.mul_1_r in Hn. subst nx.
      change (magnitude (Finite false 1875 5)) with (60000, 1).
      cbv beta iota zeta. change (xorb false false) with false.
      rewrite Z.mul_1_r, Z.mul_1_l.
      destruct (Z.ltb_spec ms (B * 60000)).
      * apply fl64_lt; try lia.
        assert (P16 : 60000 <= ms * 2 ^ 16).
        { change (2 ^ 16) with 65536. lia. }
        pose proof (exponent_lower ms 60000 16 Hpos ltac:(lia) ltac:(lia) P16).
        unfold emin64. lia.
      * apply fl64_not_lt; lia.
    + (* the age is beyond the integers that are doubles *)
      assert (V53 : 2 ^ 53 = 9007199254740992) by (vm_compute; reflexivity).
      destruct (Z.ltb_spec ms (B * 60000)); [lia|].
      unfold of_int. destruct (Z.ltb_spec ms 0); [lia|].
      rewrite Z.abs_eq by lia.
      assert (He : 1 <= exponent ms 1).
      { pose proof (exponent_spec ms 1 Hpos ltac:(lia)) as Hs.
        destruct (Z.le_gt_cases 1 (exponent ms 1)); [assumption|exfalso].
        unfold scaled in Hs. destruct (Z.leb_spec 0 (exponent ms 1)).
        - replace (exponent ms 1) with 0 in Hs by lia. cbn in Hs. lia.
        - assert (0 < 2 ^ (- exponent ms 1)) by (apply Z.pow_pos_nonneg; lia).
          nia. }
      destruct (fl64_normal false ms 1 Hpos ltac:(lia) ltac:(unfold emin64; lia))
        as [M [[HM _] [_ ->]]].
      set (e := exponent ms 1) in *.
      destruct (_ <=? _).
      { change (div (Infinity false) (Finite false 1875 5)) with (Infinity false).
        apply lt_infinity. lia. }
      assert (HM0 : 0 < M) by lia.
      pose proof (magnitude_dyadic false M e HM0) as Hm.
      assert (Hd : exists m' e', dyadic false M e = Finite false m' e').
      { unfold dyadic. destruct M as [|P|P]; try lia.
        destruct (strip P e) as [m' e']. exists m', e'. reflexivity. }
      destruct Hd as [m' [e' Hd]]. rewrite Hd in *.
      unfold div. destruct (magnitude (Finite false m' e')) as [nx dx].
      destruct Hm as [_ [Hdx [c [Hc Hpair]]]].
      destruct (Z.leb_spec 0 e); [|lia].
      injection Hpair as Hn Hone.
      assert (c = 1 /\ dx = 1) as [-> ->] by nia.
      rewrite Z.mul_1_r in Hn. subst nx.
      change (magnitude (Finite false 1875 5)) with (60000, 1).
      cbv beta iota zeta. change (xorb false false) with false.
      rewrite Z.mul_1_r, Z.mul_1_l.
      apply fl64_not_lt; [lia|lia|].
      assert (2 ^ 1 <= 2 ^ e) by (apply Z.pow_le_mono_r; lia).
      change (2 ^ 1) with 2 in *. nia.
Qed.

Lemma route_status_of_age (now : Z) (device : device_view) :
  DevicesRoute.getDeviceStatus now device = status_of_age (age_of now device).
Proof.
  unfold DevicesRoute.getDeviceStatus, age_of, status_of_age.
  destruct (latestReading device) as [timestamp|]; [|reflexivity].
  cbv zeta. rewrite !minutes_lt by lia. reflexivity.
Qed.

Lemma page_status_of_age (now : Z) (device : device_view) :
  DevicesPage.getDeviceStatus now device = status_of_age (age_of now device).
Proof. exact (route_status_of_age now device). Qed.

(** C3. In the devices route and in the devices page alike, the status of a
    device is online when its age is below 5 minutes, warning from 5 minutes
    on and below 30, offline from 30 minutes on, and offline when it has no
    reading; a device last seen 4m59s, 5m, 29m59s and 30m ago is online,
    warning, warning and offline. *)
Theorem getDeviceStatus_thresholds (now : Z) (device : device_view) :
  DevicesRoute.getDeviceStatus now device = status_of_age (age_of now device)
  /\ DevicesPage.getDeviceStatus now device = status_of_age (age_of now device)
  /\ status_of_age None = offline
  /\ (let seen := 1700000000000 in
      let device := {| lastSeen := Some seen; latestReading := Some seen |} in
      DevicesRoute.getDeviceStatus (seen + 299000) device = online
      /\ DevicesRoute.getDeviceStatus (seen + 300000) device = warning
      /\ DevicesRoute.getDeviceStatus (seen + 1799000) device = warning
      /\ DevicesRoute.getDeviceStatus (seen + 1800000) device = offline
      /\ DevicesPage.getDeviceStatus (seen + 299000) device = online
      /\ DevicesPage.getDeviceStatus (seen + 300000) device = warning
      /\ DevicesPage.getDeviceStatus (seen + 1799000) device = warning
      /\ DevicesPage.getDeviceStatus (seen + 1800000) device = offline).
Proof.
  split; [apply route_status_of_age|].
  split; [apply page_status_of_age|].
  split; [reflexivity|].
  vm_compute. repeat split.
Qed.

(** ** Rounding and the fallback of the decoder *)

Section Decoding.
Import MQTTWorker.

(** When the three fields decode, the result holds their roundings. *)
Lemma decode_rounds (data : value) (t h p : number) :
  littleEndianToFloat (get data "temp") = Normal t ->
  littleEndianToFloat (get data "hum") = Normal h ->
  littleEndianToFloat (get data "pm2.5") = Normal p ->
  decodeLittleEndianData data
  = Normal {| temperature := round2 t; humidity := round2 h; pm25 := round2 p |}.
Proof.
  intros Ht Hh Hp. unfold decodeLittleEndianData. rewrite Ht, Hh, Hp. reflexivity.
Qed.

(** When one of them raises, the result holds what [parseFloat] reads of the
    raw fields, 0 standing in for NaN. *)
Lemma decode_falls_back (data : value) :
  (exists e, (temperature <- littleEndianToFloat (get data "temp") ;;
              humidity <- littleEndianToFloat (get data "hum") ;;
              littleEndianToFloat (get data "pm2.5")) = Throw e) ->
  decodeLittleEndianData data
  = (t <- parseFloat (get data "temp") ;;
     h <- parseFloat (get data "hum") ;;
     p <- parseFloat (get data "pm2.5") ;;
     Normal {| temperature := or_zero t; humidity := or_zero h; pm25 := or_zero p |}).
Proof.
  intros [e He]. unfold decodeLittleEndianData.
  destruct (littleEndianToFloat (get data "temp")) as [t|]; [|reflexivity].
  cbn [bind] in He |- *.
  destruct (littleEndianToFloat (get data "hum")) as [h|]; [|reflexivity].
  cbn [bind] in He |- *. rewrite He. reflexivity.
Qed.

(** The decoder returns whenever its three fields have a string. *)
Lemma decode_total (data : value) :
  stringifies (get data "temp") = true ->
  stringifies (get data "hum") = true ->
  stringifies (get data "pm2.5") = true ->
  exists d, decodeLittleEndianData data = Normal d.
Proof.
  intros Ht Hh Hp. unfold decodeLittleEndianData, parseFloat.
  rewrite Ht, Hh, Hp.
  destruct (littleEndianToFloat (get data "temp")) as [t|]; cbn; [|eauto].
  destruct (littleEndianToFloat (get data "hum")) as [h|]; cbn; [|eauto].
  destruct (littleEndianToFloat (get data "pm2.5")) as [p|]; cbn; eauto.
Qed.

Lemma decode_unrecognised (v : value) :
  unrecognised v -> v <> VUndefined /\ littleEndianToFloat v = Normal pos_zero.
Proof.
  intros [ | b | props | s [Hx [Hp Hn]]]; (split; [discriminate|]); try reflexivity.
  unfold littleEndianToFloat. rewrite Hx, Hp, Hn. reflexivity.
Qed.

End Decoding.

(** C2, at the input where the code departs from it. With [temp] the number
    25.125 and [hum] the string [123456789], the decoding of [hum] raises and
    the fallback keeps [temp] as 25.125, which is what the handler stores,
    while 25.125 decoded and rounded to two places is 25.13.  The rest of the
    claim holds: rounding a rounded value again gives the same number, and on
    the path without exception each field is the rounding of its decoded
    value. *)
Theorem fallback_skips_rounding :
  MQTTWorker.littleEndianToFloat (get oversize_hum_data "temp") = Normal n25_125
  /\ MQTTWorker.littleEndianToFloat (get oversize_hum_data "hum") = Throw RangeError
  /\ MQTTWorker.decodeLittleEndianData oversize_hum_data
     = Normal {| temperature := n25_125;
                 humidity := of_Z 123456789;
                 pm25 := of_Z 1 |}
  /\ round2 n25_125 = fl64 false 2513 100
  /\ round2 n25_125 <> n25_125
  /\ (forall x, same_number (round2 (round2 x)) (round2 x))
  /\ (forall JSON_parse io c topic message w,
        expected_topic topic ->
        JSON_parse message = Some (VObject [("data", oversize_hum_data)]) ->
        MQTTWorker.telemetry_saves c = true ->
        exists reading,
          MQTTWorker.readings (MQTTWorker.handleMessage JSON_parse io c topic message w)
          = (MQTTWorker.readings w ++ [reading])%list
          /\ temperature (Telemetry.data reading) = n25_125)
  /\ (forall data t h p,
        MQTTWorker.littleEndianToFloat (get data "temp") = Normal t ->
        MQTTWorker.littleEndianToFloat (get data "hum") = Normal h ->
        MQTTWorker.littleEndianToFloat (get data "pm2.5") = Normal p ->
        MQTTWorker.decodeLittleEndianData data
        = Normal {| temperature := round2 t; humidity := round2 h; pm25 := round2 p |}).
Proof.
  assert (Hdec : MQTTWorker.decodeLittleEndianData oversize_hum_data
                 = Normal {| temperature := n25_125;
                             humidity := of_Z 123456789;
                             pm25 := of_Z 1 |}) by (vm_compute; reflexivity).
  split; [reflexivity|].
  split; [vm_compute; reflexivity|].
  split; [exact Hdec|].
  split; [vm_compute; reflexivity|].
  split; [vm_compute; discriminate|].
  split; [exact round2_idempotent|].
  split; [|exact decode_rounds].
  intros JSON_parse io c topic message w Htopic Hparse Hsave.
  pose proof (handleMessage_accepted JSON_parse io c topic message
                (VObject [("data", oversize_hum_data)])
                {| temperature := n25_125; humidity := of_Z 123456789; pm25 := of_Z 1 |} w)
    as H.
  cbv zeta in H. destruct H as [reading [Hcreate [Hr _]]].
  { split; [exact Htopic|]. split; [exact Hparse|].
    split; [apply validatePayload_shape; reflexivity|].
    split; [exact Hdec|]. split; [|exact Hsave].
    unfold schema_casts. cbn. discriminate. }
  exists reading. split; [exact Hr|].
  apply create_fields in Hcreate as [_ [-> _]]. reflexivity.
Qed.

(** C8, at the input where the code departs from it. With [temp] the string
    [123456789] and [hum] an object that has a [toString] entry, the body
    passes validation, the decoding of [temp] raises, and the fallback raises
    in turn on [hum]: the decoder returns no number (the handler then drops
    the message).  On fields that have a string the decoder always returns. *)
Theorem decoder_raises :
  MQTTWorker.validatePayload (VObject [("data", shadowed_hum_data)]) = true
  /\ MQTTWorker.littleEndianToFloat (get shadowed_hum_data "temp") = Throw RangeError
  /\ parseFloat (get shadowed_hum_data "hum") = Throw TypeError
  /\ MQTTWorker.decodeLittleEndianData shadowed_hum_data = Throw TypeError
  /\ (forall JSON_parse io c topic message w,
        JSON_parse message = Some (VObject [("data", shadowed_hum_data)]) ->
        MQTTWorker.handleMessage JSON_parse io c topic message w = w)
  /\ (forall data,
        stringifies (get data "temp") = true ->
        stringifies (get data "hum") = true ->
        stringifies (get data "pm2.5") = true ->
        exists d, MQTTWorker.decodeLittleEndianData data = Normal d).
Proof.
  split; [reflexivity|].
  split; [vm_compute; reflexivity|].
  split; [reflexivity|].
  split; [vm_compute; reflexivity|].
  split; [|exact decode_total].
  intros JSON_parse io c topic message w Hparse.
  unfold MQTTWorker.handleMessage. rewrite Hparse.
  destruct (negb _ || _ || _); [reflexivity|].
  change (MQTTWorker.validatePayload (VObject [("data", shadowed_hum_data)])) with true.
  cbn [negb].
  change (get (VObject [("data", shadowed_hum_data)]) "data") with shadowed_hum_data.
  replace (MQTTWorker.decodeLittleEndianData shadowed_hum_data) with (@Throw sensor_data TypeError)
    by (vm_compute; reflexivity).
  reflexivity.
Qed.

(** C10, as amended.  The validator accepts exactly the objects whose [data]
    is an object holding [temp], [hum] and [pm2.5]; null, booleans, objects
    and strings in no recognised encoding (no [0x] in front, not made of
    hexadecimal digits, no number at their head) are such field values and
    decode to 0; and a message with an expected topic and three such fields,
    once the schema can cast the rest of it and the collection takes it, is
    stored as a reading with three zeros. *)
Theorem validation_is_presence_only :
  (forall payload, MQTTWorker.validatePayload payload = true <-> expected_payload payload)
  /\ (forall v, unrecognised v ->
        v <> VUndefined /\ MQTTWorker.littleEndianToFloat v = Normal pos_zero)
  /\ (forall JSON_parse io c topic message props fields t h p w,
        expected_topic topic ->
        JSON_parse message = Some (VObject props) ->
        lookup "data" props = Some (VObject fields) ->
        lookup "temp" fields = Some t -> unrecognised t ->
        lookup "hum" fields = Some h -> unrecognised h ->
        lookup "pm2.5" fields = Some p -> unrecognised p ->
        schema_casts (deviceId_of topic) (VObject props) all_zero ->
        MQTTWorker.telemetry_saves c = true ->
        MQTTWorker.validatePayload (VObject props) = true
        /\ exists reading,
            MQTTWorker.readings (MQTTWorker.handleMessage JSON_parse io c topic message w)
            = (MQTTWorker.readings w ++ [reading])%list
            /\ Telemetry.data reading = all_zero).
Proof.
  split; [exact validatePayload_shape|].
  split; [exact decode_unrecognised|].
  intros JSON_parse io c topic message props fields t h p w
    Htopic Hparse Hdata Ht Ut Hh Uh Hp Up Hcast Hsave.
  destruct (decode_unrecognised t Ut) as [Nt Dt].
  destruct (decode_unrecognised h Uh) as [Nh Dh].
  destruct (decode_unrecognised p Up) as [Np Dp].
  assert (Hshape : expected_payload (VObject props)).
  { exists props, fields, t, h, p. repeat split; assumption. }
  split; [apply validatePayload_shape; exact Hshape|].
  assert (Hget : get (VObject props) "data" = VObject fields)
    by (cbn; rewrite Hdata; reflexivity).
  assert (Hdec : MQTTWorker.decodeLittleEndianData (get (VObject props) "data")
                 = Normal all_zero).
  { rewrite Hget.
    rewrite (decode_rounds (VObject fields) pos_zero pos_zero pos_zero).
    - reflexivity.
    - cbn. rewrite Ht. exact Dt.
    - cbn. rewrite Hh. exact Dh.
    - cbn. rewrite Hp. exact Dp. }
  pose proof (handleMessage_accepted JSON_parse io c topic message (VObject props)
                all_zero w) as H.
  cbv zeta in H. destruct H as [reading [Hcreate [Hr _]]].
  { repeat split; assumption. }
  exists reading. split; [exact Hr|].
  apply create_fields in Hcreate as [_ [-> _]]. reflexivity.
Qed.

(** A null, a boolean and a string that is no number, as the three
    fields. *)
Lemma validation_is_presence_only_witness :
  MQTTWorker.validatePayload
    (VObject [("data", VObject [("temp", VNull); ("hum", VBool true);
                                ("pm2.5", VString "n/a")])])
  = true
  /\ exists reading,
      MQTTWorker.readings
        (MQTTWorker.handleMessage
           (parses_to (VObject [("data", VObject [("temp", VNull); ("hum", VBool true);
                                                  ("pm2.5", VString "n/a")])]))
           true calm sample_topic "(a body with no number in it)" empty_world)
      = [reading]
      /\ Telemetry.data reading = all_zero.
Proof.
  destruct validation_is_presence_only as [_ [_ H]].
  apply (H (parses_to (VObject [("data", VObject [("temp", VNull); ("hum", VBool true);
                                                  ("pm2.5", VString "n/a")])]))
           true calm sample_topic "(a body with no number in it)"
           [("data", VObject [("temp", VNull); ("hum", VBool true);
                              ("pm2.5", VString "n/a")])]
           [("temp", VNull); ("hum", VBool true); ("pm2.5", VString "n/a")]
           VNull (VBool true) (VString "n/a") empty_world).
  - exists EmptyString, "dev1". reflexivity.
  - reflexivity.
  - reflexivity.
  - reflexivity.
  - constructor.
  - reflexivity.
  - constructor.
  - reflexivity.
  - constructor. repeat split; vm_compute; reflexivity.
  - unfold schema_casts. vm_compute. discriminate.
  - reflexivity.
Defined.

(** A string of hexadecimal letters is no number for [parseFloat], and is
    not decoded to 0: [deadbeef] is read as the pattern of the float
    -6259853398707798016, which is what the handler stores. *)
Lemma hex_letters_are_a_pattern :
  parseFloat_string "deadbeef" = NaN
  /\ MQTTWorker.validatePayload (VObject [("data", hex_letters_data)]) = true
  /\ MQTTWorker.littleEndianToFloat (VString "deadbeef")
     = Normal (of_Z (-6259853398707798016))
  /\ exists reading,
      MQTTWorker.readings
        (MQTTWorker.handleMessage (parses_to (VObject [("data", hex_letters_data)])) true
           calm sample_topic "(a body with hexadecimal letters)" empty_world)
      = [reading]
      /\ temperature (Telemetry.data reading) = of_Z (-6259853398707798016)
      /\ temperature (Telemetry.data reading) <> pos_zero.
Proof.
  split; [reflexivity|]. split; [reflexivity|]. split; [vm_compute; reflexivity|].
  eexists. split; [vm_compute; reflexivity|]. split; [reflexivity|discriminate].
Qed.

(** ** Sample runs *)

Lemma sample_casts : schema_casts "dev1" sample_payload sample_data.
Proof. unfold schema_casts. vm_compute. discriminate. Defined.

Lemma anonymous_casts : schema_casts "dev1" anonymous_payload sample_data.
Proof. unfold schema_casts. vm_compute. discriminate. Defined.

Lemma sample_accepted (payload : value) (message : string) :
  get payload "data" = sample_fields ->
  schema_casts "dev1" payload sample_data ->
  accepted (parses_to payload) calm sample_topic message payload sample_data.
Proof.
  intros Hdata Hcast. unfold accepted.
  split; [exists EmptyString, "dev1"; reflexivity|].
  split; [reflexivity|].
  split.
  - apply validatePayload_shape. unfold MQTTWorker.validatePayload.
    rewrite Hdata. destruct payload; try discriminate; reflexivity.
  - rewrite Hdata. split; [vm_compute; reflexivity|]. split; [exact Hcast|reflexivity].
Defined.

Lemma invalid_topic_ignored_witness :
  MQTTWorker.handleMessage (parses_to sample_payload) true calm
    "/application/in/dev1" "(the text of the sample body)" empty_world = empty_world
  /\ MQTTWorker.handleMessage (parses_to sample_payload) true calm
       "application/out/dev1" "(the text of the sample body)" empty_world = empty_world.
Proof.
  split; apply invalid_topic_ignored; intros [first [id H]]; discriminate H.
Defined.

Lemma invalid_body_ignored_witness :
  MQTTWorker.handleMessage parse_fails true calm sample_topic "{ temp: " empty_world
  = empty_world
  /\ MQTTWorker.handleMessage (parses_to partial_payload) true calm sample_topic
       "(a body without hum)" empty_world = empty_world.
Proof.
  split; apply invalid_body_ignored.
  - left. reflexivity.
  - right. exists partial_payload. split; [reflexivity|].
    intros H. apply validatePayload_shape in H. discriminate H.
Defined.

Lemma stored_uid_witness :
  (exists reading,
      MQTTWorker.readings
        (MQTTWorker.handleMessage (parses_to sample_payload) true calm sample_topic
           "(the text of the sample body)" empty_world)
      = ([] ++ [reading])%list
      /\ Telemetry.uid reading = "sensor-7"
      /\ Telemetry.deviceId reading = "dev1")
  /\ (exists reading,
        MQTTWorker.readings
          (MQTTWorker.handleMessage (parses_to anonymous_payload) true calm sample_topic
             "(the same without uid)" empty_world)
        = ([] ++ [reading])%list
        /\ Telemetry.uid reading = "dev1"
        /\ Telemetry.deviceId reading = "dev1").
Proof.
  split.
  - destruct (stored_uid (parses_to sample_payload) true calm sample_topic
                "(the text of the sample body)" sample_payload sample_data empty_world
                (sample_accepted sample_payload _ eq_refl sample_casts))
      as [reading [Hr [_ [Hstring [_ [Hid _]]]]]].
    exists reading. split; [exact Hr|].
    split; [apply (Hstring "sensor-7"); [reflexivity|discriminate]|exact Hid].
  - destruct (stored_uid (parses_to anonymous_payload) true calm sample_topic
                "(the same without uid)" anonymous_payload sample_data empty_world
                (sample_accepted anonymous_payload _ eq_refl anonymous_casts))
      as [reading [Hr [_ [_ [Hfalsy [Hid _]]]]]].
    exists reading. split; [exact Hr|].
    split; [apply Hfalsy; reflexivity|exact Hid].
Defined.

(** A body whose [uid] is the number 5: the stored [uid] is the string [5],
    not the payload's value. *)
Lemma numeric_uid_is_cast :
  truthy (get numeric_uid_payload "uid") = true
  /\ exists reading,
      MQTTWorker.readings
        (MQTTWorker.handleMessage (parses_to numeric_uid_payload) true calm sample_topic
           "(a body with the uid 5)" empty_world)
      = [reading]
      /\ Telemetry.uid reading = "5"
      /\ VString (Telemetry.uid reading) <> get numeric_uid_payload "uid".
Proof.
  split; [reflexivity|].
  eexists. split; [vm_compute; reflexivity|]. split; [reflexivity|discriminate].
Qed.

Lemma empty_world_ok : world_ok empty_world.
Proof. split; constructor. Defined.

(** The sample body handled twice, each time with nothing else going on:
    the first call creates the device (seen at 1007), the second finds it
    and moves [lastSeen] on. *)
Lemma one_device_per_uid_witness :
  let p :=
    MQTTWorker.execute (parses_to sample_payload) true
      (MQTTWorker.alone calm sample_topic "(the text of the sample body)" 0)
      (idle empty_world) in
  let p' :=
    MQTTWorker.execute (parses_to sample_payload) true
      (MQTTWorker.alone calm sample_topic "(the text of the sample body)" 1) p in
  NoDup (List.map Device.uid (MQTTWorker.devices (MQTTWorker.state p')))
  /\ List.map Device.uid (MQTTWorker.devices (MQTTWorker.state p')) = ["dev1"]
  /\ exists d,
      Device.findOne "dev1" (MQTTWorker.devices (MQTTWorker.state p')) = Some d
      /\ Device.name d = "Device dev1"
      /\ Device.isActive d = true
      /\ 1007 <= Device.lastSeen d.
Proof.
  pose proof (one_device_per_uid (parses_to sample_payload) true
                (MQTTWorker.alone calm sample_topic "(the text of the sample body)" 0)
                empty_world empty_world_ok) as H.
  cbv zeta in H. destruct H as [_ H].
  specialize (H calm sample_topic "(the text of the sample body)" sample_payload
                sample_data (sample_accepted sample_payload _ eq_refl sample_casts)
                eq_refl).
  destruct H as [Hnd H].
  cbv zeta. split; [exact Hnd|].
  vm_compute in H. destruct H as [Huids [d [Hfind [Hname [Hact Hseen]]]]].
  split; [exact Huids|].
  exists d. split; [exact Hfind|]. split; [exact Hname|]. split; [exact Hact|exact Hseen].
Defined.

(** Where the code departs from C5 as it was stated.  A device identifier
    with a space in front: the device gets the identifier trimmed as its
    [uid], and a name that is not [Device <uid>].  And two calls for one
    device that overlap, the database writing what the second asked before
    what the first asked: [lastSeen] goes from 1022 back to 1017. *)
Lemma name_and_lastSeen_departures :
  (exists d,
      MQTTWorker.devices
        (MQTTWorker.handleMessage (parses_to sample_payload) true calm
           "/application/out/ dev1" "(the text of the sample body)" empty_world)
      = [d]
      /\ Device.uid d = "dev1"
      /\ Device.name d = "Device  dev1"
      /\ Device.name d <> String.append "Device " (Device.uid d))
  /\ (let p :=
        MQTTWorker.execute (parses_to sample_payload) true two_calls_overlapping
          (idle seen_once) in
      let p' := MQTTWorker.occur (parses_to sample_payload) true p
                  (calm, MQTTWorker.Advances 0) in
      exists d d',
        Device.findOne "dev1" (MQTTWorker.devices (MQTTWorker.state p)) = Some d
        /\ Device.findOne "dev1" (MQTTWorker.devices (MQTTWorker.state p')) = Some d'
        /\ Device.lastSeen d = 1022
        /\ Device.lastSeen d' = 1017).
Proof.
  split.
  - eexists. split; [vm_compute; reflexivity|].
    split; [reflexivity|]. split; [reflexivity|discriminate].
  - cbv zeta. eexists. eexists.
    split; [vm_compute; reflexivity|]. split; [vm_compute; reflexivity|].
    split; reflexivity.
Qed.

(* ================================================================== *)
(** * Further properties *)
(* ================================================================== *)

(** ** Further properties of the worker *)

(** *** What the message handler emits and keeps *)

Section Emissions.
Import MQTTWorker.
Variable JSON_parse : string -> option value.

Lemma updateDevice_found c id payload w firmware :
  registry_answers c = true ->
  Schema.castString (or_else (get payload "fw") (VString "unknown")) = Some firmware ->
  exists d, Device.findOne id (devices (updateDevice c id payload w)) = Some d
            /\ Device.lastSeen d = clock (updateDevice c id payload w)
            /\ Device.uid d = trim id.
Proof.
  intros Hreg Hfw.
  pose proof (updateDevice_upsert c id payload w firmware Hreg Hfw) as H.
  cbv zeta in H.
  destruct (Device.findOne id (devices w)) as [old|] eqn:Hfind.
  - destruct H as [_ [d [Hd [Huid [_ [_ [_ [_ [_ [Hseen _]]]]]]]]]].
    exists d. split; [exact Hd|]. split; [exact Hseen|].
    rewrite Huid. apply (findOne_some _ _ _ Hfind).
  - destruct H as [d [Hd [Huid [_ [_ [_ Hseen]]]]]].
    exists d. split; [|split; [exact Hseen|exact Huid]].
    rewrite Hd, findOne_app, Hfind. unfold Device.findOne. cbn.
    rewrite Huid, String.eqb_refl. reflexivity.
Qed.

Lemma handleMessage_silent c topic message w :
  emitted (handleMessage JSON_parse false c topic message w) = emitted w.
Proof.
  unfold handleMessage.
  destruct (negb _ || _ || _); [reflexivity|].
  destruct (JSON_parse message) as [payload|]; [|reflexivity].
  destruct (validatePayload payload); cbn [negb]; [|reflexivity].
  destruct (decodeLittleEndianData _) as [data|]; [|reflexivity].
  destruct (Telemetry.create _) as [telemetry|]; [|reflexivity].
  destruct (telemetry_saves c); [|reflexivity].
  rewrite updateDevice_emitted. reflexivity.
Qed.

(** What an accepted message emits, with a socket server at hand. *)
Lemma handleMessage_emits c topic message payload data w :
  accepted JSON_parse c topic message payload data ->
  let id := deviceId_of topic in
  let w' := handleMessage JSON_parse true c topic message w in
  exists reading announced,
    readings w' = (readings w ++ [reading])%list
    /\ emitted w'
       = (emitted w
          ++ [TelemetryNew id (Telemetry.toAPIResponse reading);
              DeviceUpdate id announced])%list
    /\ Telemetry.receivedAt reading <= announced
    /\ (registry_answers c = true ->
        exists d, Device.findOne id (devices w') = Some d
                  /\ Device.lastSeen d <= announced)
    /\ (registry_answers c = false -> devices w' = devices w).
Proof.
  intros Hacc. cbv zeta.
  pose proof (handleMessage_accepted JSON_parse true c topic message payload data w Hacc)
    as H.
  cbv zeta in H. destruct H as [reading [Hcreate [Hr [Hd He]]]].
  destruct Hacc as [_ [_ [_ [_ [Hcast _]]]]].
  destruct (schema_casts_create _ _ _ Hcast) as [uid [fw [tts [_ [Hfw _]]]]].
  apply create_fields in Hcreate as [_ [_ [_ [Hreceived _]]]].
  cbn [telemetryData Telemetry.f_receivedAt] in Hreceived.
  match type of Hd with
  | _ = devices (updateDevice c ?id payload ?w1) =>
      pose proof (updateDevice_clock c id payload w1) as Hclock;
      pose proof (updateDevice_found c id payload w1 fw) as Hfound
  end.
  cbn [clock] in Hclock.
  eexists reading, _. split; [exact Hr|]. split; [exact He|].
  split; [rewrite Hreceived; lia|]. split.
  - intros Hreg. destruct (Hfound Hreg Hfw) as [d [Hfind [Hseen _]]].
    exists d. rewrite Hd. split; [exact Hfind|]. rewrite Hseen. lia.
  - intros Hreg. rewrite Hd. unfold updateDevice. rewrite Hreg. reflexivity.
Qed.

(** A message that is not accepted, because its reading is refused or for
    any other reason, changes neither collection and emits nothing. *)
Lemma handleMessage_dropped io c topic message w :
  (forall payload data, ~ accepted JSON_parse c topic message payload data) ->
  readings (handleMessage JSON_parse io c topic message w) = readings w
  /\ devices (handleMessage JSON_parse io c topic message w) = devices w
  /\ emitted (handleMessage JSON_parse io c topic message w) = emitted w.
Proof.
  intros Hno. exact (handleMessage_rejected JSON_parse io c topic message w Hno).
Qed.

End Emissions.

(** X1. An accepted message, with a socket server at hand, emits exactly
    two events after storing its reading: [telemetry:new] with the API
    response of the stored reading, then [device:update], both under the
    topic's device identifier; the instant announced is read after the
    registry was updated, so it is no earlier than the reading's and than
    the [lastSeen] stored for the device.  This holds whether or not the
    registry answers.  Without a socket server no message makes the handler
    emit anything. *)
Theorem accepted_message_emits (JSON_parse : string -> option value)
  (c : MQTTWorker.conditions) (topic message : string) (payload : value)
  (data : sensor_data) (w : MQTTWorker.world) :
  accepted JSON_parse c topic message payload data ->
  let id := deviceId_of topic in
  let w' := MQTTWorker.handleMessage JSON_parse true c topic message w in
  (exists reading announced,
      MQTTWorker.readings w' = (MQTTWorker.readings w ++ [reading])%list
      /\ MQTTWorker.emitted w'
         = (MQTTWorker.emitted w
            ++ [MQTTWorker.TelemetryNew id (Telemetry.toAPIResponse reading);
                MQTTWorker.DeviceUpdate id announced])%list
      /\ Telemetry.receivedAt reading <= announced
      /\ (MQTTWorker.registry_answers c = true ->
          exists d, Device.findOne id (MQTTWorker.devices w') = Some d
                    /\ Device.lastSeen d <= announced)
      /\ (MQTTWorker.registry_answers c = false ->
          MQTTWorker.devices w' = MQTTWorker.devices w))
  /\ (forall c' topic' message',
        MQTTWorker.emitted
          (MQTTWorker.handleMessage JSON_parse false c' topic' message' w)
        = MQTTWorker.emitted w).
Proof.
  intros Hacc. cbv zeta. split.
  - exact (handleMessage_emits JSON_parse c topic message payload data w Hacc).
  - intros c' topic' message'. apply handleMessage_silent.
Qed.

Lemma accepted_message_emits_witness :
  exists reading,
    MQTTWorker.readings
      (MQTTWorker.handleMessage (parses_to sample_payload) true calm sample_topic
         "(the text of the sample body)" empty_world)
    = [reading]
    /\ MQTTWorker.emitted
         (MQTTWorker.handleMessage (parses_to sample_payload) true calm sample_topic
            "(the text of the sample body)" empty_world)
       = [MQTTWorker.TelemetryNew "dev1" (Telemetry.toAPIResponse reading);
          MQTTWorker.DeviceUpdate "dev1" 1008].
Proof.
  destruct (accepted_message_emits (parses_to sample_payload) calm sample_topic
              "(the text of the sample body)" sample_payload sample_data empty_world
              (sample_accepted sample_payload _ eq_refl sample_casts))
    as [[reading [announced [Hr [He _]]]] _].
  exists reading. split; [exact Hr|].
  pose proof (f_equal (fun l => match l with
                                | [_; MQTTWorker.DeviceUpdate _ t] => t
                                | _ => 0
                                end) He) as Ha.
  vm_compute in Ha. rewrite He, <- Ha. reflexivity.
Defined.

(** X2. A message is dropped whole when the telemetry collection refuses
    its reading or when decoding its fields raises: no reading is stored, no
    device is created or touched, and nothing is emitted. *)
Theorem dropped_message_changes_nothing (JSON_parse : string -> option value)
  (io : bool) (c : MQTTWorker.conditions) (topic message : string)
  (w : MQTTWorker.world) :
  (MQTTWorker.telemetry_saves c = false
   \/ exists payload e,
        JSON_parse message = Some payload
        /\ MQTTWorker.decodeLittleEndianData (get payload "data") = Throw e) ->
  let w' := MQTTWorker.handleMessage JSON_parse io c topic message w in
  MQTTWorker.readings w' = MQTTWorker.readings w
  /\ MQTTWorker.devices w' = MQTTWorker.devices w
  /\ MQTTWorker.emitted w' = MQTTWorker.emitted w.
Proof.
  intros Hbad. cbv zeta. apply handleMessage_dropped.
  intros payload data [_ [Hparse [_ [Hdec [_ Hsave]]]]].
  destruct Hbad as [Hno|[payload' [e [Hparse' Hraise]]]].
  - congruence.
  - rewrite Hparse in Hparse'. injection Hparse' as <-. congruence.
Qed.

(** The body whose [hum] has a [toString] entry, after a [temp] that does
    not fit: the decoder raises, and the world stays as it was. *)
Lemma dropped_message_changes_nothing_witness :
  let w' :=
    MQTTWorker.handleMessage (parses_to (VObject [("data", shadowed_hum_data)])) true
      calm sample_topic "(a body the decoder raises on)" empty_world in
  MQTTWorker.readings w' = []
  /\ MQTTWorker.devices w' = []
  /\ MQTTWorker.emitted w' = [].
Proof.
  apply (dropped_message_changes_nothing
           (parses_to (VObject [("data", shadowed_hum_data)])) true calm sample_topic
           "(a body the decoder raises on)" empty_world).
  right. exists (VObject [("data", shadowed_hum_data)]), TypeError.
  split; [reflexivity|vm_compute; reflexivity].
Defined.

Section Stores.
Import MQTTWorker.
Local Open Scope list_scope.
Variable JSON_parse : string -> option value.
Variable io : bool.

(** An occurrence leaves the stored readings in place and at most adds one
    at the end, stamped no later than it was received and received no later
    than the clock. *)
Lemma arrive_call c topic message w :
  forall t, call_telemetry (snd (arrive JSON_parse c topic message w)) = Some t ->
    Telemetry.deviceId t = call_deviceId (snd (arrive JSON_parse c topic message w))
    /\ clock w <= Telemetry.timestamp t
    /\ Telemetry.timestamp t <= Telemetry.receivedAt t
    /\ Telemetry.receivedAt t <= clock (fst (arrive JSON_parse c topic message w)).
Proof.
  unfold arrive.
  destruct (negb _ || _ || _); [cbn; discriminate|].
  destruct (JSON_parse message) as [payload|]; [|cbn; discriminate].
  destruct (validatePayload payload); cbn [negb]; [|cbn; discriminate].
  destruct (decodeLittleEndianData _) as [data|]; [|cbn; discriminate].
  cbn [fst snd call_telemetry call_deviceId with_clock clock].
  intros t Hcreate.
  apply create_fields in Hcreate as [Hid [_ [Hstamp [Hreceived _]]]].
  cbn in Hid, Hstamp, Hreceived. rewrite Hstamp, Hreceived.
  split; [exact Hid|]. lia.
Qed.

Lemma advance_readings c k w :
  readings (fst (advance io c k w)) = readings w
  \/ exists t, call_telemetry k = Some t
               /\ at_stage k = Saving
               /\ at_stage (snd (advance io c k w)) = Saved true
               /\ readings (fst (advance io c k w)) = readings w ++ [t].
Proof.
  unfold advance.
  destruct (at_stage k) as [|[|]| |[found|]|[op|]| | |] eqn:Hs; cbn; auto.
  - destruct (call_telemetry k) as [t|]; [|auto].
    destruct (telemetry_saves c); cbn; [|auto].
    right. exists t. auto.
  - destruct (registry_answers c); cbn; auto.
  - destruct (registry_answers c); cbn; auto.
  - destruct (call_telemetry k); [destruct io|]; cbn; auto.
Qed.

Lemma advance_call c k w :
  call_deviceId (snd (advance io c k w)) = call_deviceId k
  /\ call_payload (snd (advance io c k w)) = call_payload k
  /\ call_telemetry (snd (advance io c k w)) = call_telemetry k.
Proof.
  destruct k as [id payload telemetry s]. unfold advance. cbn.
  destruct s as [|[|]| |[found|]|[op|]| | |]; cbn; auto.
  - destruct telemetry; [destruct (telemetry_saves c)|]; cbn; auto.
  - destruct (registry_answers c); cbn; auto.
  - destruct (registry_answers c); cbn; auto.
  - destruct telemetry; [destruct io|]; cbn; auto.
Qed.

Lemma new_device_uid id payload now d :
  new_device id payload now = Some d -> Device.uid d = trim id.
Proof.
  unfold new_device, Device.create. cbn.
  destruct (Schema.castString _); [|discriminate]. intros [= <-]. reflexivity.
Qed.

Lemma reading_known_later (id : string) (rs more : list Telemetry.t) :
  reading_known id rs -> reading_known id (rs ++ more).
Proof.
  unfold reading_known. rewrite map_app, in_app_iff. auto.
Qed.

Lemma covered_later (ds : list Device.t) (rs more : list Telemetry.t) :
  Forall (fun d => reading_known (Device.uid d) rs) ds ->
  Forall (fun d => reading_known (Device.uid d) (rs ++ more)) ds.
Proof.
  apply Forall_impl. intros d. apply reading_known_later.
Qed.

Lemma call_covered_later (w w' : world) (k : call) (more : list Telemetry.t) :
  readings w' = readings w ++ more -> call_covered w k -> call_covered w' k.
Proof.
  unfold call_covered. intros -> [Hid Hk]. split; [exact Hid|].
  destruct (at_stage k) as [|[|]| |found|[[d|id ch]|]| | |]; try exact I;
    try (apply reading_known_later; exact Hk).
  destruct Hk as [Hk Hd]. split; [apply reading_known_later; exact Hk|exact Hd].
Qed.

Lemma call_covered_same (w w' : world) (k : call) :
  readings w' = readings w -> call_covered w k -> call_covered w' k.
Proof.
  intros E. apply (call_covered_later w w' k []). rewrite E, app_nil_r. reflexivity.
Qed.

Lemma arrive_covered c topic message w :
  devices_have_readings w ->
  devices_have_readings (fst (arrive JSON_parse c topic message w))
  /\ call_covered (fst (arrive JSON_parse c topic message w))
       (snd (arrive JSON_parse c topic message w))
  /\ forall k, call_covered w k -> call_covered (fst (arrive JSON_parse c topic message w)) k.
Proof.
  intros Hcov. destruct (arrive_stores JSON_parse c topic message w) as [Hd [Hr _]].
  split; [|split].
  - unfold devices_have_readings in *. rewrite Hd, Hr. exact Hcov.
  - split.
    + intros t Ht. apply (arrive_call c topic message w t Ht).
    + destruct (arrive_stage JSON_parse c topic message w) as [-> | ->]; exact I.
  - intros k. apply call_covered_same, Hr.
Qed.

Lemma covered_same (w w' : world) (k' : call) :
  readings w' = readings w -> devices w' = devices w ->
  devices_have_readings w -> call_covered w' k' ->
  devices_have_readings w'
  /\ call_covered w' k'
  /\ forall k, call_covered w k -> call_covered w' k.
Proof.
  intros Hr Hd Hcov Hk. split; [|split; [exact Hk|]].
  - unfold devices_have_readings in *. rewrite Hr, Hd. exact Hcov.
  - intros k. apply call_covered_same, Hr.
Qed.

Lemma advance_covered c k w :
  devices_have_readings w -> call_covered w k ->
  devices_have_readings (fst (advance io c k w))
  /\ call_covered (fst (advance io c k w)) (snd (advance io c k w))
  /\ forall k', call_covered w k' -> call_covered (fst (advance io c k w)) k'.
Proof.
  intros Hcov Hk. destruct k as [id payload telemetry s].
  destruct Hk as [Hid Hk]. unfold call_covered.
  cbn [call_telemetry call_deviceId at_stage] in Hid, Hk.
  unfold advance. cbn [at_stage call_telemetry call_deviceId call_payload moved].
  destruct s as [|[|]| |[found|]|[op|]| | |].
  - (* telemetry.save() *)
    destruct telemetry as [t|];
      [destruct (telemetry_saves c)|]; cbn [fst snd];
      try (apply covered_same; [reflexivity|reflexivity|exact Hcov|];
           split; [exact Hid|exact I]).
    split; [|split].
    + unfold devices_have_readings. cbn [devices readings]. apply covered_later, Hcov.
    + split; [exact Hid|]. cbn [at_stage moved call_deviceId readings].
      unfold reading_known. rewrite map_app, in_app_iff. right. left.
      rewrite (Hid t eq_refl). reflexivity.
    + intros k'. apply call_covered_later with (more := [t]). reflexivity.
  - cbn [fst snd]. apply covered_same; [reflexivity|reflexivity|exact Hcov|].
    split; [exact Hid|exact Hk].
  - cbn [fst snd]. apply covered_same; [reflexivity|reflexivity|exact Hcov|].
    split; [exact Hid|exact I].
  - destruct (registry_answers c); cbn [fst snd];
      (apply covered_same; [reflexivity|reflexivity|exact Hcov|]);
      (split; [exact Hid|exact Hk]).
  - (* the call goes on to [device.save()] *)
    cbn [fst snd]. apply covered_same; [reflexivity|reflexivity|exact Hcov|].
    split; [exact Hid|]. cbn [at_stage moved call_deviceId with_clock readings].
    destruct found as [device|]; cbn [device_save].
    + destruct (device_changes device payload _); exact Hk.
    + destruct (new_device id payload _) as [d|] eqn:E; cbn [option_map]; [|exact Hk].
      split; [exact Hk|exact (new_device_uid _ _ _ _ E)].
  - cbn [fst snd]. apply covered_same; [reflexivity|reflexivity|exact Hcov|].
    split; [exact Hid|exact Hk].
  - (* device.save() *)
    assert (Hknown : reading_known (trim id) (readings w))
      by (destruct op; [apply Hk|exact Hk]).
    destruct (registry_answers c); cbn [fst snd];
      [|apply covered_same; [reflexivity|reflexivity|exact Hcov|];
        split; [exact Hid|exact Hknown]].
    split; [|split].
    + unfold devices_have_readings. cbn [with_devices devices readings].
      destruct op as [d|uid ch]; cbn [Device.perform].
      * destruct (Device.insert d (devices w)) as [coll|] eqn:E; [|exact Hcov].
        apply insert_some in E as [-> _]. apply Forall_app. split; [exact Hcov|].
        repeat constructor. destruct Hk as [_ ->]. exact Hknown.
      * apply update_forall; [exact Hcov|]. intros d Hd. exact Hd.
    + split; [exact Hid|exact Hknown].
    + intros k'. apply call_covered_same. reflexivity.
  - cbn [fst snd]. apply covered_same; [reflexivity|reflexivity|exact Hcov|].
    split; [exact Hid|exact Hk].
  - cbn [fst snd]. apply covered_same; [reflexivity|reflexivity|exact Hcov|].
    split; [exact Hid|exact Hk].
  - destruct telemetry; [destruct io|]; cbn [fst snd];
      (apply covered_same; [reflexivity|reflexivity|exact Hcov|]);
      (split; [exact Hid|exact I]).
  - cbn [fst snd]. apply covered_same; [reflexivity|reflexivity|exact Hcov|].
    split; [exact Hid|exact I].
Qed.

Lemma execute_covered (os : list (conditions * occurrence)) (w : world) :
  devices_have_readings w ->
  devices_have_readings (state (execute JSON_parse io os (idle w))).
Proof.
  intros Hcov.
  apply (execute_kept JSON_parse io devices_have_readings call_covered
           arrive_covered advance_covered os (idle w)).
  split; [exact Hcov|constructor].
Qed.

End Stores.

(** X3. However the calls of the handler overlap, a device is in the
    registry only if a reading is stored whose device identifier, trimmed,
    is the [uid] of the device: a call saves its reading before it touches
    the registry, and asks the registry for no device but the one its topic
    names. *)
Theorem device_only_after_reading (JSON_parse : string -> option value) (io : bool)
  (os : list (MQTTWorker.conditions * MQTTWorker.occurrence)) (w : MQTTWorker.world) :
  devices_have_readings w ->
  devices_have_readings
    (MQTTWorker.state (MQTTWorker.execute JSON_parse io os (idle w))).
Proof. apply execute_covered. Qed.

(** Two calls for [dev1] that overlap, with no device before them. *)
Lemma device_only_after_reading_witness :
  devices_have_readings
    (MQTTWorker.state
       (MQTTWorker.execute (parses_to sample_payload) true two_calls_overlapping
          (idle empty_world))).
Proof.
  apply device_only_after_reading. constructor.
Defined.

Section Added.
Import MQTTWorker.
Local Open Scope list_scope.
Variable JSON_parse : string -> option value.
Variable io : bool.
Variable w0 : world.

Lemma stamped_later (from now later : Z) (r : Telemetry.t) :
  now <= later -> stamped_between from now r -> stamped_between from later r.
Proof. unfold stamped_between. lia. Qed.

Lemma call_stamped_later (w w' : world) (k : call) :
  clock w <= clock w' -> call_stamped w0 w k -> call_stamped w0 w' k.
Proof.
  intros Hclock Hk t Ht. eapply stamped_later; [exact Hclock|apply Hk, Ht].
Qed.

Lemma added_later (w w' : world) :
  clock w <= clock w' -> readings w' = readings w ->
  added_since w0 w -> added_since w0 w'.
Proof.
  intros Hclock Hsame [Hle [added [Hadded Hall]]]. split; [lia|].
  exists added. split; [congruence|].
  eapply Forall_impl; [|exact Hall]. intros r. apply stamped_later, Hclock.
Qed.

Lemma arrive_added c topic message w :
  added_since w0 w ->
  added_since w0 (fst (arrive JSON_parse c topic message w))
  /\ call_stamped w0 (fst (arrive JSON_parse c topic message w))
       (snd (arrive JSON_parse c topic message w))
  /\ forall k, call_stamped w0 w k ->
       call_stamped w0 (fst (arrive JSON_parse c topic message w)) k.
Proof.
  intros Hw.
  pose proof (arrive_clock JSON_parse c topic message w) as Hclock.
  destruct (arrive_stores JSON_parse c topic message w) as [_ [Hreadings _]].
  split; [exact (added_later _ _ Hclock Hreadings Hw)|]. split.
  - intros t Ht.
    destruct (arrive_call JSON_parse c topic message w t Ht) as [_ [H1 [H2 H3]]].
    destruct Hw as [Hle _]. unfold stamped_between. lia.
  - intros k. apply call_stamped_later, Hclock.
Qed.

Lemma advance_added c k w :
  added_since w0 w -> call_stamped w0 w k ->
  added_since w0 (fst (advance io c k w))
  /\ call_stamped w0 (fst (advance io c k w)) (snd (advance io c k w))
  /\ forall k', call_stamped w0 w k' -> call_stamped w0 (fst (advance io c k w)) k'.
Proof.
  intros Hw Hk.
  pose proof (advance_clock io c k w) as Hclock.
  destruct (advance_call io c k w) as [_ [_ Htel]].
  split; [|split].
  - destruct (advance_readings io c k w) as [Hsame|[t [Ht [_ [_ Hmore]]]]].
    + exact (added_later _ _ Hclock Hsame Hw).
    + destruct Hw as [Hle [added [Hadded Hall]]]. split; [lia|].
      exists (added ++ [t]). split.
      * rewrite Hmore, Hadded, app_assoc. reflexivity.
      * apply Forall_app. split.
        -- eapply Forall_impl; [|exact Hall]. intros r. apply stamped_later, Hclock.
        -- constructor; [|constructor].
           eapply stamped_later; [exact Hclock|apply Hk, Ht].
  - intros t Ht. rewrite Htel in Ht.
    eapply stamped_later; [exact Hclock|apply Hk, Ht].
  - intros k'. apply call_stamped_later, Hclock.
Qed.

Lemma execute_added (os : list (conditions * occurrence)) :
  added_since w0 (state (execute JSON_parse io os (idle w0))).
Proof.
  apply (execute_kept JSON_parse io (added_since w0) (call_stamped w0)
           arrive_added advance_added os (idle w0)).
  split; [|constructor]. split; [cbn; lia|].
  exists []. split; [cbn; rewrite app_nil_r; reflexivity|constructor].
Qed.

End Added.

(** X4. However the calls of the handler overlap, readings are only added
    to the collection, at its end, and none is removed or changed: what is
    stored after an execution is what was stored before it followed by the
    readings saved since.  Each of these carries a [timestamp] no earlier
    than the start of the execution, a [receivedAt] no earlier than its
    [timestamp], and neither is later than the clock.  The order in which
    readings are stored need not be the order in which their messages
    arrived: of two messages whose saves the database carries out in the
    opposite order, the second is stored first, with the later
    [timestamp]. *)
Theorem readings_are_only_added (JSON_parse : string -> option value) (io : bool)
  (os : list (MQTTWorker.conditions * MQTTWorker.occurrence)) (w : MQTTWorker.world) :
  (exists added,
     MQTTWorker.readings (MQTTWorker.state (MQTTWorker.execute JSON_parse io os (idle w)))
     = (MQTTWorker.readings w ++ added)%list
     /\ Forall (stamped_between (MQTTWorker.clock w)
                  (MQTTWorker.clock
                     (MQTTWorker.state (MQTTWorker.execute JSON_parse io os (idle w)))))
          added)
  /\ exists earlier later,
       MQTTWorker.readings
         (MQTTWorker.state
            (MQTTWorker.execute (parses_to sample_payload) true saved_out_of_order
               (idle empty_world)))
       = [later; earlier]
       /\ Telemetry.rawPayload earlier = "(first)"
       /\ Telemetry.rawPayload later = "(second)"
       /\ Telemetry.timestamp earlier < Telemetry.timestamp later.
Proof.
  split.
  - destruct (execute_added JSON_parse io w os) as [_ H]. exact H.
  - eexists. eexists. split; [vm_compute; reflexivity|].
    split; [reflexivity|]. split; [reflexivity|]. vm_compute. reflexivity.
Qed.

Section Frame.
Import MQTTWorker.
Variable JSON_parse : string -> option value.

Lemma findOne_update_other (id uid : string) (ch : Device.changes)
  (coll : list Device.t) :
  trim id <> uid ->
  Device.findOne id (Device.update uid ch coll) = Device.findOne id coll.
Proof.
  intros Hne. unfold Device.findOne.
  induction coll as [|d rest IH]; [reflexivity|]. cbn.
  destruct (String.eqb_spec (Device.uid d) uid) as [E|E]; cbn.
  - destruct (String.eqb_spec (Device.uid d) (trim id)) as [E1|E1]; [congruence|].
    reflexivity.
  - destruct (String.eqb (Device.uid d) (trim id)); [reflexivity|exact IH].
Qed.

Lemma findOne_perform_other (id : string) (op : Device.operation)
  (coll : list Device.t) :
  match op with
  | Device.Insert d => trim id <> Device.uid d
  | Device.Update uid _ => trim id <> uid
  end ->
  Device.findOne id (Device.perform op coll) = Device.findOne id coll.
Proof.
  destruct op as [d|uid ch]; cbn; intros Hne.
  - destruct (Device.insert d coll) as [coll'|] eqn:E; [|reflexivity].
    apply insert_some in E as [-> _].
    change (Device.findOne id (coll ++ [d]) = Device.findOne id coll).
    rewrite findOne_app.
    destruct (Device.findOne id coll); [reflexivity|].
    unfold Device.findOne. cbn.
    destruct (String.eqb_spec (Device.uid d) (trim id)); [congruence|reflexivity].
  - apply findOne_update_other, Hne.
Qed.

Lemma updateDevice_other c id payload w id' :
  trim id' <> trim id ->
  Device.findOne id' (devices (updateDevice c id payload w))
  = Device.findOne id' (devices w).
Proof.
  intros Hne. unfold updateDevice. destruct (registry_answers c); [|reflexivity].
  destruct (device_save _ _ _ _) as [op|] eqn:E; [|reflexivity].
  cbn [with_devices with_clock devices]. apply findOne_perform_other.
  unfold device_save in E.
  destruct (Device.findOne id (devices w)) as [found|] eqn:Hfind.
  - destruct (device_changes found payload _); [|discriminate].
    injection E as <-. rewrite (proj1 (findOne_some _ _ _ Hfind)). exact Hne.
  - destruct (new_device id payload _) as [d|] eqn:Hnew; [|discriminate].
    injection E as <-. rewrite (new_device_uid _ _ _ _ Hnew). exact Hne.
Qed.

Lemma handleMessage_other io c topic message w id' :
  trim id' <> trim (deviceId_of topic) ->
  Device.findOne id' (devices (handleMessage JSON_parse io c topic message w))
  = Device.findOne id' (devices w).
Proof.
  intros Hne. unfold handleMessage.
  destruct (negb _ || _ || _); [reflexivity|].
  destruct (JSON_parse message) as [payload|]; [|reflexivity].
  destruct (validatePayload payload); cbn [negb]; [|reflexivity].
  destruct (decodeLittleEndianData _) as [data|]; [|reflexivity].
  destruct (Telemetry.create _) as [telemetry|]; [|reflexivity].
  destruct (telemetry_saves c); [|reflexivity].
  match goal with
  | |- context [updateDevice c ?id payload ?w1] =>
      pose proof (updateDevice_other c id payload w1 id' Hne) as H
  end.
  destruct io; exact H.
Qed.

End Frame.

(** X5. A message changes at most the device its topic names, which is the
    one whose [uid] is the topic's identifier trimmed: a device asked for
    under any other [uid] is found afterwards as it was before.  The device
    named, when it exists already and the registry answers, keeps its [uid],
    name, location and type, and keeps its firmware too unless the body
    carries a truthy [fw]: its firmware then is the string the schema casts
    that [fw] to. *)
Theorem message_touches_one_device (JSON_parse : string -> option value) (io : bool)
  (c : MQTTWorker.conditions) (topic message : string) (w : MQTTWorker.world) :
  (forall id', trim id' <> trim (deviceId_of topic) ->
     Device.findOne id'
       (MQTTWorker.devices (MQTTWorker.handleMessage JSON_parse io c topic message w))
     = Device.findOne id' (MQTTWorker.devices w))
  /\ (forall payload data old,
        accepted JSON_parse c topic message payload data ->
        MQTTWorker.registry_answers c = true ->
        Device.findOne (deviceId_of topic) (MQTTWorker.devices w) = Some old ->
        exists d,
          Device.findOne (deviceId_of topic)
            (MQTTWorker.devices
               (MQTTWorker.handleMessage JSON_parse io c topic message w)) = Some d
          /\ Device.uid d = Device.uid old
          /\ Device.name d = Device.name old
          /\ Device.location d = Device.location old
          /\ Device.deviceType d = Device.deviceType old
          /\ (truthy (get payload "fw") = false ->
              Device.firmware d = Device.firmware old)
          /\ (truthy (get payload "fw") = true ->
              Schema.castString (get payload "fw") = Some (Device.firmware d))).
Proof.
  split.
  - intros id' Hne. apply handleMessage_other. exact Hne.
  - intros payload data old Hacc Hreg Hfind.
    pose proof (handleMessage_accepted JSON_parse io c topic message payload data w Hacc)
      as H.
    cbv zeta in H. destruct H as [telemetry [_ [_ [-> _]]]].
    destruct Hacc as [_ [_ [_ [_ [Hcast _]]]]].
    destruct (schema_casts_create _ _ _ Hcast) as [uid [fw [tts [_ [Hfw _]]]]].
    match goal with
    | |- context [MQTTWorker.updateDevice c ?id payload ?w1] =>
        pose proof (updateDevice_upsert c id payload w1 fw Hreg Hfw) as H
    end.
    cbv zeta in H. cbn [MQTTWorker.devices] in H. rewrite Hfind in H.
    destruct H as [_ [d [Hd [Huid [Hname [Hloc [Htype [Hfirm _]]]]]]]].
    exists d. split; [exact Hd|]. split; [exact Huid|]. split; [exact Hname|].
    split; [exact Hloc|]. split; [exact Htype|].
    unfold or_else in Hfw. split; intros Htruthy; rewrite Htruthy in Hfirm, Hfw.
    + exact Hfirm.
    + rewrite Hfirm. exact Hfw.
Qed.

(** The sample device, created with firmware [1.2.0], keeps it when the
    next body carries no [fw]. *)
Lemma message_touches_one_device_witness :
  exists d,
    Device.findOne "dev1"
      (MQTTWorker.devices
         (MQTTWorker.handleMessage (parses_to anonymous_payload) true calm sample_topic
            "(the same without uid)" seen_once)) = Some d
    /\ Device.name d = "Device dev1"
    /\ Device.firmware d = "1.2.0".
Proof.
  pose proof (proj2 (message_touches_one_device (parses_to anonymous_payload) true calm
                       sample_topic "(the same without uid)" seen_once)
                anonymous_payload sample_data
                {| Device.uid := "dev1"; Device.name := "Device dev1";
                   Device.firmware := "1.2.0"; Device.isActive := true;
                   Device.lastSeen := 1007; Device.location := "Unknown";
                   Device.deviceType := "sensor" |}
                (sample_accepted anonymous_payload _ eq_refl anonymous_casts) eq_refl eq_refl)
    as [d [Hd [_ [Hname [_ [_ [Hfw _]]]]]]].
  exists d. split; [exact Hd|]. split; [exact Hname|exact (Hfw eq_refl)].
Defined.

(** *** The broker session, further *)

Section SessionMore.
Import MQTTWorker.

Lemma step_attempts (this this' : worker) (a : action) :
  session_invariant this -> attempts_invariant this -> step this a this' ->
  attempts_invariant this'.
Proof.
  intros [Hmax [_ [c [Hc [Hup Hceil]]]]] [Hrange Hzero] Hstep.
  destruct Hstep as [this c' ev Hc' Hemit | this].
  - rewrite Hc in Hc'. injection Hc' as <-.
    specialize (Hzero c Hc). destruct c as [conn fin].
    unfold attempts_invariant. destruct ev; cbn in *.
    + split; [lia|]. intros; reflexivity.
    + split; [assumption|]. intros c0 [= <-]. exact Hzero.
    + split; [assumption|]. intros c0 [= <-]. discriminate.
    + apply andb_prop in Hemit as [Hfin Hconn].
      apply negb_true_iff in Hfin. apply negb_true_iff in Hconn. subst fin conn.
      assert (Hlt : reconnectAttempts this < 10).
      { destruct (Z.lt_ge_cases (reconnectAttempts this) 10); [assumption|].
        rewrite Hmax in Hceil. destruct (Hceil ltac:(lia)). discriminate. }
      unfold on_reconnect, with_client. cbn. split; [lia|].
      destruct (maxReconnectAttempts this <=? reconnectAttempts this + 1);
        cbn; intros c0 [= <-]; discriminate.
    + split; [assumption|]. intros c0 [= <-]. exact Hzero.
  - unfold attempts_invariant, stop. rewrite Hc. cbn. split; [assumption|].
    intros c0 [= <-]. cbn. exact (Hzero c Hc).
Qed.

Lemma run_attempts (this this' : worker) (l : list action) :
  session_invariant this -> attempts_invariant this -> run this l this' ->
  session_invariant this' /\ attempts_invariant this'.
Proof.
  intros Hinv Hatt Hrun. induction Hrun as [|this a mid l this' Hstep _ IH]; [auto|].
  apply IH.
  - exact (step_invariant _ _ _ Hinv Hstep).
  - exact (step_attempts _ _ _ Hinv Hatt Hstep).
Qed.

Lemma started_attempts (socketIo : bool) :
  attempts_invariant (start socketIo true constructor).
Proof.
  split; [cbn; lia|]. intros c [= <-]. discriminate.
Qed.

Lemma run_without_client (this this' : worker) (l : list action) :
  client this = None -> run this l this' ->
  this' = this /\ Forall (fun a => a = Stop) l.
Proof.
  intros Hnone Hrun. induction Hrun as [|this a mid l this' Hstep _ IH]; [auto|].
  destruct Hstep as [this c ev Hc _ | this].
  - congruence.
  - assert (E : stop this = this) by (unfold stop; rewrite Hnone; reflexivity).
    rewrite E in IH. destruct (IH Hnone) as [-> Hall]. auto.
Qed.

End SessionMore.

(** X6. In every execution of a started worker the status query reports
    between 0 and 10 reconnect attempts, and none while it reports the
    worker connected. *)
Theorem attempts_within_ceiling (socketIo : bool) (l : list MQTTWorker.action)
  (this : MQTTWorker.worker) :
  MQTTWorker.run (MQTTWorker.start socketIo true MQTTWorker.constructor) l this ->
  0 <= MQTTWorker.Status.reconnectAttempts (MQTTWorker.getStatus this) <= 10
  /\ (MQTTWorker.Status.connected (MQTTWorker.getStatus this) = true ->
      MQTTWorker.Status.reconnectAttempts (MQTTWorker.getStatus this) = 0).
Proof.
  intros Hrun.
  destruct (run_attempts _ _ _ (started_invariant socketIo) (started_attempts socketIo) Hrun)
    as [[_ [_ [c [Hc [Hup _]]]]] [Hrange Hzero]].
  split; [exact Hrange|]. cbn. intros Hflag. exact (Hzero c Hc (Hup Hflag)).
Qed.

Lemma attempts_within_ceiling_witness :
  0 <= MQTTWorker.Status.reconnectAttempts (MQTTWorker.getStatus given_up) <= 10
  /\ (MQTTWorker.Status.connected (MQTTWorker.getStatus given_up) = true ->
      MQTTWorker.Status.reconnectAttempts (MQTTWorker.getStatus given_up) = 0).
Proof.
  exact (attempts_within_ceiling false ten_reconnects given_up ten_reconnects_run).
Defined.

(** X7. With MQTT disabled, [start] creates no client: no client event can
    occur, [stop()] changes nothing, and the worker stays as [start] left
    it, reporting not connected and no attempt. *)
Theorem disabled_worker_is_inert (socketIo : bool) (l : list MQTTWorker.action)
  (this : MQTTWorker.worker) :
  MQTTWorker.run (MQTTWorker.start socketIo false MQTTWorker.constructor) l this ->
  this = MQTTWorker.start socketIo false MQTTWorker.constructor
  /\ MQTTWorker.client this = None
  /\ MQTTWorker.getStatus this
     = {| MQTTWorker.Status.connected := false;
          MQTTWorker.Status.reconnectAttempts := 0 |}
  /\ Forall (fun a => a = MQTTWorker.Stop) l.
Proof.
  intros Hrun.
  destruct (run_without_client (MQTTWorker.start socketIo false MQTTWorker.constructor)
              this l eq_refl Hrun) as [-> Hall].
  repeat split. exact Hall.
Qed.

Lemma disabled_worker_is_inert_witness :
  MQTTWorker.stop (MQTTWorker.start true false MQTTWorker.constructor)
  = MQTTWorker.start true false MQTTWorker.constructor
  /\ MQTTWorker.getStatus (MQTTWorker.stop (MQTTWorker.start true false MQTTWorker.constructor))
     = {| MQTTWorker.Status.connected := false;
          MQTTWorker.Status.reconnectAttempts := 0 |}.
Proof.
  destruct (disabled_worker_is_inert true [MQTTWorker.Stop]
              (MQTTWorker.stop (MQTTWorker.start true false MQTTWorker.constructor)))
    as [H1 [_ [H3 _]]].
  - eapply MQTTWorker.run_cons; [apply MQTTWorker.step_stop|apply MQTTWorker.run_nil].
  - split; [exact H1|exact H3].
Defined.

(** ** Further properties of the decoder *)

Lemma round2_tiny (neg : bool) (M E : Z) :
  0 < M -> E < 0 -> 200 * M < 2 ^ (- E) -> round2 (dyadic neg M E) = Zero neg.
Proof.
  intros HM HE Hsmall.
  pose proof (round2_dyadic neg M E HM) as H.
  destruct (Z.leb_spec 0 E); [lia|].
  rewrite H. clear H.
  assert (HD : 0 < 2 ^ (- E)) by (apply Z.pow_pos_nonneg; lia).
  destruct (Z.leb_spec (10 ^ 21 * 2 ^ (- E)) M) as [Hbig|_].
  { assert (1 <= 10 ^ 21) by (vm_compute; discriminate). nia. }
  rewrite Z.div_small by lia. reflexivity.
Qed.

(** The patterns below 2^23 are the subnormal floats. *)
Lemma float32_subnormal (w : Z) :
  0 <= w < 2 ^ 23 -> float32_of_bits w = dyadic false w (-149).
Proof.
  intros Hw. unfold float32_of_bits.
  assert (H31 : Z.testbit w 31 = false).
  { apply Z.testbit_false; [lia|]. rewrite Z.div_small; [reflexivity|].
    split; [lia|]. apply Z.lt_trans with (2 ^ 23); [lia|]. vm_compute. reflexivity. }
  rewrite H31. rewrite Z.shiftr_div_pow2 by lia. rewrite Z.div_small by lia.
  cbn [Z.land Z.eqb].
  change (2 ^ 23 - 1) with (Z.ones 23). rewrite Z.land_ones by lia.
  rewrite Z.mod_small by lia. reflexivity.
Qed.

Lemma round2_subnormal (w : Z) :
  0 <= w < 2 ^ 23 -> round2 (float32_of_bits w) = pos_zero.
Proof.
  intros Hw. rewrite float32_subnormal by assumption.
  destruct (Z.eq_dec w 0) as [->|Hne]; [vm_compute; reflexivity|].
  apply round2_tiny; [lia|lia|].
  change (- -149) with 149.
  apply Z.lt_trans with (200 * 2 ^ 23); [lia|]. vm_compute. reflexivity.
Qed.

Lemma short_hex_value (s : string) :
  all_hex s = true -> (String.length s <= 5)%nat -> 0 <= hex_value s < 2 ^ 23.
Proof.
  intros Hs Hlen. pose proof (hex_value_range s Hs) as [Hlo Hhi].
  split; [assumption|].
  apply Z.lt_le_trans with (16 ^ Z.of_nat (String.length s)); [assumption|].
  apply Z.le_trans with (16 ^ 5); [apply Z.pow_le_mono_r; lia|].
  vm_compute. discriminate.
Qed.

(** X9. A string of one to five hexadecimal digits, which is what a decimal
    figure such as [25] or [100] is, is read by the field decoder as a bit
    pattern and not as that figure: it decodes to the subnormal float of
    that pattern, which rounds to 0.  Whenever none of the three fields
    makes the field decoder raise, [decodeLittleEndianData] therefore
    returns 0 for every field, whichever of the three, that is such a
    string.  (When another field does raise, the replacement values are
    used instead, and they read the figure.) *)
Theorem short_digit_strings_store_zero (s : string) :
  hex_pattern s = true -> (String.length s <= 5)%nat ->
  MQTTWorker.littleEndianToFloat (VString s)
  = Normal (dyadic false (hex_value s) (-149))
  /\ round2 (dyadic false (hex_value s) (-149)) = pos_zero
  /\ forall (data : value) (t h p : number),
       MQTTWorker.littleEndianToFloat (get data "temp") = Normal t ->
       MQTTWorker.littleEndianToFloat (get data "hum") = Normal h ->
       MQTTWorker.littleEndianToFloat (get data "pm2.5") = Normal p ->
       exists d,
         MQTTWorker.decodeLittleEndianData data = Normal d
         /\ (get data "temp" = VString s -> temperature d = pos_zero)
         /\ (get data "hum" = VString s -> humidity d = pos_zero)
         /\ (get data "pm2.5" = VString s -> pm25 d = pos_zero).
Proof.
  intros Hs Hlen.
  pose proof (short_hex_value s (hex_pattern_all_hex s Hs) Hlen) as Hv.
  assert (Hdec : MQTTWorker.littleEndianToFloat (VString s)
                 = Normal (dyadic false (hex_value s) (-149))).
  { rewrite decode_hex; [|assumption|].
    - rewrite float32_subnormal by assumption. reflexivity.
    - apply Z.lt_trans with (2 ^ 23); [lia|]. vm_compute. reflexivity. }
  assert (Hround : round2 (dyadic false (hex_value s) (-149)) = pos_zero).
  { rewrite <- float32_subnormal by assumption. apply round2_subnormal. assumption. }
  split; [exact Hdec|]. split; [exact Hround|].
  intros data t h p Dt Dh Dp.
  exists {| temperature := round2 t; humidity := round2 h; pm25 := round2 p |}.
  split; [apply decode_rounds; assumption|].
  cbn [temperature humidity pm25].
  split; [|split]; intros G.
  - rewrite G, Hdec in Dt. injection Dt as <-. exact Hround.
  - rewrite G, Hdec in Dh. injection Dh as <-. exact Hround.
  - rewrite G, Hdec in Dp. injection Dp as <-. exact Hround.
Qed.

Lemma short_digit_strings_store_zero_witness :
  MQTTWorker.littleEndianToFloat (VString "25") = Normal (dyadic false 37 (-149))
  /\ exists d,
       MQTTWorker.decodeLittleEndianData
         (VObject [("temp", VString "25"); ("hum", VNumber (of_Z 60));
                   ("pm2.5", VString "25")])
       = Normal d
       /\ temperature d = pos_zero /\ humidity d = of_Z 60 /\ pm25 d = pos_zero.
Proof.
  destruct (short_digit_strings_store_zero "25" eq_refl ltac:(cbn; lia))
    as [Hdec [_ Hall]].
  split; [exact Hdec|].
  destruct (Hall (VObject [("temp", VString "25"); ("hum", VNumber (of_Z 60));
                           ("pm2.5", VString "25")])
              (dyadic false 37 (-149)) (of_Z 60) (dyadic false 37 (-149))
              Hdec eq_refl Hdec) as [d [Hd [Ht [_ Hp]]]].
  exists d. split; [exact Hd|]. split; [exact (Ht eq_refl)|].
  split; [|exact (Hp eq_refl)].
  vm_compute in Hd. injection Hd as <-. vm_compute. reflexivity.
Defined.

Lemma float32_exponent_255 (w : Z) :
  Z.land (Z.shiftr w 23) 255 = 255 -> not_finite (float32_of_bits w).
Proof.
  intros H. unfold float32_of_bits. rewrite H. cbn [Z.eqb Pos.eqb].
  destruct (Z.land w (2 ^ 23 - 1) =? 0); [right; eauto|left; reflexivity].
Qed.

Lemma round2_not_finite (x : number) : not_finite x -> round2 x = x.
Proof.
  intros [->|[neg ->]]; [reflexivity|]. destruct neg; reflexivity.
Qed.

(** X10. A string of hexadecimal digits whose bit pattern, within 32 bits,
    has all eight exponent bits set is decoded by the field decoder to NaN or
    to an infinity, and a number that is not finite is returned as it is;
    rounding to two places leaves such a value unchanged.  Whenever none of
    the three fields makes the field decoder raise,
    [decodeLittleEndianData] therefore returns that value for every field,
    whichever of the three, that is such a string. *)
Theorem nonfinite_patterns_are_kept (s : string) :
  hex_pattern s = true -> hex_value s < 2 ^ 32 ->
  Z.land (Z.shiftr (hex_value s) 23) 255 = 255 ->
  exists x,
    MQTTWorker.littleEndianToFloat (VString s) = Normal x
    /\ not_finite x
    /\ round2 x = x
    /\ (forall (data : value) (t h p : number),
          MQTTWorker.littleEndianToFloat (get data "temp") = Normal t ->
          MQTTWorker.littleEndianToFloat (get data "hum") = Normal h ->
          MQTTWorker.littleEndianToFloat (get data "pm2.5") = Normal p ->
          exists d,
            MQTTWorker.decodeLittleEndianData data = Normal d
            /\ (get data "temp" = VString s -> temperature d = x)
            /\ (get data "hum" = VString s -> humidity d = x)
            /\ (get data "pm2.5" = VString s -> pm25 d = x))
    /\ (forall y, not_finite y ->
          MQTTWorker.littleEndianToFloat (VNumber y) = Normal y /\ round2 y = y).
Proof.
  intros Hs Hv Hex.
  exists (float32_of_bits (hex_value s)).
  pose proof (decode_hex s Hs Hv) as Ds.
  pose proof (float32_exponent_255 _ Hex) as Hnf.
  pose proof (round2_not_finite _ Hnf) as Hround.
  split; [exact Ds|]. split; [exact Hnf|]. split; [exact Hround|]. split.
  - intros data t h p Dt Dh Dp.
    exists {| temperature := round2 t; humidity := round2 h; pm25 := round2 p |}.
    split; [apply decode_rounds; assumption|].
    cbn [temperature humidity pm25].
    split; [|split]; intros G.
    + rewrite G, Ds in Dt. injection Dt as <-. exact Hround.
    + rewrite G, Ds in Dh. injection Dh as <-. exact Hround.
    + rewrite G, Ds in Dp. injection Dp as <-. exact Hround.
  - intros y Hy. split; [reflexivity|apply round2_not_finite; exact Hy].
Qed.

Lemma nonfinite_patterns_are_kept_witness :
  exists d,
    MQTTWorker.decodeLittleEndianData
      (VObject [("temp", VString "7fc00000"); ("hum", VString "7fc00000");
                ("pm2.5", VNumber (of_Z 1))])
    = Normal d
    /\ temperature d = NaN /\ humidity d = NaN /\ pm25 d = of_Z 1.
Proof.
  destruct (nonfinite_patterns_are_kept "7fc00000" eq_refl eq_refl eq_refl)
    as [x [Dx [_ [_ [Hall _]]]]].
  assert (Hx : x = NaN) by (vm_compute in Dx; injection Dx as <-; reflexivity).
  destruct (Hall (VObject [("temp", VString "7fc00000"); ("hum", VString "7fc00000");
                           ("pm2.5", VNumber (of_Z 1))])
              x x (of_Z 1) Dx Dx eq_refl) as [d [Hd [Ht [Hh _]]]].
  exists d. split; [exact Hd|].
  split; [rewrite (Ht eq_refl); exact Hx|].
  split; [rewrite (Hh eq_refl); exact Hx|].
  vm_compute in Hd. injection Hd as <-. vm_compute. reflexivity.
Defined.

Lemma pattern_of_bytes_range (b0 b1 b2 b3 : Z) :
  0 <= pattern_of_bytes b0 b1 b2 b3 < 2 ^ 32.
Proof.
  unfold pattern_of_bytes.
  pose proof (Z.mod_pos_bound b0 256 ltac:(lia)).
  pose proof (Z.mod_pos_bound b1 256 ltac:(lia)).
  pose proof (Z.mod_pos_bound b2 256 ltac:(lia)).
  pose proof (Z.mod_pos_bound b3 256 ltac:(lia)).
  change (2 ^ 8) with 256. change (2 ^ 16) with 65536.
  change (2 ^ 24) with 16777216. change (2 ^ 32) with 4294967296. lia.
Qed.

Lemma le_bytes_pattern (b0 b1 b2 b3 : Z) :
  le_bytes (pattern_of_bytes b0 b1 b2 b3)
  = [byte_of_Z b0; byte_of_Z b1; byte_of_Z b2; byte_of_Z b3].
Proof.
  unfold le_bytes, pattern_of_bytes, byte_of_Z.
  pose proof (Z.mod_pos_bound b0 256 ltac:(lia)) as H0.
  pose proof (Z.mod_pos_bound b1 256 ltac:(lia)) as H1.
  pose proof (Z.mod_pos_bound b2 256 ltac:(lia)) as H2.
  pose proof (Z.mod_pos_bound b3 256 ltac:(lia)) as H3.
  set (a0 := b0 mod 256) in *. set (a1 := b1 mod 256) in *.
  set (a2 := b2 mod 256) in *. set (a3 := b3 mod 256) in *.
  change (2 ^ 8) with 256. change (2 ^ 16) with 65536. change (2 ^ 24) with 16777216.
  assert (E0 : (a0 + 256 * a1 + 65536 * a2 + 16777216 * a3) mod 256 = a0).
  { symmetry. apply (Z.mod_unique _ _ (a1 + 256 * a2 + 65536 * a3)); lia. }
  assert (D1 : (a0 + 256 * a1 + 65536 * a2 + 16777216 * a3) / 256
               = a1 + 256 * a2 + 65536 * a3).
  { symmetry. apply (Z.div_unique _ _ _ a0); lia. }
  assert (D2 : (a0 + 256 * a1 + 65536 * a2 + 16777216 * a3) / 65536 = a2 + 256 * a3).
  { symmetry. apply (Z.div_unique _ _ _ (a0 + 256 * a1)); lia. }
  assert (D3 : (a0 + 256 * a1 + 65536 * a2 + 16777216 * a3) / 16777216 = a3).
  { symmetry. apply (Z.div_unique _ _ _ (a0 + 256 * a1 + 65536 * a2)); lia. }
  rewrite E0, D1, D2, D3.
  assert (E1 : (a1 + 256 * a2 + 65536 * a3) mod 256 = a1).
  { symmetry. apply (Z.mod_unique _ _ (a2 + 256 * a3)); lia. }
  assert (E2 : (a2 + 256 * a3) mod 256 = a2).
  { symmetry. apply (Z.mod_unique _ _ a3); lia. }
  rewrite E1, E2. rewrite (Z.mod_small a3) by lia. reflexivity.
Qed.

(** X11. An array of four numbers is decoded as the bit pattern whose
    bytes are the numbers truncated toward zero and reduced modulo 256,
    lowest byte first: elements outside 0..255 are not refused.  An array or
    a buffer whose length is not 4 decodes to 0, whatever it holds. *)
Theorem byte_arrays_wrap (x0 x1 x2 x3 : number) :
  MQTTWorker.littleEndianToFloat (VArray [VNumber x0; VNumber x1; VNumber x2; VNumber x3])
  = Normal (float32_of_bits
              (pattern_of_bytes (trunc x0) (trunc x1) (trunc x2) (trunc x3)))
  /\ (forall elems, List.length elems <> 4%nat ->
        MQTTWorker.littleEndianToFloat (VArray elems) = Normal pos_zero)
  /\ (forall bytes, List.length bytes <> 4%nat ->
        MQTTWorker.littleEndianToFloat (VBuffer bytes) = Normal pos_zero)
  /\ MQTTWorker.littleEndianToFloat
       (VArray [VNumber (of_Z 256); VNumber (of_Z (-256)); VNumber (of_Z 288);
                VNumber (Finite false 131 (-1))])
     = Normal (of_Z 10).
Proof.
  split; [|split; [|split]].
  - unfold MQTTWorker.littleEndianToFloat.
    cbn [isBuffer isArray length_of MQTTWorker.elems_of andb List.length].
    change (Z.of_nat 4 =? 4) with true. cbv iota.
    unfold Buffer_from, ToNumber. cbn [mapM stringifies bind to_number].
    rewrite <- le_bytes_pattern.
    apply readFloatLE_le_bytes. apply pattern_of_bytes_range.
  - intros elems Hlen. unfold MQTTWorker.littleEndianToFloat.
    cbn [isBuffer isArray length_of andb].
    destruct (Z.eqb_spec (Z.of_nat (List.length elems)) 4); [lia|reflexivity].
  - intros bytes Hlen. unfold MQTTWorker.littleEndianToFloat.
    cbn [isBuffer isArray length_of andb].
    destruct (Z.eqb_spec (Z.of_nat (List.length bytes)) 4); [lia|reflexivity].
  - vm_compute. reflexivity.
Qed.

Lemma digits_hex_prefix (h rest : string) (acc n : Z) :
  all_hex h = true -> no_hex_head rest = true ->
  digits hex_digit 16 acc n (String.append h rest)
  = (acc * 16 ^ Z.of_nat (String.length h) + hex_value h,
     n + Z.of_nat (String.length h), rest).
Proof.
  revert acc n. induction h as [|c r IH]; intros acc n Hh Hrest.
  - cbn [String.append String.length hex_value].
    assert (E : digits hex_digit 16 acc n rest = (acc, n, rest)).
    { destruct rest as [|c r]; [reflexivity|]. cbn in Hrest |- *.
      destruct (hex_digit c); [discriminate|reflexivity]. }
    rewrite E. cbn. do 2 f_equal; lia.
  - cbn [all_hex] in Hh. cbn [String.append digits hex_value String.length].
    unfold hex_digit_value. destruct (hex_digit c) as [d|]; [|discriminate].
    rewrite (IH _ _ Hh Hrest).
    rewrite Nat2Z.inj_succ, Z.pow_succ_r by lia.
    do 2 f_equal; ring.
Qed.

(** X12. Of a string that starts with [0x] the decoder reads the
    hexadecimal digits that follow, up to the first character that is not
    one, and ignores the rest: with no digit at all the field decodes to 0,
    and otherwise to the float whose bit pattern the digits spell. *)
Theorem prefixed_strings_read_leading_digits (h rest : string) :
  all_hex h = true -> no_hex_head rest = true -> hex_value h < 2 ^ 32 ->
  MQTTWorker.littleEndianToFloat
    (VString (String.append "0x" (String.append h rest)))
  = Normal (float32_of_bits (hex_value h))
  /\ (h = EmptyString -> float32_of_bits (hex_value h) = pos_zero).
Proof.
  intros Hh Hrest Hv. split; [|intros ->; reflexivity].
  pose proof (hex_value_range h Hh) as [Hlo _].
  change (String.append "0x" (String.append h rest))
    with (String "0" (String "x" (String.append h rest))).
  unfold MQTTWorker.littleEndianToFloat.
  rewrite startsWith_0x. cbn [orb].
  unfold parseInt16. rewrite skip_ws_0x. cbn [take_sign drop_0x].
  rewrite digits_hex_prefix by assumption.
  destruct h as [|c r].
  - reflexivity.
  - destruct (Z.eqb_spec (0 + Z.of_nat (String.length (String c r))) 0) as [E|_];
      [cbn [String.length] in E; lia|].
    replace (0 * 16 ^ Z.of_nat (String.length (String c r)) + hex_value (String c r))
      with (hex_value (String c r)) by lia.
    rewrite fl64_integer
      by (split; [assumption|]; apply Z.lt_le_trans with (2 ^ 32); [assumption|];
          apply Z.pow_le_mono_r; lia).
    rewrite writeUInt32LE_of_Z by lia. cbn [bind].
    rewrite <- le_bytes_shift. apply readFloatLE_le_bytes. lia.
Qed.

Lemma prefixed_strings_read_leading_digits_witness :
  MQTTWorker.littleEndianToFloat (VString "0x41200000 C") = Normal (of_Z 10)
  /\ MQTTWorker.littleEndianToFloat (VString "0xyz") = Normal pos_zero.
Proof.
  split.
  - exact (proj1 (prefixed_strings_read_leading_digits "41200000" " C"
                    eq_refl eq_refl eq_refl)).
  - exact (proj1 (prefixed_strings_read_leading_digits EmptyString "yz" eq_refl eq_refl eq_refl)).
Defined.

(** *** One field's decoding depends on the others *)

Lemma dec_fold_nonneg (s : string) (acc : Z) : 0 <= acc -> 0 <= dec_fold acc s.
Proof.
  revert acc. induction s as [|c r IH]; intros acc Hacc; cbn [dec_fold]; [assumption|].
  destruct (decimal_digit c) as [d|] eqn:Hd; [|assumption].
  apply IH. unfold decimal_digit in Hd.
  destruct ((48 <=? code c) && (code c <=? 57)) eqn:E; [|discriminate].
  injection Hd as <-. apply andb_prop in E as [E1 _]. apply Z.leb_le in E1. lia.
Qed.

Lemma parseFloat_digits (s : string) :
  all_dec s = true -> s <> EmptyString -> dec_fold 0 s < 2 ^ 53 ->
  parseFloat_string s = fl64 false (dec_fold 0 s) 1.
Proof.
  intros Hall Hne Hn.
  destruct s as [|c r]; [contradiction|].
  pose proof Hall as Hall'. cbn [all_dec] in Hall'.
  destruct (decimal_digit c) as [d|] eqn:Hd; [|discriminate].
  unfold parseFloat_string.
  rewrite skip_ws_plain by (pose proof (digit_code c d Hd); lia).
  unfold StrDecimalLiteral. rewrite (take_sign_digit c r d Hd).
  unfold StrUnsignedDecimalLiteral. rewrite (no_infinity_digit c r d Hd).
  rewrite <- (append_empty (String c r)) at 1.
  rewrite (digits_dec (String c r) EmptyString 0 0 Hall). cbn [digits String.length].
  destruct (Z.eqb_spec (0 + Z.of_nat (S (String.length r))) 0); [lia|].
  cbn [andb]. change (0 <=? 0 - 0) with true. cbv iota.
  change (10 ^ (0 - 0)) with 1. rewrite Z.mul_1_r. reflexivity.
Qed.

Lemma oversize_hex_raises (h : string) :
  hex_pattern h = true -> 2 ^ 32 <= hex_value h < 2 ^ 53 ->
  MQTTWorker.littleEndianToFloat (VString h) = Throw RangeError.
Proof.
  intros Hh [Hlo Hhi].
  assert (V32 : 2 ^ 32 = 4294967296) by (vm_compute; reflexivity).
  unfold MQTTWorker.littleEndianToFloat.
  rewrite (hex_pattern_no_prefix h Hh), Hh. cbn [orb].
  change (String.append "0x" h) with (String "0" (String "x" h)).
  rewrite parseInt16_0x by assumption.
  rewrite fl64_integer by lia.
  unfold writeUInt32LE, gt. rewrite lt_of_Z by lia.
  destruct (Z.ltb_spec 4294967295 (hex_value h)); [reflexivity|lia].
Qed.

Lemma or_zero_of_Z (n : Z) : 0 <= n -> MQTTWorker.or_zero (of_Z n) = of_Z n.
Proof.
  intros Hn. destruct (of_Z_parts n Hn) as [[_ ->] | [p [e [-> _]]]]; reflexivity.
Qed.

(** X13. What a field decodes to depends on the other fields.  A string of
    decimal digits is read as a bit pattern when all three fields decode;
    when another field is a string of hexadecimal digits too large for 32
    bits, the decoder falls back and reads the same string as the decimal
    number it writes. *)
Theorem a_bad_field_changes_the_others (data : value) (t h : string) (p : number) :
  get data "temp" = VString t ->
  all_dec t = true -> t <> EmptyString -> hex_value t < 2 ^ 32 -> dec_fold 0 t < 2 ^ 53 ->
  get data "hum" = VString h ->
  hex_pattern h = true -> 2 ^ 32 <= hex_value h < 2 ^ 53 ->
  get data "pm2.5" = VNumber p ->
  MQTTWorker.littleEndianToFloat (get data "temp")
  = Normal (float32_of_bits (hex_value t))
  /\ MQTTWorker.decodeLittleEndianData data
     = Normal {| temperature := of_Z (dec_fold 0 t);
                 humidity := MQTTWorker.or_zero (parseFloat_string h);
                 pm25 := MQTTWorker.or_zero (read_back p) |}.
Proof.
  intros Gt Ht Hne Hv Hd Gh Hh Hov Gp.
  assert (Hhex : hex_pattern t = true).
  { destruct t as [|c r]; [contradiction|]. cbn [hex_pattern].
    clear - Ht. revert Ht. generalize (String c r) as s. clear c r.
    induction s as [|c s IH]; [reflexivity|]. cbn [all_dec all_hex].
    unfold decimal_digit, hex_digit.
    destruct ((48 <=? code c) && (code c <=? 57)); [exact IH|discriminate]. }
  split.
  - rewrite Gt. apply decode_hex; assumption.
  - rewrite decode_falls_back.
    + rewrite Gt, Gh, Gp. unfold parseFloat. cbn [stringifies bind parse_float].
      rewrite parseFloat_digits by assumption.
      assert (Hpos : 0 <= dec_fold 0 t) by (apply dec_fold_nonneg; lia).
      rewrite fl64_integer by lia. rewrite or_zero_of_Z by assumption. reflexivity.
    + exists RangeError. rewrite Gt, Gh.
      rewrite (decode_hex t Hhex Hv). cbn [bind].
      rewrite (oversize_hex_raises h Hh Hov). reflexivity.
Qed.

Lemma a_bad_field_changes_the_others_witness :
  MQTTWorker.decodeLittleEndianData
    (VObject [("temp", VString "41200000"); ("hum", VNumber (of_Z 45));
              ("pm2.5", VNumber (of_Z 12))])
  = Normal {| temperature := of_Z 10; humidity := of_Z 45; pm25 := of_Z 12 |}
  /\ MQTTWorker.decodeLittleEndianData
       (VObject [("temp", VString "41200000"); ("hum", VString "123456789");
                 ("pm2.5", VNumber (of_Z 12))])
     = Normal {| temperature := of_Z 41200000; humidity := of_Z 123456789;
                 pm25 := of_Z 12 |}.
Proof.
  split; [vm_compute; reflexivity|].
  destruct (a_bad_field_changes_the_others
              (VObject [("temp", VString "41200000"); ("hum", VString "123456789");
                        ("pm2.5", VNumber (of_Z 12))])
              "41200000" "123456789" (of_Z 12)
              eq_refl eq_refl ltac:(discriminate) ltac:(vm_compute; reflexivity)
              ltac:(vm_compute; reflexivity) eq_refl eq_refl
              ltac:(split; vm_compute; [discriminate|reflexivity]) eq_refl)
    as [_ H].
  rewrite H. vm_compute. reflexivity.
Defined.

(** ** Further properties of topics *)







(** ** Properties of the list of devices *)

(** *** Numbers written in decimal *)

Lemma digits_all_dec (s : string) :
  all_dec s = true ->
  digits decimal_digit 10 0 0 s = (dec_fold 0 s, Z.of_nat (String.length s), EmptyString).
Proof.
  intros Hs. rewrite <- (append_empty s) at 1.
  rewrite (digits_dec s EmptyString 0 0 Hs). reflexivity.
Qed.

Lemma StringToNumber_decimal (s : string) (n : Z) :
  decimal_text s n -> n < 2 ^ 53 -> StringToNumber s = of_Z n.
Proof.
  intros [Hall [Hne Hval]] Hn.
  assert (Hpos : 0 <= n) by (rewrite <- Hval; apply dec_fold_nonneg; lia).
  destruct s as [|c r]; [contradiction|].
  pose proof Hall as Hall'. cbn [all_dec] in Hall'.
  destruct (decimal_digit c) as [d|] eqn:Hd; [|discriminate].
  unfold StringToNumber.
  rewrite skip_ws_plain by (pose proof (digit_code c d Hd); lia).
  assert (Hlit : StrDecimalLiteral (String c r) = Some (of_Z n, EmptyString)).
  { unfold StrDecimalLiteral. rewrite (take_sign_digit c r d Hd).
    unfold StrUnsignedDecimalLiteral. rewrite (no_infinity_digit c r d Hd).
    rewrite (digits_all_dec _ Hall). rewrite Hval. cbn [String.length].
    destruct (Z.eqb_spec (Z.of_nat (S (String.length r))) 0); [lia|].
    cbn [andb]. change (0 <=? 0 - 0) with true. cbv iota.
    change (10 ^ (0 - 0)) with 1. rewrite Z.mul_1_r.
    rewrite fl64_integer by lia. reflexivity. }
  assert (Hdefault :
    match StrDecimalLiteral (String c r) with
    | Some (x, r0) => if is_empty (skip_ws r0) then x else NaN
    | None => NaN
    end = of_Z n) by (rewrite Hlit; reflexivity).
  destruct c as [[] [] [] [] [] [] [] []]; try discriminate Hd; try exact Hdefault.
  destruct r as [|c2 r2]; [exact Hdefault|].
  cbn [all_dec] in Hall'. destruct (decimal_digit c2) as [d2|] eqn:Hd2; [|discriminate].
  destruct c2 as [[] [] [] [] [] [] [] []]; try discriminate Hd2; exact Hdefault.
Qed.

Lemma parseInt_decimal (s : string) (n : Z) :
  decimal_text s n -> n < 2 ^ 53 -> JSNumber.parseInt s = of_Z n.
Proof.
  intros [Hall [Hne Hval]] Hn.
  assert (Hpos : 0 <= n) by (rewrite <- Hval; apply dec_fold_nonneg; lia).
  destruct s as [|c r]; [contradiction|].
  pose proof Hall as Hall'. cbn [all_dec] in Hall'.
  destruct (decimal_digit c) as [d|] eqn:Hd; [|discriminate].
  unfold JSNumber.parseInt.
  rewrite skip_ws_plain by (pose proof (digit_code c d Hd); lia).
  rewrite (take_sign_digit c r d Hd).
  assert (Hdefault :
    (let '(v, k, _) := digits decimal_digit 10 0 0 (String c r) in
     if k =? 0 then NaN else fl64 false v 1) = of_Z n).
  { rewrite (digits_all_dec _ Hall). rewrite Hval. cbn [String.length].
    destruct (Z.eqb_spec (Z.of_nat (S (String.length r))) 0); [lia|].
    apply fl64_integer. lia. }
  destruct c as [[] [] [] [] [] [] [] []]; try discriminate Hd; try exact Hdefault.
  destruct r as [|c2 r2]; [exact Hdefault|].
  cbn [all_dec] in Hall'. destruct (decimal_digit c2) as [d2|] eqn:Hd2; [|discriminate].
  destruct c2 as [[] [] [] [] [] [] [] []]; try discriminate Hd2; exact Hdefault.
Qed.

Lemma decimal_of_Z_text (n : Z) : 0 <= n -> decimal_text (decimal_of_Z n) n.
Proof.
  intros Hn. destruct (decimal_of_Z_spec n Hn) as [H1 [H2 H3]].
  split; [exact H1|]. split; [|exact H2].
  intros E. rewrite E in H3. cbn in H3. lia.
Qed.

(** *** Arithmetic on integers that are doubles *)

Lemma of_Z_shape (v : Z) :
  0 < v ->
  exists p e, of_Z v = Finite false p e /\ magnitude (Finite false p e) = (v, 1).
Proof.
  intros Hv.
  destruct (of_Z_parts v ltac:(lia)) as [[-> _] | [p [e [E [He Hp]]]]]; [lia|].
  exists p, e. split; [exact E|]. cbn [magnitude].
  destruct (Z.leb_spec 0 e); [|lia]. rewrite Hp. reflexivity.
Qed.

Lemma sub_one (v : Z) :
  1 <= v < 2 ^ 53 -> JSNumber.sub (of_Z v) (of_Z 1) = of_Z (v - 1).
Proof.
  intros [Hlo Hhi]. destruct (of_Z_shape v ltac:(lia)) as [p [e [E Hm]]].
  rewrite E. change (of_Z 1) with (Finite false 1 0).
  unfold JSNumber.sub, JSNumber.neg, JSNumber.add, JSNumber.signed. cbn [negb is_negative].
  rewrite Hm. change (magnitude (Finite true 1 0)) with (1, 1). cbv beta iota.
  rewrite !Z.mul_1_r. replace (v + - (1)) with (v - 1) by lia.
  destruct (Z.eqb_spec (v - 1) 0) as [E0|E0].
  - rewrite E0. reflexivity.
  - destruct (Z.ltb_spec (v - 1) 0); [lia|].
    rewrite Z.abs_eq by lia. apply fl64_integer. lia.
Qed.

Lemma mul_of_Z (a b : Z) :
  0 <= a -> 0 <= b -> a * b < 2 ^ 53 ->
  JSNumber.mul (of_Z a) (of_Z b) = of_Z (a * b).
Proof.
  intros Ha Hb Hab.
  destruct (Z.eq_dec a 0) as [->|Ha0].
  { change (of_Z 0) with (Zero false). rewrite Z.mul_0_l.
    destruct (of_Z_parts b Hb) as [[_ ->] | [p [e [-> _]]]]; reflexivity. }
  destruct (Z.eq_dec b 0) as [->|Hb0].
  { change (of_Z 0) with (Zero false). rewrite Z.mul_0_r.
    destruct (of_Z_parts a Ha) as [[_ ->] | [p [e [-> _]]]]; reflexivity. }
  destruct (of_Z_shape a ltac:(lia)) as [p [e [Ea Hma]]].
  destruct (of_Z_shape b ltac:(lia)) as [q [f [Eb Hmb]]].
  rewrite Ea, Eb. unfold JSNumber.mul. rewrite Hma, Hmb. cbn [xorb].
  change (1 * 1) with 1. apply fl64_integer. nia.
Qed.

Lemma add_of_Z (a b : Z) :
  0 <= a -> 0 <= b -> a + b < 2 ^ 53 ->
  JSNumber.add (of_Z a) (of_Z b) = of_Z (a + b).
Proof.
  intros Ha Hb Hab.
  destruct (Z.eq_dec a 0) as [->|Ha0].
  { change (of_Z 0) with (Zero false). rewrite Z.add_0_l.
    destruct (of_Z_parts b Hb) as [[_ ->] | [p [e [-> _]]]]; reflexivity. }
  destruct (Z.eq_dec b 0) as [->|Hb0].
  { change (of_Z 0) with (Zero false). rewrite Z.add_0_r.
    destruct (of_Z_parts a Ha) as [[_ ->] | [p [e [-> _]]]]; reflexivity. }
  destruct (of_Z_shape a ltac:(lia)) as [p [e [Ea Hma]]].
  destruct (of_Z_shape b ltac:(lia)) as [q [f [Eb Hmb]]].
  rewrite Ea, Eb. unfold JSNumber.add, JSNumber.signed. cbn [is_negative].
  rewrite Hma, Hmb. cbv beta iota. rewrite !Z.mul_1_r.
  destruct (Z.eqb_spec (a + b) 0); [lia|].
  destruct (Z.ltb_spec (a + b) 0); [lia|].
  rewrite Z.abs_eq by lia. apply fl64_integer. lia.
Qed.

(** *** [Math.ceil] of a quotient of integers *)

Lemma strip_fixed (p : positive) (e : Z) :
  let (p', e') := strip p e in strip p' e' = (p', e') /\ Z.odd (Z.pos p') = true.
Proof.
  revert e. induction p as [p IH|p IH|]; intros e; cbn [strip].
  - split; reflexivity.
  - apply IH.
  - split; reflexivity.
Qed.

Lemma ceil_dyadic (M e : Z) :
  0 < M -> e <= 0 ->
  JSNumber.ceil (dyadic false M e) = of_Z ((M + 2 ^ (- e) - 1) / 2 ^ (- e)).
Proof.
  intros HM He. destruct M as [|P|P]; try lia. unfold dyadic.
  pose proof (strip_spec P e) as Hs. pose proof (strip_fixed P e) as Hf.
  destruct (strip P e) as [m e']. destruct Hs as [Hle Hm]. destruct Hf as [Hfix Hodd].
  set (T := 2 ^ (- e)).
  assert (HT : 0 < T) by (apply Z.pow_pos_nonneg; lia).
  cbn [JSNumber.ceil].
  destruct (Z.leb_spec 0 e') as [He'|He'].
  - (* an integer *)
    assert (Hc : 2 ^ (e' - e) = 2 ^ e' * T).
    { unfold T. rewrite <- Z.pow_add_r by lia. f_equal; lia. }
    assert (P2 : 0 < 2 ^ e') by (apply Z.pow_pos_nonneg; lia).
    assert (Hq : (Z.pos P + T - 1) / T = Z.pos m * 2 ^ e').
    { symmetry. apply (Z.div_unique _ _ _ (T - 1)); [lia|]. rewrite Hm, Hc. ring. }
    rewrite Hq. rewrite of_Z_nonneg by nia.
    transitivity (dyadic false (Z.pos m) e').
    + unfold dyadic. rewrite Hfix. reflexivity.
    + rewrite <- (dyadic_shift false (Z.pos m) e' e') by lia.
      replace (e' - e') with 0 by lia. reflexivity.
  - set (T' := 2 ^ (- e')).
    assert (HT' : 0 < T') by (apply Z.pow_pos_nonneg; lia).
    assert (Hc : T = T' * 2 ^ (e' - e)).
    { unfold T, T'. rewrite <- Z.pow_add_r by lia. f_equal; lia. }
    assert (Pc : 0 < 2 ^ (e' - e)) by (apply Z.pow_pos_nonneg; lia).
    set (c := 2 ^ (e' - e)) in *.
    assert (Heven : T' = 2 * 2 ^ (- e' - 1)).
    { unfold T'. rewrite <- Z.pow_succ_r by lia. f_equal; lia. }
    pose proof (Z.div_mod (Z.pos m) T' ltac:(lia)) as Hdm.
    pose proof (Z.mod_pos_bound (Z.pos m) T' HT') as Hr.
    set (q := Z.pos m / T') in *. set (r := Z.pos m mod T') in *.
    assert (Hr0 : r <> 0).
    { intros E. rewrite E, Z.add_0_r in Hdm.
      rewrite Hdm, Heven in Hodd.
      replace (2 * 2 ^ (- e' - 1) * q) with (2 * (2 ^ (- e' - 1) * q)) in Hodd by ring.
      rewrite Z.odd_mul in Hodd. discriminate. }
    destruct (Z.eqb_spec r 0); [contradiction|].
    assert (Hq : (Z.pos P + T - 1) / T = q + 1).
    { symmetry. apply (Z.div_unique _ _ _ (r * c - 1)); [nia|].
      rewrite Hm, Hdm, Hc. ring. }
    rewrite Hq. rewrite of_Z_nonneg; [reflexivity|].
    assert (0 <= q) by (apply Z.div_pos; lia). lia.
Qed.

Lemma div_of_Z (n L : Z) :
  0 < n < 2 ^ 53 -> 0 < L ->
  div (of_Z n) (of_Z L) = fl64 false n L.
Proof.
  intros Hn HL.
  destruct (of_Z_shape n ltac:(lia)) as [p [e [En Hmn]]].
  destruct (of_Z_shape L ltac:(lia)) as [q [f [El Hml]]].
  rewrite En, El. unfold div. rewrite Hmn, Hml. cbn [xorb].
  rewrite Z.mul_1_r, Z.mul_1_l. reflexivity.
Qed.

(** The number of pages: the quotient rounded up, exactly. *)
Lemma ceil_div (n L : Z) :
  0 <= n < 2 ^ 53 -> 0 < L < 2 ^ 53 ->
  JSNumber.ceil (div (of_int n) (of_Z L)) = of_Z ((n + L - 1) / L).
Proof.
  intros [Hn0 Hn] [HL0 HL].
  assert (V53 : 2 ^ 53 = 9007199254740992) by (vm_compute; reflexivity).
  assert (V52 : 2 ^ 52 = 4503599627370496) by (vm_compute; reflexivity).
  unfold of_int. destruct (Z.ltb_spec n 0); [lia|].
  rewrite Z.abs_eq by lia. rewrite fl64_integer by lia.
  destruct (Z.eq_dec n 0) as [->|Hne].
  { change (of_Z 0) with (Zero false).
    destruct (of_Z_shape L HL0) as [q [f [-> _]]].
    rewrite Z.div_small by lia. reflexivity. }
  rewrite div_of_Z by lia.
  assert (Hp : 0 < n) by lia.
  assert (He : emin64 <= exponent n L).
  { pose proof (exponent_lower n L 53 Hp HL0 ltac:(lia) ltac:(nia)). unfold emin64. lia. }
  destruct (fl64_normal false n L Hp HL0 He) as [M [[HM HM53] [Hsc ->]]].
  set (e := exponent n L) in *.
  unfold scaled in Hsc.
  assert (He0 : e <= 0).
  { destruct (Z.le_gt_cases e 0); [assumption|exfalso].
    destruct (Z.leb_spec 0 e); [|lia].
    assert (2 ^ 1 <= 2 ^ e) by (apply Z.pow_le_mono_r; lia).
    change (2 ^ 1) with 2 in *. nia. }
  assert (Hfit : M * 2 ^ (e - emin64) < 2 ^ (emax64 - emin64)).
  { apply Z.le_lt_trans with (2 ^ 53 * 2 ^ (0 - emin64)).
    - apply Z.mul_le_mono_nonneg; [lia|lia|apply Z.pow_nonneg; lia|].
      apply Z.pow_le_mono_r; unfold emin64 in *; lia.
    - vm_compute. reflexivity. }
  destruct (Z.leb_spec (2 ^ (emax64 - emin64)) (M * 2 ^ (e - emin64))); [lia|].
  rewrite ceil_dyadic by lia. f_equal.
  assert (HT : 0 < 2 ^ (- e)) by (apply Z.pow_pos_nonneg; lia).
  set (T := 2 ^ (- e)) in *.
  assert (Hsc' : 2 ^ 52 * L <= n * T /\ Z.abs (2 * (n * T - M * L)) <= L).
  { destruct (Z.leb_spec 0 e).
    - assert (e = 0) by lia. subst T. replace (- e) with 0 by lia.
      replace e with 0 in Hsc by lia. rewrite !Z.mul_1_r in *. tauto.
    - tauto. }
  destruct Hsc' as [Hlow Hnear].
  assert (H2T : L < 2 * T) by nia.
  (* the quotient rounded up, and where [M] lies *)
  pose proof (Z.div_mod (n + L - 1) L ltac:(lia)) as Hdm.
  pose proof (Z.mod_pos_bound (n + L - 1) L HL0) as Hr.
  set (K := (n + L - 1) / L) in *. set (r := (n + L - 1) mod L) in *.
  assert (HK : (K - 1) * L < n <= K * L) by nia.
  assert (Hup : M <= K * T).
  { destruct (Z.le_gt_cases M (K * T)); [assumption|exfalso].
    assert (K * T + 1 <= M) by lia.
    assert (n * T <= K * L * T) by nia. nia. }
  assert (Hdown : (K - 1) * T < M).
  { destruct (Z.lt_ge_cases ((K - 1) * T) M); [assumption|exfalso].
    assert (((K - 1) * L + 1) * T <= n * T) by nia.
    assert (M * L <= (K - 1) * T * L) by nia. nia. }
  symmetry. apply (Z.div_unique _ _ _ (M + T - 1 - K * T)); lia.
Qed.

(** *** Slices and pages *)

Lemma slice_of_Z {A : Type} (a b : Z) (l : list A) :
  0 <= a <= b ->
  JSArray.slice (of_Z a) (Some (of_Z b)) l
  = List.firstn (Z.to_nat (b - a)) (List.skipn (Z.to_nat a) l).
Proof.
  intros [Ha Hab]. unfold JSArray.slice. cbv zeta beta.
  set (len := Z.of_nat (List.length l)).
  assert (Hrel : forall v, 0 <= v ->
            match of_Z v with
            | NaN => 0
            | Infinity true => 0
            | Infinity false => len
            | _ => if trunc (of_Z v) <? 0 then Z.max (len + trunc (of_Z v)) 0
                   else Z.min (trunc (of_Z v)) len
            end = Z.min v len).
  { intros v Hv. pose proof (trunc_of_Z v Hv) as Ht.
    destruct (of_Z_parts v Hv) as [[_ E] | [p [e [E _]]]]; rewrite E in *;
      rewrite Ht; destruct (Z.ltb_spec v 0); try lia; reflexivity. }
  rewrite (Hrel a Ha), (Hrel b ltac:(lia)).
  destruct (Z.le_gt_cases len a) as [Hout|Hin].
  - rewrite (Z.min_r a) by lia.
    rewrite !List.skipn_all2 by (unfold len in *; lia).
    rewrite !List.firstn_nil. reflexivity.
  - rewrite (Z.min_l a) by lia.
    destruct (Z.le_gt_cases b len) as [Hb|Hb].
    + rewrite (Z.min_l b) by lia. rewrite Z.max_l by lia. reflexivity.
    + rewrite (Z.min_r b) by lia. rewrite Z.max_l by lia.
      rewrite !List.firstn_all2; [reflexivity| |];
        rewrite List.length_skipn; unfold len in *; lia.
Qed.

Lemma firstn_add {A : Type} (a b : nat) (l : list A) :
  List.firstn (a + b) l = (List.firstn a l ++ List.firstn b (List.skipn a l))%list.
Proof.
  revert l. induction a as [|a IH]; intros l; [reflexivity|].
  destruct l as [|x l]; [cbn; rewrite List.firstn_nil; reflexivity|].
  cbn. rewrite IH. reflexivity.
Qed.

(** Pages of [L] elements put end to end. *)
Lemma pages_concat {A : Type} (L k : nat) (l : list A) :
  List.concat (List.map (fun p => List.firstn L (List.skipn (p * L) l)) (List.seq 0 k))
  = List.firstn (k * L) l.
Proof.
  induction k as [|k IH]; [reflexivity|].
  rewrite List.seq_S, List.map_app, List.concat_app, IH. cbn [List.map List.concat plus].
  rewrite app_nil_r. replace (S k * L)%nat with (k * L + L)%nat by lia.
  symmetry. apply firstn_add.
Qed.

Section Pagination.
Import DevicesList.

Lemma reads_as_number (param : option string) (default n : Z) :
  reads_as param default n -> 0 <= default < 2 ^ 53 -> n < 2 ^ 53 ->
  match param with
  | Some s => StringToNumber s
  | None => of_Z default
  end = of_Z n.
Proof.
  intros Hr Hd Hn. destruct param as [s|]; cbn in Hr.
  - apply StringToNumber_decimal; assumption.
  - rewrite Hr. reflexivity.
Qed.

Lemma reads_as_nonneg (param : option string) (default n : Z) :
  reads_as param default n -> 0 <= default -> 0 <= n.
Proof.
  intros Hr Hd. destruct param as [s|]; cbn in Hr; [|lia].
  destruct Hr as [_ [_ <-]]. apply dec_fold_nonneg. lia.
Qed.

(** A page, in closed form. *)
Lemma paginate_page {A : Type} (page limit : option string) (P L : Z) (l : list A) :
  reads_as page 1 P -> reads_as limit 50 L ->
  1 <= P -> 1 <= L -> P * L < 2 ^ 53 ->
  Z.of_nat (List.length l) < 2 ^ 53 ->
  paginate page limit l
  = (List.firstn (Z.to_nat L) (List.skipn (Z.to_nat ((P - 1) * L)) l),
     {| current := of_Z P;
        pages := of_Z ((Z.of_nat (List.length l) + L - 1) / L);
        total := of_Z (Z.of_nat (List.length l));
        limit := of_Z L |}).
Proof.
  intros HP HL P1 L1 HPL Hlen.
  assert (V53 : 2 ^ 53 = 9007199254740992) by (vm_compute; reflexivity).
  assert (P53 : P < 2 ^ 53) by nia.
  assert (L53 : L < 2 ^ 53) by nia.
  unfold paginate.
  rewrite (reads_as_number page 1 P HP ltac:(lia) P53).
  rewrite (reads_as_number limit 50 L HL ltac:(lia) L53).
  assert (Hpt : JSNumber.parseInt match page with Some s => s | None => "1" end = of_Z P).
  { destruct page as [s|]; cbn in HP.
    - apply parseInt_decimal; assumption.
    - rewrite HP. reflexivity. }
  assert (Hlt : JSNumber.parseInt match limit with Some s => s | None => "50" end = of_Z L).
  { destruct limit as [s|]; cbn in HL.
    - apply parseInt_decimal; assumption.
    - rewrite HL. reflexivity. }
  rewrite Hpt, Hlt.
  rewrite sub_one by lia.
  rewrite mul_of_Z by nia.
  rewrite add_of_Z by nia.
  rewrite slice_of_Z by nia.
  rewrite ceil_div by lia.
  replace ((P - 1) * L + L - (P - 1) * L) with L by ring.
  f_equal. f_equal.
  unfold of_int. destruct (Z.ltb_spec (Z.of_nat (List.length l)) 0); [lia|].
  rewrite Z.abs_eq by lia. apply fl64_integer. lia.
Qed.

End Pagination.

(** X15. With [page] and [limit] written in decimal digits, or left out
    (then 1 and 50), both at least 1, the handler serves the devices of rank
    [(page - 1) * limit] onward, [limit] of them at most, and reports the
    page, the limit, the number of devices and, as number of pages, that
    number over the limit rounded up. *)
Theorem pagination_in_closed_form {A : Type} (page limit : option string) (P L : Z)
  (filteredDevices : list A) :
  reads_as page 1 P -> reads_as limit 50 L ->
  1 <= P -> 1 <= L -> P * L < 2 ^ 53 ->
  Z.of_nat (List.length filteredDevices) < 2 ^ 53 ->
  DevicesList.paginate page limit filteredDevices
  = (List.firstn (Z.to_nat L) (List.skipn (Z.to_nat ((P - 1) * L)) filteredDevices),
     {| DevicesList.current := of_Z P;
        DevicesList.pages := of_Z ((Z.of_nat (List.length filteredDevices) + L - 1) / L);
        DevicesList.total := of_Z (Z.of_nat (List.length filteredDevices));
        DevicesList.limit := of_Z L |}).
Proof. apply paginate_page. Qed.

Lemma pagination_in_closed_form_witness :
  DevicesList.paginate (Some "2") (Some "02") ["a"; "b"; "c"; "d"; "e"]
  = (["c"; "d"],
     {| DevicesList.current := of_Z 2;
        DevicesList.pages := of_Z 3;
        DevicesList.total := of_Z 5;
        DevicesList.limit := of_Z 2 |})
  /\ DevicesList.paginate None None ["a"; "b"; "c"; "d"; "e"]
     = (["a"; "b"; "c"; "d"; "e"],
        {| DevicesList.current := of_Z 1;
           DevicesList.pages := of_Z 1;
           DevicesList.total := of_Z 5;
           DevicesList.limit := of_Z 50 |}).
Proof.
  split.
  - exact (pagination_in_closed_form (Some "2") (Some "02") 2 2 ["a"; "b"; "c"; "d"; "e"]
             ltac:(split; [reflexivity|split; [discriminate|reflexivity]])
             ltac:(split; [reflexivity|split; [discriminate|reflexivity]])
             ltac:(lia) ltac:(lia) ltac:(vm_compute; reflexivity)
             ltac:(vm_compute; reflexivity)).
  - exact (pagination_in_closed_form None None 1 50 ["a"; "b"; "c"; "d"; "e"]
             eq_refl eq_refl ltac:(lia) ltac:(lia) ltac:(vm_compute; reflexivity)
             ltac:(vm_compute; reflexivity)).
Defined.

(** X16. For a limit of at least 1, the pages from 1 to the number of
    pages reported, put end to end, are the filtered devices: none is
    listed twice, none is left out; and a page past the last one is
    empty. *)
Theorem pages_cover_the_list {A : Type} (limit : option string) (L : Z)
  (filteredDevices : list A) :
  reads_as limit 50 L -> 1 <= L < 2 ^ 20 ->
  Z.of_nat (List.length filteredDevices) < 2 ^ 32 ->
  let pages := (Z.of_nat (List.length filteredDevices) + L - 1) / L in
  List.concat
    (List.map
       (fun p => fst (DevicesList.paginate (Some (decimal_of_Z (Z.of_nat p))) limit
                        filteredDevices))
       (List.seq 1 (Z.to_nat pages)))
  = filteredDevices
  /\ (forall P, pages < P -> P < 2 ^ 32 ->
        fst (DevicesList.paginate (Some (decimal_of_Z P)) limit filteredDevices) = []).
Proof.
  intros HL [L1 L20] Hlen. cbv zeta.
  set (n := Z.of_nat (List.length filteredDevices)) in *.
  assert (V53 : 2 ^ 53 = 9007199254740992) by (vm_compute; reflexivity).
  assert (V32 : 2 ^ 32 = 4294967296) by (vm_compute; reflexivity).
  assert (V20 : 2 ^ 20 = 1048576) by (vm_compute; reflexivity).
  pose proof (Z.div_mod (n + L - 1) L ltac:(lia)) as Hdm.
  pose proof (Z.mod_pos_bound (n + L - 1) L ltac:(lia)) as Hr.
  set (K := (n + L - 1) / L) in *.
  assert (HK : (K - 1) * L < n <= K * L) by nia.
  assert (HK0 : 0 <= K) by (unfold n in *; nia).
  assert (Hpage : forall P, 1 <= P -> P < 2 ^ 32 ->
            fst (DevicesList.paginate (Some (decimal_of_Z P)) limit filteredDevices)
            = List.firstn (Z.to_nat L)
                (List.skipn (Z.to_nat ((P - 1) * L)) filteredDevices)).
  { intros P P1 P32.
    rewrite (paginate_page (Some (decimal_of_Z P)) limit P L filteredDevices);
      [reflexivity| |assumption|lia|lia|nia|fold n; lia].
    cbn. apply decimal_of_Z_text. lia. }
  split.
  - rewrite <- List.seq_shift, List.map_map.
    rewrite (List.map_ext_in _
               (fun p => List.firstn (Z.to_nat L)
                           (List.skipn (p * Z.to_nat L) filteredDevices))).
    + rewrite pages_concat. apply List.firstn_all2. unfold n in *. nia.
    + intros p Hp. apply List.in_seq in Hp.
      rewrite Hpage by (unfold n in *; nia).
      do 2 f_equal. nia.
  - intros P HP P32. rewrite Hpage by lia.
    rewrite List.skipn_all2; [apply List.firstn_nil|]. unfold n in *. nia.
Qed.

Lemma pages_cover_the_list_witness :
  List.concat
    (List.map
       (fun p => fst (DevicesList.paginate (Some (decimal_of_Z (Z.of_nat p))) (Some "2")
                        ["a"; "b"; "c"; "d"; "e"]))
       [1; 2; 3]%nat)
  = ["a"; "b"; "c"; "d"; "e"]
  /\ fst (DevicesList.paginate (Some "4") (Some "2") ["a"; "b"; "c"; "d"; "e"]) = [].
Proof.
  destruct (pages_cover_the_list (Some "2") 2 ["a"; "b"; "c"; "d"; "e"]
              ltac:(split; [reflexivity|split; [discriminate|reflexivity]])
              ltac:(split; [lia|vm_compute; reflexivity])
              ltac:(vm_compute; reflexivity)) as [Hall Hpast].
  split; [exact Hall|].
  exact (Hpast 4 ltac:(vm_compute; reflexivity) ltac:(vm_compute; reflexivity)).
Defined.

Section StatusFilter.
Import DevicesList.

Lemma status_name_eqb (a b : status) :
  String.eqb (status_name a) (status_name b) = status_eqb a b.
Proof. destruct a, b; reflexivity. Qed.

Lemma filter_status_spec (st : status) (now_at : nat -> Z) (i : nat)
  (devices : list listed) :
  filter_status (status_name st) now_at i devices = devices_in_status st now_at i devices.
Proof.
  revert i. induction devices as [|device rest IH]; intros i; [reflexivity|].
  cbn [filter_status devices_in_status]. cbv zeta.
  rewrite route_status_of_age, status_name_eqb.
  assert (Hage : age_of (now_at i) (view_of device)
                 = match reading device with
                   | Some _ => Some (now_at i - Device.lastSeen (doc device))
                   | None => None
                   end).
  { unfold age_of, view_of. cbn. destruct (reading device); reflexivity. }
  rewrite Hage, IH. reflexivity.
Qed.

Lemma filter_status_unknown (s : string) (now_at : nat -> Z) (i : nat)
  (devices : list listed) :
  (forall st, status_name st <> s) -> filter_status s now_at i devices = [].
Proof.
  intros Hs. revert i. induction devices as [|device rest IH]; intros i; [reflexivity|].
  cbn [filter_status]. cbv zeta.
  destruct (String.eqb_spec
              (status_name (DevicesRoute.getDeviceStatus (now_at i) (view_of device))) s)
    as [E|_]; [exfalso; exact (Hs _ E)|apply IH].
Qed.

End StatusFilter.

(** X17. Asked for a status by name, the handler paginates the devices
    that have it, each judged at the instant the clock is read for it: by
    the age of the [lastSeen] of its document when it has a reading, and as
    offline when it has none.  Asked for [all], for nothing or for the empty
    string, it paginates all the devices; asked for any other name, it
    paginates an empty list. *)
Theorem status_filter_selects (page limit : option string) (now_at : nat -> Z)
  (devices : list DevicesList.listed) :
  (forall st,
     DevicesList.respond page limit (Some (status_name st)) now_at devices
     = DevicesList.paginate page limit (devices_in_status st now_at 0 devices))
  /\ DevicesList.respond page limit None now_at devices
     = DevicesList.paginate page limit devices
  /\ DevicesList.respond page limit (Some "all") now_at devices
     = DevicesList.paginate page limit devices
  /\ DevicesList.respond page limit (Some EmptyString) now_at devices
     = DevicesList.paginate page limit devices
  /\ (forall s, s <> EmptyString -> s <> "all" -> (forall st, status_name st <> s) ->
        DevicesList.respond page limit (Some s) now_at devices
        = DevicesList.paginate page limit []).
Proof.
  split; [|split; [reflexivity|split; [reflexivity|split; [reflexivity|]]]].
  - intros st. unfold DevicesList.respond.
    assert (E : negb (is_empty (status_name st))
                && negb (String.eqb (status_name st) "all") = true)
      by (destruct st; reflexivity).
    rewrite E, filter_status_spec. reflexivity.
  - intros s Hne Hall Hs. unfold DevicesList.respond.
    destruct s as [|c r]; [contradiction|]. cbn [is_empty negb andb].
    destruct (String.eqb_spec (String c r) "all") as [E|_]; [contradiction|].
    cbn [negb]. rewrite filter_status_unknown by exact Hs. reflexivity.
Qed.

(** A device seen at instant 1000 with a reading, and one without any. *)
Lemma status_filter_selects_witness :
  let seen :=
    {| DevicesList.doc :=
         {| Device.uid := "dev1"; Device.name := "Device dev1";
            Device.firmware := "1.2.0"; Device.isActive := true;
            Device.lastSeen := 1000; Device.location := "Unknown";
            Device.deviceType := "sensor" |};
       DevicesList.reading := Some sample_response |} in
  let silent :=
    {| DevicesList.doc :=
         {| Device.uid := "dev2"; Device.name := "Device dev2";
            Device.firmware := "unknown"; Device.isActive := true;
            Device.lastSeen := 1000; Device.location := "Unknown";
            Device.deviceType := "sensor" |};
       DevicesList.reading := None |} in
  fst (DevicesList.respond None None (Some "online") (fun _ => 2000) [seen; silent])
  = [seen]
  /\ fst (DevicesList.respond None None (Some "offline") (fun _ => 2000) [seen; silent])
     = [silent]
  /\ fst (DevicesList.respond None None (Some "Online") (fun _ => 2000) [seen; silent])
     = [].
Proof.
  cbv zeta.
  match goal with
  | |- fst (DevicesList.respond _ _ _ ?f ?l) = _ /\ _ =>
      destruct (status_filter_selects None None f l) as [Hst [_ [_ [_ Hother]]]]
  end.
  split; [|split].
  - pose proof (Hst online) as H. cbn [status_name] in H. rewrite H. reflexivity.
  - pose proof (Hst offline) as H. cbn [status_name] in H. rewrite H. reflexivity.
  - rewrite Hother; [reflexivity|discriminate|discriminate|].
    intros st. destruct st; discriminate.
Defined.

(** X18. The answer of the handler carries the number of devices and of
    pages under [data.pagination], as [total] and [pages]; the page reads
    [data.total] and [data.totalPages].  Whatever the devices and the
    numbers, after a fetch both are undefined in the state of the page, its
    page number is what it was, and the test that shows the page buttons is
    false. *)
Theorem page_never_gets_the_totals (devices : list value) (p : DevicesList.pagination)
  (prev : DevicesPageFetch.pagination) :
  let after := DevicesPageFetch.fetchDevices (DevicesList.body devices p) prev in
  DevicesPageFetch.total after = VUndefined
  /\ DevicesPageFetch.totalPages after = VUndefined
  /\ DevicesPageFetch.page after = DevicesPageFetch.page prev
  /\ DevicesPageFetch.limit after = DevicesPageFetch.limit prev
  /\ DevicesPageFetch.shows_page_buttons after = Normal false
  /\ get (get (get (DevicesList.body devices p) "data") "pagination") "total"
     = DevicesList.json_number (DevicesList.total p)
  /\ get (get (get (DevicesList.body devices p) "data") "pagination") "pages"
     = DevicesList.json_number (DevicesList.pages p).
Proof. cbv zeta. repeat split. Qed.

(** ** Properties of the live updates *)

Lemma slice_first {A : Type} (l : list A) :
  JSArray.slice (of_Z 0) (Some (of_Z 100)) l = List.firstn 100 l.
Proof.
  unfold JSArray.slice.
  change (of_Z 0) with (Zero false). change (of_Z 100) with (Finite false 25 2).
  cbv beta iota zeta. change (trunc (Zero false)) with 0.
  change (trunc (Finite false 25 2)) with 100.
  change (0 <? 0) with false. change (100 <? 0) with false. cbv iota.
  rewrite (Z.min_l 0) by lia. cbn [Z.to_nat List.skipn]. rewrite Z.sub_0_r.
  destruct (Nat.le_gt_cases (List.length l) 100) as [Hle|Hgt].
  - rewrite Z.min_r by lia. rewrite Z.max_l by lia. rewrite Nat2Z.id.
    rewrite List.firstn_all. symmetry. apply List.firstn_all2. exact Hle.
  - rewrite Z.min_l by lia. reflexivity.
Qed.

Lemma slice_last {A : Type} (l : list A) :
  JSArray.slice (of_Z (-50)) None l = List.skipn (List.length l - 50) l.
Proof.
  unfold JSArray.slice.
  change (of_Z (-50)) with (Finite true 25 1).
  cbv beta iota zeta. change (trunc (Finite true 25 1)) with (-50).
  change (-50 <? 0) with true. cbv iota.
  set (len := Z.of_nat (List.length l)).
  assert (Hk : Z.to_nat (Z.max (len + -50) 0) = (List.length l - 50)%nat)
    by (unfold len; lia).
  rewrite Hk. apply List.firstn_all2.
  rewrite List.length_skipn. unfold len. lia.
Qed.

Section LiveUpdates.
Import SocketContext.

Lemma on_telemetry_new_firstn deviceId data now prev :
  on_telemetry_new deviceId data now prev
  = List.firstn 100
      ({| tu_deviceId := deviceId; tu_data := data; tu_timestamp := now |} :: prev).
Proof. unfold on_telemetry_new. apply slice_first. Qed.

Lemma receive_all_telemetry evs st :
  telemetryUpdates (receive_all evs st)
  = match telemetry_of evs with
    | [] => telemetryUpdates st
    | _ => List.firstn 100 (List.rev (telemetry_of evs) ++ telemetryUpdates st)
    end.
Proof.
  revert st. induction evs as [|[ev now] rest IH]; intros st; [reflexivity|].
  cbn [receive_all]. rewrite IH. clear IH.
  destruct ev as [id data|id seen]; cbn [receive telemetry_of telemetryUpdates].
  - rewrite on_telemetry_new_firstn.
    destruct (telemetry_of rest) as [|u us] eqn:E.
    + reflexivity.
    + cbn [List.rev]. rewrite <- !app_assoc. cbn [app].
      set (new := {| tu_deviceId := id; tu_data := data; tu_timestamp := now |}).
      set (front := (List.rev us ++ [u])%list).
      (* the hundred first of [front ++ firstn 100 (new :: prev)] *)
      assert (H : forall (f : list telemetry_update) l,
                 List.firstn 100 (f ++ List.firstn 100 l) = List.firstn 100 (f ++ l)).
      { intros f l. rewrite !List.firstn_app. f_equal.
        rewrite List.firstn_firstn. f_equal. lia. }
      rewrite !app_assoc. rewrite H. rewrite <- (app_assoc _ [new]). reflexivity.
  - reflexivity.
Qed.

End LiveUpdates.

Lemma find_app_first {A : Type} (f : A -> bool) (a b : list A) :
  List.find f (a ++ b)
  = match List.find f a with
    | Some x => Some x
    | None => List.find f b
    end.
Proof.
  induction a as [|x a IH]; [reflexivity|]. cbn.
  destruct (f x); [reflexivity|exact IH].
Qed.

Lemma find_none_forall {A : Type} (f : A -> bool) (l : list A) :
  Forall (fun x => f x = false) l -> List.find f l = None.
Proof.
  induction 1 as [|x l Hx _ IH]; [reflexivity|]. cbn. rewrite Hx. exact IH.
Qed.

Lemma telemetry_of_app (a b : list (MQTTWorker.emission * Z)) :
  telemetry_of (a ++ b) = (telemetry_of a ++ telemetry_of b)%list.
Proof.
  induction a as [|[[id data|id seen] now] a IH]; cbn; [reflexivity| |exact IH].
  rewrite IH. reflexivity.
Qed.

Lemma telemetry_updates_list (evs : list (MQTTWorker.emission * Z)) :
  SocketContext.telemetryUpdates (SocketContext.receive_all evs SocketContext.initial)
  = List.firstn 100 (List.rev (telemetry_of evs)).
Proof.
  rewrite receive_all_telemetry. cbn [SocketContext.initial SocketContext.telemetryUpdates].
  destruct (telemetry_of evs); [reflexivity|]. rewrite app_nil_r. reflexivity.
Qed.

(** X19. The client keeps the telemetry events it received newest first
    and a hundred at most: after any events, the list is the last hundred
    [telemetry:new] events, latest in front.  Looking up the latest update
    of a device returns the last event received for it, as long as fewer
    than a hundred events have arrived since. *)
Theorem telemetry_updates_newest_first (evs : list (MQTTWorker.emission * Z)) :
  let st := SocketContext.receive_all evs SocketContext.initial in
  SocketContext.telemetryUpdates st = List.firstn 100 (List.rev (telemetry_of evs))
  /\ (List.length (SocketContext.telemetryUpdates st) <= 100)%nat
  /\ (forall before after deviceId data now,
        evs = (before ++ (MQTTWorker.TelemetryNew deviceId data, now) :: after)%list ->
        (List.length (telemetry_of after) < 100)%nat ->
        Forall (fun u => SocketContext.tu_deviceId u <> deviceId) (telemetry_of after) ->
        SocketContext.getLatestTelemetryForDevice st deviceId
        = Some {| SocketContext.tu_deviceId := deviceId;
                  SocketContext.tu_data := data;
                  SocketContext.tu_timestamp := now |}).
Proof.
  cbv zeta.
  pose proof (telemetry_updates_list evs) as Hlist.
  split; [exact Hlist|]. split.
  - rewrite Hlist. apply List.firstn_le_length.
  - intros before after deviceId data now -> Hlen Hother.
    unfold SocketContext.getLatestTelemetryForDevice. rewrite Hlist.
    set (u := {| SocketContext.tu_deviceId := deviceId;
                 SocketContext.tu_data := data;
                 SocketContext.tu_timestamp := now |}).
    assert (Hshape :
      List.rev (telemetry_of
                  (before ++ (MQTTWorker.TelemetryNew deviceId data, now) :: after))
      = (List.rev (telemetry_of after) ++ u :: List.rev (telemetry_of before))%list).
    { rewrite telemetry_of_app. cbn [telemetry_of]. fold u.
      rewrite List.rev_app_distr. cbn [List.rev]. rewrite <- app_assoc. reflexivity. }
    rewrite Hshape. rewrite List.firstn_app.
    rewrite (List.firstn_all2 (List.rev (telemetry_of after)))
      by (rewrite List.length_rev; lia).
    rewrite List.length_rev.
    destruct (100 - List.length (telemetry_of after))%nat as [|k] eqn:Ek; [lia|].
    cbn [List.firstn]. rewrite find_app_first.
    rewrite find_none_forall.
    + cbn [List.find]. unfold u at 1. cbn [SocketContext.tu_deviceId].
      rewrite String.eqb_refl. reflexivity.
    + apply Forall_rev. eapply Forall_impl; [|exact Hother].
      cbn. intros u' Hu. apply String.eqb_neq. exact Hu.
Qed.

(** Events for [dev1], for [dev2] and for [dev1] again: two are kept for
    [dev1], and the one looked up is the last. *)
Lemma telemetry_updates_newest_first_witness :
  SocketContext.getLatestTelemetryForDevice
    (SocketContext.receive_all
       [(MQTTWorker.TelemetryNew "dev1" sample_response, 5000);
        (MQTTWorker.TelemetryNew "dev2" sample_response, 6000);
        (MQTTWorker.TelemetryNew "dev1" sample_response, 7000)]
       SocketContext.initial)
    "dev1"
  = Some {| SocketContext.tu_deviceId := "dev1";
            SocketContext.tu_data := sample_response;
            SocketContext.tu_timestamp := 7000 |}.
Proof.
  pose proof (telemetry_updates_newest_first
                [(MQTTWorker.TelemetryNew "dev1" sample_response, 5000);
                 (MQTTWorker.TelemetryNew "dev2" sample_response, 6000);
                 (MQTTWorker.TelemetryNew "dev1" sample_response, 7000)]) as H.
  cbv zeta in H. destruct H as [_ [_ H]].
  exact (H [(MQTTWorker.TelemetryNew "dev1" sample_response, 5000);
            (MQTTWorker.TelemetryNew "dev2" sample_response, 6000)]
           [] "dev1" sample_response 7000 eq_refl ltac:(cbn; lia) ltac:(constructor)).
Defined.

Section DeviceUpdates.
Import SocketContext.

Lemma findIndex_from_spec {A : Type} (f : A -> bool) (i : Z) (l : list A) :
  (JSArray.findIndex_from f i l = -1 /\ Forall (fun x => f x = false) l)
  \/ exists a x b,
       l = (a ++ x :: b)%list /\ Forall (fun y => f y = false) a /\ f x = true
       /\ JSArray.findIndex_from f i l = i + Z.of_nat (List.length a).
Proof.
  revert i. induction l as [|y l IH]; intros i; [left; split; [reflexivity|constructor]|].
  cbn [JSArray.findIndex_from]. destruct (f y) eqn:Hy.
  - right. exists [], y, l. repeat split; [constructor|assumption|cbn; lia].
  - destruct (IH (i + 1)) as [[H1 H2]|[a [x [b [-> [Ha [Hx Hi]]]]]]].
    + left. split; [assumption|constructor; assumption].
    + right. exists (y :: a), x, b. repeat split; [constructor; assumption|assumption|].
      rewrite Hi. cbn [List.length]. lia.
Qed.

Lemma assign_middle {A : Type} (a : list A) (x v : A) (b : list A) :
  JSArray.assign (List.length a) v (a ++ x :: b) = (a ++ v :: b)%list.
Proof.
  induction a as [|y a IH]; [reflexivity|]. cbn. rewrite IH. reflexivity.
Qed.

(** What the handler of [device:update] makes of a list in order. *)
Lemma on_device_update_cases deviceId lastSeen now prev :
  device_updates_ok prev ->
  let entry :=
    {| du_deviceId := deviceId; du_lastSeen := lastSeen; du_timestamp := now |} in
  (exists a old b,
      prev = (a ++ old :: b)%list /\ du_deviceId old = deviceId
      /\ Forall (fun u => du_deviceId u <> deviceId) a
      /\ on_device_update deviceId lastSeen now prev = (a ++ entry :: b)%list)
  \/ (Forall (fun u => du_deviceId u <> deviceId) prev
      /\ on_device_update deviceId lastSeen now prev
         = List.skipn (List.length prev + 1 - 50) (prev ++ [entry])).
Proof.
  intros [Hnd Hlen]. cbv zeta. unfold on_device_update, JSArray.findIndex.
  destruct (findIndex_from_spec (fun update => String.eqb (du_deviceId update) deviceId) 0 prev)
    as [[Hi Hnone]|[a [old [b [-> [Ha [Hold Hi]]]]]]]; rewrite Hi.
  - right. change (0 <=? -1) with false. cbv iota. split.
    + eapply Forall_impl; [|exact Hnone]. cbn. intros u Hu. apply String.eqb_neq. exact Hu.
    + rewrite slice_last. rewrite List.length_app. reflexivity.
  - left. exists a, old, b. apply String.eqb_eq in Hold.
    split; [reflexivity|]. split; [exact Hold|]. split.
    + eapply Forall_impl; [|exact Ha]. cbn. intros u Hu. apply String.eqb_neq. exact Hu.
    + destruct (Z.leb_spec 0 (0 + Z.of_nat (List.length a))); [|lia].
      replace (Z.to_nat (0 + Z.of_nat (List.length a))) with (List.length a) by lia.
      rewrite assign_middle, slice_last.
      rewrite List.length_app in *. cbn [List.length] in *.
      replace (List.length a + S (List.length b) - 50)%nat with 0%nat by lia.
      reflexivity.
Qed.

Lemma NoDup_skipn {A : Type} (n : nat) (l : list A) : NoDup l -> NoDup (List.skipn n l).
Proof.
  revert l. induction n as [|n IH]; intros l H; [assumption|].
  destruct l as [|x l]; [constructor|]. cbn. apply IH. inversion H; assumption.
Qed.

Lemma find_skipn_last {A : Type} (f : A -> bool) (n : nat) (l : list A) (x : A) :
  Forall (fun y => f y = false) l -> f x = true ->
  (n <= List.length l)%nat ->
  List.find f (List.skipn n (l ++ [x])) = Some x.
Proof.
  intros Hl Hx Hn. rewrite List.skipn_app.
  replace (n - List.length l)%nat with 0%nat by lia. cbn [List.skipn].
  rewrite find_app_first. rewrite find_none_forall.
  - cbn. rewrite Hx. reflexivity.
  - apply Forall_forall. intros y Hy. rewrite Forall_forall in Hl. apply Hl.
    rewrite <- (List.firstn_skipn n l). apply in_or_app. right. exact Hy.
Qed.

Lemma on_device_update_ok deviceId lastSeen now prev :
  device_updates_ok prev ->
  let entry :=
    {| du_deviceId := deviceId; du_lastSeen := lastSeen; du_timestamp := now |} in
  device_updates_ok (on_device_update deviceId lastSeen now prev)
  /\ List.find (fun update => String.eqb (du_deviceId update) deviceId)
               (on_device_update deviceId lastSeen now prev) = Some entry.
Proof.
  intros Hok. cbv zeta. pose proof Hok as [Hnd Hlen].
  destruct (on_device_update_cases deviceId lastSeen now prev Hok)
    as [[a [old [b [-> [Hold [Ha ->]]]]]]|[Hnone ->]].
  - split.
    + split.
      * rewrite List.map_app in *. cbn [List.map du_deviceId] in *.
        rewrite <- Hold. exact Hnd.
      * rewrite List.length_app in *. exact Hlen.
    + rewrite find_app_first. rewrite find_none_forall.
      * cbn. rewrite String.eqb_refl. reflexivity.
      * eapply Forall_impl; [|exact Ha]. cbn. intros u Hu. apply String.eqb_neq. exact Hu.
  - split.
    + split.
      * rewrite <- List.skipn_map. apply NoDup_skipn.
        rewrite List.map_app. cbn.
        apply NoDup_app; [assumption|repeat constructor; tauto|].
        intros x Hin [<-|[]]. apply in_map_iff in Hin as [u [Hu Hin]].
        rewrite Forall_forall in Hnone. exact (Hnone u Hin Hu).
      * rewrite List.length_skipn, List.length_app. cbn. lia.
    + apply find_skipn_last.
      * eapply Forall_impl; [|exact Hnone]. cbn. intros u Hu. apply String.eqb_neq. exact Hu.
      * cbn. apply String.eqb_refl.
      * lia.
Qed.

Lemma receive_ok ev now st :
  device_updates_ok (deviceUpdates st) -> device_updates_ok (deviceUpdates (receive ev now st)).
Proof.
  intros Hok. destruct ev as [id data|id seen]; cbn [receive deviceUpdates]; [exact Hok|].
  apply on_device_update_ok. exact Hok.
Qed.

Lemma receive_all_ok evs st :
  device_updates_ok (deviceUpdates st) -> device_updates_ok (deviceUpdates (receive_all evs st)).
Proof.
  revert st. induction evs as [|[ev now] rest IH]; intros st Hok; [exact Hok|].
  cbn [receive_all]. apply IH, receive_ok, Hok.
Qed.

End DeviceUpdates.

(** X20. Whatever events arrive, the client's list of device updates
    holds one entry for a device and fifty entries at most.  A further
    [device:update] for a device takes the place of the entry the device
    has, the list keeping its order, or is added at the end when it has
    none; either way the entry found for the device afterwards is that
    update, with its instant of arrival. *)
Theorem device_updates_one_per_device (evs : list (MQTTWorker.emission * Z))
  (deviceId : string) (lastSeen now : Z) :
  let st := SocketContext.receive_all evs SocketContext.initial in
  let st' := SocketContext.receive (MQTTWorker.DeviceUpdate deviceId lastSeen) now st in
  let entry :=
    {| SocketContext.du_deviceId := deviceId;
       SocketContext.du_lastSeen := Some lastSeen;
       SocketContext.du_timestamp := now |} in
  device_updates_ok (SocketContext.deviceUpdates st)
  /\ device_updates_ok (SocketContext.deviceUpdates st')
  /\ List.find (fun update => String.eqb (SocketContext.du_deviceId update) deviceId)
               (SocketContext.deviceUpdates st') = Some entry
  /\ ((exists a old b,
          SocketContext.deviceUpdates st = (a ++ old :: b)%list
          /\ SocketContext.du_deviceId old = deviceId
          /\ SocketContext.deviceUpdates st' = (a ++ entry :: b)%list)
      \/ (Forall (fun u => SocketContext.du_deviceId u <> deviceId)
                 (SocketContext.deviceUpdates st)
          /\ exists kept, SocketContext.deviceUpdates st' = (kept ++ [entry])%list)).
Proof.
  cbv zeta.
  assert (Hok : device_updates_ok
                  (SocketContext.deviceUpdates
                     (SocketContext.receive_all evs SocketContext.initial))).
  { apply receive_all_ok. split; [constructor|cbn; lia]. }
  split; [exact Hok|].
  cbn [SocketContext.receive SocketContext.deviceUpdates].
  destruct (on_device_update_ok deviceId (Some lastSeen) now _ Hok) as [Hok' Hfind].
  split; [exact Hok'|]. split; [exact Hfind|].
  destruct (on_device_update_cases deviceId (Some lastSeen) now _ Hok)
    as [[a [old [b [E [Hold [_ E']]]]]]|[Hnone E']].
  - left. exists a, old, b. auto.
  - right. split; [exact Hnone|]. rewrite E'.
    rewrite List.skipn_app.
    destruct Hok as [_ Hlen].
    replace (List.length
               (SocketContext.deviceUpdates
                  (SocketContext.receive_all evs SocketContext.initial))
             + 1 - 50
             - List.length
                 (SocketContext.deviceUpdates
                    (SocketContext.receive_all evs SocketContext.initial)))%nat
      with 0%nat by lia.
    eexists. reflexivity.
Qed.

(** X21. The status the socket context gives for a device is [unknown]
    when no device update is kept for it, and otherwise goes by the age of
    the update, counted from the server's [lastSeen] when the update has
    one and from its arrival otherwise: online below 5 minutes, warning from
    5 minutes on and below 30, offline from 30 minutes on. *)
Theorem context_status_thresholds (now : Z) (st : SocketContext.state)
  (deviceId : string) :
  SocketContext.getDeviceStatus now st deviceId
  = match List.find (fun update => String.eqb (SocketContext.du_deviceId update) deviceId)
                    (SocketContext.deviceUpdates st) with
    | None => "unknown"
    | Some update =>
        status_name (status_of_age (Some (now - seen_at update)))
    end.
Proof.
  unfold SocketContext.getDeviceStatus.
  destruct (List.find _ _) as [update|]; [|reflexivity].
  cbv zeta. fold (seen_at update). rewrite !minutes_lt by lia.
  unfold status_of_age.
  change (5 * 60 * 1000) with (5 * 60000). change (30 * 60 * 1000) with (30 * 60000).
  destruct (now - seen_at update <? 5 * 60000); [reflexivity|].
  destruct (now - seen_at update <? 30 * 60000); reflexivity.
Qed.

Section PageEffects.
Import SocketContext DevicesPageEffects.

Lemma nth_error_last {A : Type} (l : list A) (x : A) :
  List.nth_error (l ++ [x]) (List.length (l ++ [x]) - 1) = Some x.
Proof.
  rewrite List.length_app. cbn [List.length].
  replace (List.length l + 1 - 1)%nat with (List.length l) by lia.
  rewrite List.nth_error_app2 by lia. rewrite Nat.sub_diag. reflexivity.
Qed.

Lemma on_telemetryUpdates_last (l : list telemetry_update) (x : telemetry_update)
  (prevDevices : list device) :
  on_telemetryUpdates (l ++ [x]) prevDevices
  = List.map (fun d => if String.eqb (uid d) (tu_deviceId x)
                       then refreshed (tu_timestamp x) d else d) prevDevices.
Proof.
  unfold on_telemetryUpdates. rewrite nth_error_last.
  destruct (Z.ltb_spec 0 (Z.of_nat (List.length (l ++ [x])))) as [_|H];
    [reflexivity|].
  rewrite List.length_app in H. cbn in H. lia.
Qed.

Lemma on_deviceUpdates_last (l : list device_update) (x : device_update)
  (prevDevices : list device) :
  on_deviceUpdates (l ++ [x]) prevDevices
  = List.map (fun d => if String.eqb (uid d) (du_deviceId x)
                       then {| uid := uid d;
                               view := {| lastSeen := Some (du_timestamp x);
                                          latestReading := latestReading (view d) |} |}
                       else d) prevDevices.
Proof.
  unfold on_deviceUpdates. rewrite nth_error_last.
  destruct (Z.ltb_spec 0 (Z.of_nat (List.length (l ++ [x])))) as [_|H];
    [reflexivity|].
  rewrite List.length_app in H. cbn in H. lia.
Qed.

End PageEffects.

(** X22. The devices page applies the last element of the telemetry
    updates, and the socket context keeps these newest first: what the page
    applies is therefore the oldest update kept.  Until a hundred telemetry
    events have arrived that is the first one ever received, and from then
    on the one received 99 events before the latest; the device it names
    gets its instant of arrival as [lastSeen] and as the instant of its
    latest reading, and every other device stays as it is. *)
Theorem page_applies_oldest_update (evs : list (MQTTWorker.emission * Z))
  (dropped rest : list SocketContext.telemetry_update)
  (oldest : SocketContext.telemetry_update)
  (prevDevices : list DevicesPageEffects.device) :
  telemetry_of evs = (dropped ++ oldest :: rest)%list ->
  (List.length rest <= 99)%nat ->
  (dropped = [] \/ List.length rest = 99%nat) ->
  DevicesPageEffects.on_telemetryUpdates
    (SocketContext.telemetryUpdates
       (SocketContext.receive_all evs SocketContext.initial))
    prevDevices
  = List.map
      (fun d =>
         if String.eqb (DevicesPageEffects.uid d) (SocketContext.tu_deviceId oldest)
         then refreshed (SocketContext.tu_timestamp oldest) d
         else d)
      prevDevices.
Proof.
  intros Hevs Hlen Hcase.
  rewrite (telemetry_updates_list evs), Hevs.
  rewrite List.rev_app_distr. cbn [List.rev]. rewrite <- app_assoc. cbn [app].
  assert (Hkept : List.firstn 100 ((List.rev rest ++ [oldest]) ++ List.rev dropped)
                  = (List.rev rest ++ [oldest])%list).
  { destruct Hcase as [->|H99].
    - cbn [List.rev]. rewrite app_nil_r. apply List.firstn_all2.
      rewrite List.length_app, List.length_rev. cbn. lia.
    - rewrite List.firstn_app.
      rewrite List.length_app, List.length_rev. cbn [List.length].
      replace (100 - (List.length rest + 1))%nat with 0%nat by lia.
      rewrite List.firstn_O, app_nil_r. apply List.firstn_all2.
      rewrite List.length_app, List.length_rev. cbn. lia. }
  rewrite <- app_assoc in Hkept. cbn [app] in Hkept.
  rewrite Hkept. apply on_telemetryUpdates_last.
Qed.

(** Two events, for [dev1] and then for [dev2]: the page refreshes [dev1],
    the device of the older one. *)
Lemma page_applies_oldest_update_witness :
  DevicesPageEffects.on_telemetryUpdates
    (SocketContext.telemetryUpdates
       (SocketContext.receive_all
          [(MQTTWorker.TelemetryNew "dev1" sample_response, 5000);
           (MQTTWorker.TelemetryNew "dev2" sample_response, 6000)]
          SocketContext.initial))
    [{| DevicesPageEffects.uid := "dev1";
        DevicesPageEffects.view := {| lastSeen := None; latestReading := None |} |};
     {| DevicesPageEffects.uid := "dev2";
        DevicesPageEffects.view := {| lastSeen := None; latestReading := None |} |}]
  = [{| DevicesPageEffects.uid := "dev1";
        DevicesPageEffects.view :=
          {| lastSeen := Some 5000; latestReading := Some 5000 |} |};
     {| DevicesPageEffects.uid := "dev2";
        DevicesPageEffects.view := {| lastSeen := None; latestReading := None |} |}].
Proof.
  rewrite (page_applies_oldest_update
             [(MQTTWorker.TelemetryNew "dev1" sample_response, 5000);
              (MQTTWorker.TelemetryNew "dev2" sample_response, 6000)]
             []
             [{| SocketContext.tu_deviceId := "dev2";
                 SocketContext.tu_data := sample_response;
                 SocketContext.tu_timestamp := 6000 |}]
             {| SocketContext.tu_deviceId := "dev1";
                SocketContext.tu_data := sample_response;
                SocketContext.tu_timestamp := 5000 |}
             _ eq_refl ltac:(cbn; lia) (or_introl eq_refl)).
  reflexivity.
Defined.

(** X23. The page applies the last element of the device updates too,
    and an update for a device that has an entry already takes the place of
    that entry: when the device is not the last of the list, the last
    element is the same as before, and the page applies that one again,
    making of its devices what it made of them before the update came. *)
Theorem page_misses_update_of_listed_device (evs : list (MQTTWorker.emission * Z))
  (front : list SocketContext.device_update) (last : SocketContext.device_update)
  (deviceId : string) (lastSeen now : Z)
  (prevDevices : list DevicesPageEffects.device) :
  let st := SocketContext.receive_all evs SocketContext.initial in
  let st' := SocketContext.receive (MQTTWorker.DeviceUpdate deviceId lastSeen) now st in
  SocketContext.deviceUpdates st = (front ++ [last])%list ->
  In deviceId (List.map SocketContext.du_deviceId front) ->
  (exists front', SocketContext.deviceUpdates st' = (front' ++ [last])%list)
  /\ DevicesPageEffects.on_deviceUpdates (SocketContext.deviceUpdates st') prevDevices
     = DevicesPageEffects.on_deviceUpdates (SocketContext.deviceUpdates st) prevDevices.
Proof.
  cbv zeta. intros Hst Hin.
  assert (Hok : device_updates_ok
                  (SocketContext.deviceUpdates
                     (SocketContext.receive_all evs SocketContext.initial))).
  { apply receive_all_ok. split; [constructor|cbn; lia]. }
  cbn [SocketContext.receive SocketContext.deviceUpdates].
  destruct (on_device_update_cases deviceId (Some lastSeen) now _ Hok)
    as [[a [old [b [E [Hold [Ha E']]]]]]|[Hnone _]].
  - rewrite E'. rewrite Hst in *. destruct Hok as [Hnd _].
    destruct (List.exists_last (l := old :: b) ltac:(discriminate)) as [m [z Hm]].
    assert (Hz : (a ++ m)%list = front /\ z = last).
    { apply app_inj_tail. rewrite <- app_assoc, <- Hm. symmetry. exact E. }
    destruct Hz as [<- ->].
    destruct m as [|old' m'].
    + (* the entry of the device would be the last one *)
      exfalso. cbn in Hm. injection Hm as -> ->.
      rewrite app_nil_r in *. rewrite List.map_app in Hnd. cbn in Hnd.
      apply NoDup_remove_2 in Hnd. rewrite app_nil_r in Hnd.
      apply Hnd. rewrite Hold. exact Hin.
    + cbn in Hm. injection Hm as <- ->.
      assert (Hnew : forall e : SocketContext.device_update,
                       (a ++ e :: m' ++ [last])%list = ((a ++ e :: m') ++ [last])%list).
      { intros e. rewrite <- app_assoc. reflexivity. }
      rewrite Hnew. split; [eexists; reflexivity|].
      rewrite !on_deviceUpdates_last. reflexivity.
  - exfalso. rewrite Hst in Hnone. apply Forall_app in Hnone as [Hfront _].
    apply in_map_iff in Hin as [u [Hu Hin]].
    rewrite Forall_forall in Hfront. exact (Hfront u Hin Hu).
Qed.

(** Updates for [dev1], for [dev2], and for [dev1] again: the last element
    is still the entry of [dev2], so the page leaves [dev1] as it was after
    the first pass. *)
Lemma page_misses_update_of_listed_device_witness :
  DevicesPageEffects.on_deviceUpdates
    (SocketContext.deviceUpdates
       (SocketContext.receive_all
          [(MQTTWorker.DeviceUpdate "dev1" 4000, 5000);
           (MQTTWorker.DeviceUpdate "dev2" 5500, 6000);
           (MQTTWorker.DeviceUpdate "dev1" 6500, 7000)]
          SocketContext.initial))
    [{| DevicesPageEffects.uid := "dev1";
        DevicesPageEffects.view := {| lastSeen := Some 5000; latestReading := Some 4000 |} |}]
  = [{| DevicesPageEffects.uid := "dev1";
        DevicesPageEffects.view := {| lastSeen := Some 5000; latestReading := Some 4000 |} |}].
Proof.
  pose proof (page_misses_update_of_listed_device
                [(MQTTWorker.DeviceUpdate "dev1" 4000, 5000);
                 (MQTTWorker.DeviceUpdate "dev2" 5500, 6000)]
                [{| SocketContext.du_deviceId := "dev1";
                    SocketContext.du_lastSeen := Some 4000;
                    SocketContext.du_timestamp := 5000 |}]
                {| SocketContext.du_deviceId := "dev2";
                   SocketContext.du_lastSeen := Some 5500;
                   SocketContext.du_timestamp := 6000 |}
                "dev1" 6500 7000
                [{| DevicesPageEffects.uid := "dev1";
                    DevicesPageEffects.view :=
                      {| lastSeen := Some 5000; latestReading := Some 4000 |} |}])
    as H.
  cbv zeta in H. destruct (H eq_refl (or_introl eq_refl)) as [_ Hpage].
  exact Hpage.
Defined.

(** ** From the worker to the client *)

Lemma receive_all_app (a b : list (MQTTWorker.emission * Z)) (st : SocketContext.state) :
  SocketContext.receive_all (a ++ b) st
  = SocketContext.receive_all b (SocketContext.receive_all a st).
Proof.
  revert st. induction a as [|[ev now] a IH]; intros st; [reflexivity|].
  cbn [app SocketContext.receive_all]. apply IH.
Qed.

(** X24. The two events an accepted message emits, once a client has
    received them after whatever came earlier: the latest telemetry update
    it holds for the device is the API response of the reading just stored,
    and the status it gives for the device goes by the age of the instant
    the worker announced, online below 5 minutes, warning below 30, offline
    from then on. *)
Theorem emitted_events_reach_the_client (JSON_parse : string -> option value)
  (c : MQTTWorker.conditions) (topic message : string) (payload : value)
  (data : sensor_data) (w : MQTTWorker.world)
  (earlier : list (MQTTWorker.emission * Z)) (t1 t2 now : Z) :
  accepted JSON_parse c topic message payload data ->
  let id := deviceId_of topic in
  let w' := MQTTWorker.handleMessage JSON_parse true c topic message w in
  exists reading announced,
    MQTTWorker.readings w' = (MQTTWorker.readings w ++ [reading])%list
    /\ MQTTWorker.emitted w'
       = (MQTTWorker.emitted w
          ++ [MQTTWorker.TelemetryNew id (Telemetry.toAPIResponse reading);
              MQTTWorker.DeviceUpdate id announced])%list
    /\ let st :=
         SocketContext.receive_all
           (earlier
            ++ [(MQTTWorker.TelemetryNew id (Telemetry.toAPIResponse reading), t1);
                (MQTTWorker.DeviceUpdate id announced, t2)])
           SocketContext.initial in
       SocketContext.getLatestTelemetryForDevice st id
       = Some {| SocketContext.tu_deviceId := id;
                 SocketContext.tu_data := Telemetry.toAPIResponse reading;
                 SocketContext.tu_timestamp := t1 |}
       /\ SocketContext.getDeviceStatus now st id
          = status_name (status_of_age (Some (now - announced))).
Proof.
  intros Hacc. cbv zeta.
  destruct (handleMessage_emits JSON_parse c topic message payload data w Hacc)
    as [reading [announced [Hr [He _]]]].
  exists reading, announced. split; [exact Hr|]. split; [exact He|].
  rewrite receive_all_app. cbn [SocketContext.receive_all SocketContext.receive].
  set (st0 := SocketContext.receive_all earlier SocketContext.initial).
  assert (Hok : device_updates_ok (SocketContext.deviceUpdates st0)).
  { apply receive_all_ok. split; [constructor|cbn; lia]. }
  split.
  - unfold SocketContext.getLatestTelemetryForDevice.
    cbn [SocketContext.telemetryUpdates].
    rewrite on_telemetry_new_firstn. cbn [List.firstn List.find].
    cbn [SocketContext.tu_deviceId]. rewrite String.eqb_refl. reflexivity.
  - unfold SocketContext.getDeviceStatus. cbn [SocketContext.deviceUpdates].
    destruct (on_device_update_ok (deviceId_of topic) (Some announced) t2 _ Hok)
      as [_ Hfind].
    rewrite Hfind. cbn [SocketContext.du_lastSeen]. cbv zeta.
    rewrite !minutes_lt by lia. unfold status_of_age.
    change (5 * 60 * 1000) with (5 * 60000). change (30 * 60 * 1000) with (30 * 60000).
    destruct (now - announced <? 5 * 60000); [reflexivity|].
    destruct (now - announced <? 30 * 60000); reflexivity.
Qed.

(** The sample message, its two events received at 1500 and 1501 by a client
    that had received nothing: asked at 2000, the client finds the device
    online and holds the reading's temperature of 10. *)
Lemma emitted_events_reach_the_client_witness :
  let evs :=
    MQTTWorker.emitted
      (MQTTWorker.handleMessage (parses_to sample_payload) true calm sample_topic
         "(the text of the sample body)" empty_world) in
  let st :=
    SocketContext.receive_all (List.combine evs [1500; 1501]) SocketContext.initial in
  SocketContext.getDeviceStatus 2000 st "dev1" = "online"
  /\ option_map (fun u => temperature (Telemetry.r_data (SocketContext.tu_data u)))
       (SocketContext.getLatestTelemetryForDevice st "dev1")
     = Some (of_Z 10).
Proof.
  destruct (emitted_events_reach_the_client (parses_to sample_payload) calm sample_topic
              "(the text of the sample body)" sample_payload sample_data empty_world
              [] 1500 1501 2000 (sample_accepted sample_payload _ eq_refl sample_casts))
    as [reading [announced [Hr [He [Hlatest Hstatus]]]]].
  cbv zeta. rewrite He. cbn [MQTTWorker.emitted empty_world app List.combine].
  cbn [app] in Hlatest, Hstatus.
  assert (Ha : announced = 1008).
  { pose proof (f_equal (fun l => match l with
                                  | [_; MQTTWorker.DeviceUpdate _ t] => t
                                  | _ => 0
                                  end) He) as H.
    vm_compute in H. symmetry. exact H. }
  assert (Hreading : temperature (Telemetry.data reading) = of_Z 10).
  { pose proof (f_equal (fun l => match l with
                                  | [r] => temperature (Telemetry.data r)
                                  | _ => NaN
                                  end) Hr) as H.
    vm_compute in H. symmetry. exact H. }
  change (deviceId_of sample_topic) with "dev1" in Hlatest, Hstatus.
  change (deviceId_of sample_topic) with "dev1".
  split.
  - transitivity (status_name (status_of_age (Some (2000 - announced))));
      [exact Hstatus | rewrite Ha; reflexivity].
  - transitivity
      (option_map
         (fun u => temperature (Telemetry.r_data (SocketContext.tu_data u)))
         (Some {| SocketContext.tu_deviceId := "dev1";
                  SocketContext.tu_data := Telemetry.toAPIResponse reading;
                  SocketContext.tu_timestamp := 1500 |}));
      [exact (f_equal _ Hlatest) | cbn; rewrite Hreading; reflexivity].
Defined.
